(** * The Crazyflie bootloader utility: a shallow embedding of
    [cflib/bootloader/__init__.py] and the properties of its flashing engine,
    target selection and session entry.

    Python integers are [Z], byte strings are [list byte], text is [string].
    A method of [Bootloader] becomes a computation in the monad [M]: it reads
    the commands issued so far (the answers of the device, of the callbacks
    and of the deck memory are functions of that history), emits the commands
    and messages of the method in order, and ends by returning, by raising an
    exception, or by exhausting the fuel of the one unbounded loop.  The
    fields of [self] that the methods assign are passed explicitly.

    The moving average of [cflib/utils/moving_average.py] and the sample
    path of [examples/rfid/rfid_logger.py] are pure functions on records. *)

From Stdlib Require Import ZArith List String Ascii Bool Lia Sorting.Sorted.
From Stdlib Require Import Floats.
From Stdlib Require DecimalString HexadecimalString.
From Stdlib Require Import Init.Byte.
Import ListNotations.

Local Open Scope string_scope.
Local Open Scope Z_scope.
Local Open Scope list_scope.

(** ** Python built-ins used by the module *)

Module Py.

(** [str(n)] and the [{}] / [%d] formatting of an integer. *)
Definition str (n : Z) : string :=
  DecimalString.NilZero.string_of_int (Z.to_int n).

Definition upper_ascii (c : ascii) : ascii :=
  let n := nat_of_ascii c in
  if ((97 <=? n) && (n <=? 122))%nat then ascii_of_nat (n - 32) else c.

Fixpoint upper (s : string) : string :=
  match s with
  | EmptyString => EmptyString
  | String c s' => String (upper_ascii c) (upper s')
  end.

(** The [{:X}] formatting of an integer. *)
Definition hex_X (n : Z) : string :=
  upper (HexadecimalString.NilZero.string_of_int (Z.to_hex_int n)).

(** [range(0, n)]. *)
Definition range (n : Z) : list Z := map Z.of_nat (seq 0 (Z.to_nat n)).

(** [len(l)]. *)
Definition len {A} (l : list A) : Z := Z.of_nat (List.length l).

(** A slice bound as Python normalises it: a negative bound counts from
    the end, and the result is clamped to [0, len]. *)
Definition clamp (n k : Z) : Z :=
  let k' := if k <? 0 then k + n else k in
  Z.max 0 (Z.min n k').

(** [l[a:b]]. *)
Definition slice {A} (l : list A) (a b : Z) : list A :=
  let n := len l in
  let lo := clamp n a in
  let hi := clamp n b in
  firstn (Z.to_nat (hi - lo)) (skipn (Z.to_nat lo) l).

(** [l[a:]]. *)
Definition slice_from {A} (l : list A) (a : Z) : list A :=
  skipn (Z.to_nat (clamp (len l) a)) l.

Definition quote : ascii := "039"%char.
Definition double_quote : ascii := "034"%char.
Definition backslash : ascii := "092"%char.

Fixpoint contains (c : ascii) (s : string) : bool :=
  match s with
  | EmptyString => false
  | String c' s' => Ascii.eqb c c' || contains c s'
  end.

Definition hex_digit (n : nat) : ascii :=
  nth n (list_ascii_of_string "0123456789abcdef") "0"%char.

(** One character inside [repr(s)], between the quotes [q]. *)
Definition escape (q c : ascii) : string :=
  let n := nat_of_ascii c in
  if Ascii.eqb c q || Ascii.eqb c backslash then String backslash (String c EmptyString)
  else if (n =? 9)%nat then String backslash "t"
  else if (n =? 10)%nat then String backslash "n"
  else if (n =? 13)%nat then String backslash "r"
  else if ((n <? 32) || ((127 <=? n) && (n <=? 160)) || (n =? 173))%nat
  then String backslash
         (String "x" (String (hex_digit (n / 16)) (String (hex_digit (n mod 16))
                                                          EmptyString)))
  else String c EmptyString.

(** [repr(s)] of a string, what [%r] formats: double quotes when [s]
    holds a single quote and no double quote, single quotes otherwise; the
    quote in use, the backslash and the characters that are not printable
    are escaped.  A character of a [string] stands for the code point of
    its number; below 256 the characters that are not printable are the
    control characters (0 to 31 and 127 to 159), the no-break space (160)
    and the soft hyphen (173). *)
Definition repr (s : string) : string :=
  let q := if contains quote s && negb (contains double_quote s)
           then double_quote else quote in
  String q (String.concat "" (map (escape q) (list_ascii_of_string s))
            ++ String q EmptyString)%string.

End Py.

(** ** The arithmetic of the progress percentage

    [_internal_flash] computes the percentage in Python floats:
    [factor = (100.0 * page_size) / len(image)], [progress += factor],
    [int(progress)].  The engine below is written over an interface
    [Arith] holding exactly these operations; [Float64] instantiates it
    with the kernel's binary64 numbers (what CPython computes). *)

Record Arith : Type := {
  num : Type;
  of_int : Z -> num;                  (* conversion of a Python int *)
  hundred : num;                      (* the literal 100.0 *)
  mul : num -> num -> num;
  div : num -> num -> num;
  add : num -> num -> num;
  to_int : num -> Z                   (* int(x): truncation towards zero *)
}.

Module Float64.

Definition of_Z (z : Z) : float :=
  SF2Prim (binary_normalize prec emax z 0 false).

(** [int(x)] of a finite float; Python raises on infinities and NaN,
    which a sum of finitely many finite [factor]s below the overflow
    threshold never is. *)
Definition trunc (x : float) : Z :=
  match Prim2SF x with
  | S754_finite s m e =>
      let v := if 0 <=? e then Z.pos m * 2 ^ e else Z.pos m / 2 ^ (- e) in
      if s then - v else v
  | _ => 0
  end.

Definition arith : Arith := {|
  num := float;
  of_int := of_Z;
  hundred := of_Z 100;
  mul := PrimFloat.mul;
  div := PrimFloat.div;
  add := PrimFloat.add;
  to_int := trunc
|}.

End Float64.

(** ** Binary64 values

    What the progress properties say about the floats of [Float64]: the
    exponent of the format, the value of a non negative float as an
    integer number of units of [2 ^ -1074], and being in [[0, K]]. *)

Definition fexp64 (e : Z) : Z := Z.max (e - 53) (-1074).

(** Nothing has been shifted out of a mantissa so far. *)
Definition no_remainder (mrs : shr_record) : bool :=
  negb (shr_r mrs) && negb (shr_s mrs).

(** The exponent a mantissa [m] at exponent [e] is rounded at. *)
Definition round_exp (m e : Z) : Z := Z.max e (fexp64 (Zdigits2 m + e)).

(** What [binary_round_aux] returns for a non negative mantissa. *)
Definition pack (m e : Z) : spec_float :=
  match m with
  | Z0 => S754_zero false
  | Zpos p => if e <=? 971 then S754_finite false p e else S754_infinity false
  | Zneg _ => S754_nan
  end.

(** The value of a non negative float, in units of [2 ^ -1074]. *)
Definition units (x : spec_float) : Z :=
  match x with
  | S754_finite false m e => Zpos m * 2 ^ (e + 1074)
  | _ => 0
  end.

Definition finite_nonneg (x : spec_float) : bool :=
  match x with
  | S754_zero false | S754_finite false _ _ => true
  | _ => false
  end.

(** [x] is a float with [0 <= x <= K]. *)
Definition below (K : Z) (x : float) : Prop :=
  finite_nonneg (Prim2SF x) = true /\ units (Prim2SF x) <= K * 2 ^ 1074.

(** ** Data model *)

(** [Target = namedtuple('Target', ['platform', 'target', 'type'])]. *)
Module Target.
Record t : Type := mk { platform : string; target : string; type : string }.

Definition eqb (a b : t) : bool :=
  String.eqb (platform a) (platform b)
  && String.eqb (target a) (target b)
  && String.eqb (type a) (type b).
End Target.

(** [FlashArtifact = namedtuple('FlashArtifact', ['content', 'target'])]. *)
Module FlashArtifact.
Record t : Type := mk { content : list byte; target : Target.t }.
End FlashArtifact.

(** Modelled from the spec: the class of the entries of [Cloader.targets]
    ([cloader.py] and [boottypes.py] are not among the sources).  Section 3
    of the specification lists the fields of a target geometry. *)
Module TargetInfo.
Record t : Type := mk {
  id : Z;
  page_size : Z;
  buffer_pages : Z;
  flash_pages : Z;
  start_page : Z;
  addr : Z
}.
End TargetInfo.

(** Modelled from the spec: [boottypes.py] is not among the sources.  The
    protocol codes and the conversions between target names and ids are
    parameters of the development; [is_cf2] is true only for the current
    variant (section 4.C). *)
Record BootTypes : Type := {
  CF1_PROTO_VER_0 : Z;
  CF1_PROTO_VER_1 : Z;
  CF2_PROTO_VER : Z;
  STM32 : Z;
  NRF51 : Z;
  from_string : string -> Z;
  to_string : Z -> string
}.

Definition is_cf2 (BT : BootTypes) (ver : Z) : bool := ver =? CF2_PROTO_VER BT.

(** Modelled from the spec: the codes [STM32 = 0xFF] and [NRF51 = 0xFE] of
    section 3 and the names ["stm32"] and ["nrf51"]; the protocol codes are
    those of the Crazyflie bootloader protocol, and an unknown name or id
    converts to [0] or ["Unknown"]. *)
Definition boottypes : BootTypes := {|
  CF1_PROTO_VER_0 := 0x00;
  CF1_PROTO_VER_1 := 0x01;
  CF2_PROTO_VER := 0x10;
  STM32 := 0xFF;
  NRF51 := 0xFE;
  from_string := fun name =>
    if String.eqb name "stm32" then 0xFF
    else if String.eqb name "nrf51" then 0xFE else 0;
  to_string := fun target =>
    if target =? 0xFF then "stm32"
    else if target =? 0xFE then "nrf51" else "Unknown"
|}.

(** A deck as [SyncDeckMemoryManager.query_decks] reports it (section 3 of
    the specification: the deck record). *)
Module Deck.
Record t : Type := mk {
  name : string;
  is_started : bool;
  supports_fw_upgrade : bool;
  is_fw_upgrade_required : bool;
  is_bootloader_active : bool
}.
End Deck.

(** The manifest of a bundle after [json.loads]: [manifest['version']] and
    the items of [manifest['files']] in their order. *)
Record Manifest : Type := {
  version : Z;
  files : list (string * Target.t)
}.

Inductive manifest_entry : Type :=
| NoManifest                       (* the archive has no manifest.json *)
| BadManifest                      (* json.loads fails *)
| Parsed (m : Manifest).

(** What a path holds: any bytes that are not an archive, or a ZIP archive
    (its own bytes, its manifest and its members). *)
Inductive File : Type :=
| RawFile (content : list byte)
| ZipFile (raw : list byte) (manifest : manifest_entry)
          (members : list (string * list byte)).

(** ** Exceptions, events and the monad *)

Inductive exn : Type :=
| Exception (msg : string)         (* raise Exception(msg); Exception() has no message *)
| ZeroDivisionError
| KeyError (key : string)
| FileNotFoundError (filename : string)
| JSONDecodeError.

(** Everything a method does to the outside, in the order it does it. *)
Inductive event : Type :=
| Progress (message : string) (percent : Z)        (* self.progress_cb(message, percent) *)
| Print (line : string)                            (* print(line) *)
| StdoutWrite (text : string)                      (* sys.stdout.write(text) *)
| StdoutFlush
| LogInfo (text : string)                          (* logger.info(text) *)
| Sleep (seconds : Z)                              (* time.sleep(seconds) *)
| TerminatePoll                                    (* self.terminate_flashing_cb() *)
| CfCloseLink                                      (* cf.close_link() *)
| ScanForBootloader
| OpenBootloaderUri (uri : option string)
| ResetToBootloader (target_id : Z)
| CheckLinkAndGetInfo
| RequestInfoUpdate (target_id : Z)
| UploadBuffer (addr page address : Z) (buff : list byte)
| WriteFlash (addr page_buffer target_page page_count : Z)
| ResetToFirmware (target_id : Z)
| CloadClose
| ScfOpen (uri : option string)                    (* entering [with SyncCrazyflie(...)] *)
| ScfClose                                         (* leaving it *)
| GetMems
| QueryDecks
| DeckWriteSync (index : Z) (offset : Z) (data : list byte)
| InfoCb (protocol_version : Z) (connected : list (option TargetInfo.t)).

Inductive outcome (A : Type) : Type :=
| Return (a : A)
| Raise (e : exn)
| OutOfFuel.
Arguments Return {A} a.
Arguments Raise {A} e.
Arguments OutOfFuel {A}.

(** A computation: from the events so far to the events it adds and how it
    ends. *)
Definition M (A : Type) : Type := list event -> list event * outcome A.

Definition ret {A} (a : A) : M A := fun _ => ([], Return a).

Definition bind {A B} (m : M A) (k : A -> M B) : M B :=
  fun h =>
    match m h with
    | (e1, Return a) =>
        let (e2, r) := k a (h ++ e1) in (e1 ++ e2, r)
    | (e1, Raise x) => (e1, Raise x)
    | (e1, OutOfFuel) => (e1, OutOfFuel)
    end.

Definition emit (e : event) : M unit := fun _ => ([e], Return tt).

Definition raise {A} (x : exn) : M A := fun _ => ([], Raise x).

Definition out_of_fuel {A} : M A := fun _ => ([], OutOfFuel).

(** The answer of a collaborator, which may depend on everything done so
    far. *)
Definition ask {A} (f : list event -> A) : M A := fun h => ([], Return (f h)).

(** [with ...:] and [try ... finally]: [e] is emitted however [m] ends. *)
Definition finally {A} (m : M A) (e : event) : M A :=
  fun h =>
    match m h with
    | (e1, OutOfFuel) => (e1, OutOfFuel)
    | (e1, r) => (e1 ++ [e], r)
    end.

Notation "x <- m ;; k" := (bind m (fun x => k))
  (at level 61, m at next level, right associativity).
Notation "m ;; k" := (bind m (fun _ => k))
  (at level 61, right associativity).

Definition when (b : bool) (m : M unit) : M unit := if b then m else ret tt.

Definition events {A} (r : list event * outcome A) : list event := fst r.
Definition result {A} (r : list event * outcome A) : outcome A := snd r.

(** ** The collaborators

    [cloader.py], the application-mode client and the deck memory manager are
    external to the module.  Each answer they give is a function of the
    events so far, so a device may answer differently on every command. *)
Record World : Type := {
  fs : string -> option File;                      (* what each path holds *)
  cload_link : list event -> bool;                 (* self._cload.link is set *)
  scan_for_bootloader : list event -> option string;
  reset_to_bootloader : list event -> bool;
  check_link_and_get_info : list event -> bool;
  cload_protocol_version : list event -> Z;        (* self._cload.protocol_version *)
  cload_targets : list event -> Z -> option TargetInfo.t;  (* self._cload.targets *)
  request_info_update : list event -> option TargetInfo.t;
  write_flash : list event -> bool;
  cload_error_code : list event -> Z;              (* self._cload.error_code *)
  get_mems : list event -> nat;                    (* how many deck memories *)
  query_decks : list event -> list (Z * Deck.t);
  write_sync : list event -> bool
}.

(** The fields of [self] that the methods read or assign.  [progress_cb]
    says whether a progress callback is installed (its calls are the
    [Progress] events); [terminate_flashing_cb] is the cancellation
    predicate, if any. *)
Record Bootloader : Type := {
  clink : option string;
  protocol_version : Z;
  warm_booted : bool;
  progress_cb : bool;
  terminate_flashing_cb : option (list event -> bool)
}.

Definition cat (parts : list string) : string := String.concat "" parts.

Section Bootloader.

Variable A : Arith.
Variable BT : BootTypes.
Variable W : World.

(** [int(a / b)]: the true quotient truncated towards zero.  For
    [|a|] below [2^52] the binary64 quotient truncates to the integer
    quotient, which is what the model computes. *)
Definition int_div (a b : Z) : M Z :=
  if b =? 0 then raise ZeroDivisionError else ret (Z.quot a b).

(** [self.terminate_flashing_cb and self.terminate_flashing_cb()]. *)
Definition terminate_requested (self : Bootloader) : M bool :=
  match terminate_flashing_cb self with
  | None => ret false
  | Some cb => emit TerminatePoll ;; ask cb
  end.

(** The report of a failed [write_flash] (lines 337-346 and 364-372). *)
Definition flash_error (self : Bootloader) (progress : num A) : M unit :=
  code <- ask (cload_error_code W) ;;
  (if progress_cb self
   then emit (Progress (cat ["Error during flash operation (code "; Py.str code; ")"])
                       (to_int A progress))
   else emit (Print (cat ["
Error during flash operation (code "; Py.str code; "). Maybe wrong radio link?"]))) ;;
  raise (Exception "").

(** The announcement before a [write_flash] (lines 324-333 and 351-359). *)
Definition announce_write (self : Bootloader) (t_data : TargetInfo.t)
    (current_file_number total_files ctr : Z) (progress : num A) : M unit :=
  if progress_cb self
  then emit (Progress (cat ["Firmware ("; Py.str current_file_number; "/";
                            Py.str total_files; ") Writing buffer to ";
                            to_string BT (TargetInfo.id t_data); "..."])
                      (to_int A progress))
  else emit (StdoutWrite (Py.str ctr)) ;; emit StdoutFlush.

(** One turn of the loop [for i in range(...)] of [_internal_flash]
    (lines 296-348), from the buffer counter and the progress before it to
    those after it. *)
Definition flash_page (self : Bootloader) (image : list byte)
    (t_data : TargetInfo.t) (current_file_number total_files : Z)
    (factor : num A) (i : Z) (st : Z * num A) : M (Z * num A) :=
  let '(ctr, progress) := st in
  let start_page := TargetInfo.start_page t_data in
  stop <- terminate_requested self ;;
  if stop : bool then raise (Exception "Flashing terminated") else
  (if (i + 1) * TargetInfo.page_size t_data >? Py.len image
   then emit (UploadBuffer (TargetInfo.addr t_data) ctr 0
                (Py.slice_from image (i * TargetInfo.page_size t_data)))
   else emit (UploadBuffer (TargetInfo.addr t_data) ctr 0
                (Py.slice image (i * TargetInfo.page_size t_data)
                                ((i + 1) * TargetInfo.page_size t_data)))) ;;
  let ctr := ctr + 1 in
  progress <-
    (if progress_cb self
     then let progress := add A progress factor in
          emit (Progress (cat ["Firmware ("; Py.str current_file_number; "/";
                               Py.str total_files; ") Uploading buffer to ";
                               to_string BT (TargetInfo.id t_data); "..."])
                         (to_int A progress)) ;;
          ret progress
     else emit (StdoutWrite ".") ;; emit StdoutFlush ;; ret progress) ;;
  if ctr >=? TargetInfo.buffer_pages t_data then
    announce_write self t_data current_file_number total_files ctr progress ;;
    emit (WriteFlash (TargetInfo.addr t_data) 0 (start_page + i - (ctr - 1)) ctr) ;;
    ok <- ask (write_flash W) ;;
    if ok : bool then ret (0, progress)
    else flash_error self progress ;; ret (0, progress)
  else ret (ctr, progress).

(** The loop itself, over the values of [i]. *)
Fixpoint flash_pages (self : Bootloader) (image : list byte)
    (t_data : TargetInfo.t) (current_file_number total_files : Z)
    (factor : num A) (indices : list Z) (st : Z * num A) : M (Z * num A) :=
  match indices with
  | [] => ret st
  | i :: rest =>
      st' <- flash_page self image t_data current_file_number total_files factor i st ;;
      flash_pages self image t_data current_file_number total_files factor rest st'
  end.

(** What follows the loop (lines 350-372): the write of the pages still
    in the buffer; [last] is [int((len(image) - 1) / t_data.page_size)]. *)
Definition flash_residual (self : Bootloader) (t_data : TargetInfo.t)
    (current_file_number total_files : Z) (last : Z) (st : Z * num A)
    : M unit :=
  let '(ctr, progress) := st in
  let start_page := TargetInfo.start_page t_data in
  if ctr >? 0 then
    announce_write self t_data current_file_number total_files ctr progress ;;
    emit (WriteFlash (TargetInfo.addr t_data) 0 (start_page + last - (ctr - 1)) ctr) ;;
    ok <- ask (write_flash W) ;;
    if ok : bool then ret tt else flash_error self progress
  else ret tt.

(** [Bootloader._internal_flash] (lines 254-372). *)
Definition _internal_flash (self : Bootloader) (artifact : FlashArtifact.t)
    (current_file_number total_files : Z) : M unit :=
  targets <- ask (cload_targets W) ;;
  let key := from_string BT (Target.target (FlashArtifact.target artifact)) in
  match targets key with
  | None => raise (KeyError (Py.str key))
  | Some target_info =>
    let image := FlashArtifact.content artifact in
    let t_data := target_info in
    let start_page := TargetInfo.start_page target_info in
    if Py.len image =? 0 then raise ZeroDivisionError else
    let factor := div A (mul A (hundred A) (of_int A (TargetInfo.page_size t_data)))
                        (of_int A (Py.len image)) in
    let progress := of_int A 0 in
    (if progress_cb self
     then emit (Progress (cat ["Firmware ("; Py.str current_file_number; "/";
                               Py.str total_files; ") Starting..."])
                         (to_int A progress))
     else emit (StdoutWrite (cat ["Flashing "; Py.str current_file_number; " of ";
                                  Py.str total_files; " to ";
                                  to_string BT (TargetInfo.id t_data); " (";
                                  Target.type (FlashArtifact.target artifact); "): "])) ;;
          emit StdoutFlush) ;;
    if Py.len image >? (TargetInfo.flash_pages t_data - start_page)
                       * TargetInfo.page_size t_data
    then
      (if progress_cb self
       then emit (Progress "Error: Not enough space to flash the image file."
                           (to_int A progress))
       else emit (Print "Error: Not enough space to flash the image file.")) ;;
      raise (Exception "Not enough space to flash the image file")
    else
    (if progress_cb self then ret tt
     else pages <- int_div (Py.len image) (TargetInfo.page_size t_data) ;;
          let text := cat [Py.str (Py.len image - 1); " bytes (";
                           Py.str (pages + 1); " pages) "] in
          emit (LogInfo text) ;; emit (StdoutWrite text) ;; emit StdoutFlush) ;;
    last <- int_div (Py.len image - 1) (TargetInfo.page_size t_data) ;;
    st <- flash_pages self image t_data current_file_number total_files factor
            (Py.range (last + 1)) (0, progress) ;;
    flash_residual self t_data current_file_number total_files last st
  end.

(** [Bootloader._get_platform_id] (lines 374-380). *)
Definition _get_platform_id (self : Bootloader) : string :=
  if is_cf2 BT (protocol_version self) then "cf2" else "cf1".

(** [Bootloader.reset_to_firmware] (lines 244-248). *)
Definition reset_to_firmware : M unit :=
  v <- ask (cload_protocol_version W) ;;
  if v =? CF2_PROTO_VER BT
  then emit (ResetToFirmware (NRF51 BT))
  else emit (ResetToFirmware (STM32 BT)).

(** [Bootloader.close] (lines 250-252). *)
Definition close : M unit := emit CloadClose.

(** [Bootloader.get_target] (lines 132-133). *)
Definition get_target (target_id : Z) : M (option TargetInfo.t) :=
  emit (RequestInfoUpdate target_id) ;; ask (request_info_update W).

(** [Bootloader.start_bootloader] (lines 93-130); [cf] is [None], or a
    handle together with whether its link is open.  Returns [started] and
    [self] with [warm_booted] and [protocol_version] as assigned. *)
Definition start_bootloader (self : Bootloader) (warm_boot : bool)
    (cf : option bool) : M (bool * Bootloader) :=
  let self := {| clink := clink self;
                 protocol_version := protocol_version self;
                 warm_booted := warm_boot;
                 progress_cb := progress_cb self;
                 terminate_flashing_cb := terminate_flashing_cb self |} in
  started <-
    (if warm_boot then
       when (match cf with Some link => link | None => false end)
            (emit CfCloseLink) ;;
       emit (OpenBootloaderUri (clink self)) ;;
       emit (ResetToBootloader (NRF51 BT)) ;;
       started <- ask (reset_to_bootloader W) ;;
       if started : bool
       then emit CheckLinkAndGetInfo ;; ask (check_link_and_get_info W)
       else ret started
     else
       link <- ask (cload_link W) ;;
       if negb link then
         emit ScanForBootloader ;;
         uri <- ask (scan_for_bootloader W) ;;
         emit (Sleep 1) ;;
         match uri with
         | Some (String c u) =>
             emit (OpenBootloaderUri uri) ;;
             emit CheckLinkAndGetInfo ;; ask (check_link_and_get_info W)
         | _ => ret false
         end
       else ret true) ;;
  if started : bool then
    v <- ask (cload_protocol_version W) ;;
    let self := {| clink := clink self;
                   protocol_version := v;
                   warm_booted := warm_booted self;
                   progress_cb := progress_cb self;
                   terminate_flashing_cb := terminate_flashing_cb self |} in
    (if (v =? CF1_PROTO_VER_0 BT) || (v =? CF1_PROTO_VER_1 BT) then ret tt
     else if v =? CF2_PROTO_VER BT then emit (RequestInfoUpdate (NRF51 BT))
     else emit (Print (cat ["Bootloader protocol 0x"; Py.hex_X v;
                            " not supported!"]))) ;;
    ret (started, self)
  else ret (started, self).

Fixpoint lookup {V} (key : string) (d : list (string * V)) : option V :=
  match d with
  | [] => None
  | (k, v) :: d' => if String.eqb k key then Some v else lookup key d'
  end.

(** The argument of the [KeyError] that [ZipFile.read(name)] raises when
    the archive holds no member [name]. *)
Definition no_item (name : string) : string :=
  cat ["There is no item named "; Py.repr name; " in the archive"].

(** The loop of [_get_flash_artifacts_from_zip] over
    [manifest['files'].items()]. *)
Fixpoint read_artifacts (members : list (string * list byte))
    (files : list (string * Target.t)) : M (list FlashArtifact.t) :=
  match files with
  | [] => ret []
  | (file, target) :: rest =>
      match lookup file members with
      | None => raise (KeyError (no_item file))
      | Some content =>
          flash_artifacts <- read_artifacts members rest ;;
          ret (FlashArtifact.mk content target :: flash_artifacts)
      end
  end.

(** [Bootloader._get_flash_artifacts_from_zip] (lines 220-238). *)
Definition _get_flash_artifacts_from_zip (filename : string)
    : M (list FlashArtifact.t) :=
  match fs W filename with
  | Some (ZipFile _ manifest members) =>
      match manifest with
      | NoManifest => raise (KeyError (no_item "manifest.json"))
      | BadManifest => raise JSONDecodeError
      | Parsed manifest =>
          if negb (version manifest =? 1)
          then raise (Exception "Wrong manifest version")
          else read_artifacts members (files manifest)
      end
  | _ => ret []                      (* not zipfile.is_zipfile(filename) *)
  end.

(** [open(filename, 'br').read()]. *)
Definition read_file (filename : string) : M (list byte) :=
  match fs W filename with
  | Some (RawFile content) => ret content
  | Some (ZipFile raw _ _) => ret raw
  | None => raise (FileNotFoundError filename)
  end.

(** The loop of [_flash_flash] over [enumerate(artifacts)]. *)
Fixpoint flash_each (self : Bootloader) (i : Z) (total : Z)
    (artifacts : list FlashArtifact.t) : M unit :=
  match artifacts with
  | [] => ret tt
  | artifact :: rest =>
      _internal_flash self artifact (i + 1) total ;;
      flash_each self (i + 1) total rest
  end.

(** [Bootloader._flash_flash] (lines 240-242). *)
Definition _flash_flash (self : Bootloader) (artifacts : list FlashArtifact.t)
    (targets : list Target.t) : M unit :=
  flash_each self 0 (Py.len artifacts) artifacts.

Fixpoint deck_at (index : Z) (decks : list (Z * Deck.t)) : option Deck.t :=
  match decks with
  | [] => None
  | (k, d) :: rest => if k =? index then Some d else deck_at index rest
  end.

(** [while not deck.is_started: ...] (lines 419-422).  The loop has no
    bound in the source; [fuel] bounds its turns here. *)
Fixpoint wait_started (fuel : nat) (deck_index : Z) (deck : Deck.t)
    : M Deck.t :=
  if Deck.is_started deck then ret deck
  else match fuel with
       | O => out_of_fuel
       | S fuel' =>
           emit (Print "Deck not yet started ...") ;;
           emit (Sleep 500) ;;
           emit QueryDecks ;;
           decks <- ask (query_decks W) ;;
           match deck_at deck_index decks with
           | None => raise (KeyError (Py.str deck_index))
           | Some deck' => wait_started fuel' deck_index deck'
           end
       end.

Definition deck_fw (name : string) : Target.t := Target.mk "deck" name "fw".

(** One turn of [for (deck_index, deck) in decks.items()]
    (lines 398-445). *)
Definition flash_one_deck (fuel : nat) (self : Bootloader)
    (artifacts : list FlashArtifact.t) (targets : list Target.t)
    (deck_index : Z) (deck : Deck.t) : M unit :=
  let flash_all_targets := Py.len targets =? 0 in
  stop <- terminate_requested self ;;
  if stop : bool then raise (Exception "Flashing terminated") else
  let deck_target :=
    filter (fun t => Target.eqb t (deck_fw (Deck.name deck))) targets in
  if negb flash_all_targets && (Py.len deck_target =? 0) then
    emit (Print (cat ["Skipping "; Deck.name deck]))
  else
  let deck_artifacts :=
    filter (fun a => Target.eqb (FlashArtifact.target a) (deck_fw (Deck.name deck)))
           artifacts in
  match deck_artifacts with
  | [] =>
      emit (Print (cat ["Skipping "; Deck.name deck;
                        ", no artifact for it in the .zip"]))
  | deck_artifact :: _ =>
      when (progress_cb self)
           (emit (Progress (cat ["Updating deck "; Deck.name deck]) 50)) ;;
      emit (Print (cat ["Handling "; Deck.name deck])) ;;
      deck <- wait_started fuel deck_index deck ;;
      if negb (Deck.supports_fw_upgrade deck) then
        emit (Print (cat ["Deck "; Deck.name deck;
                          " does not support firmware update, skipping!"]))
      else if negb (Deck.is_fw_upgrade_required deck) then
        emit (Print (cat ["Deck "; Deck.name deck;
                          " firmware up to date, skipping"]))
      else if negb (Deck.is_bootloader_active deck) then
        emit (Print (cat ["Error: Deck "; Deck.name deck;
                          " bootloader not active, skipping!"]))
      else
        emit (DeckWriteSync deck_index 0 (FlashArtifact.content deck_artifact)) ;;
        result <- ask (write_sync W) ;;
        if result : bool then
          when (progress_cb self)
               (emit (Progress (cat ["Deck "; Deck.name deck;
                                     " updated succesfully!"]) 75))
        else
          when (progress_cb self)
               (emit (Progress (cat ["Failed to update deck "; Deck.name deck]) 0)) ;;
          raise (Exception (cat ["Failed to update deck "; Deck.name deck]))
  end.

Fixpoint flash_decks (fuel : nat) (self : Bootloader)
    (artifacts : list FlashArtifact.t) (targets : list Target.t)
    (decks : list (Z * Deck.t)) : M unit :=
  match decks with
  | [] => ret tt
  | (deck_index, deck) :: rest =>
      flash_one_deck fuel self artifacts targets deck_index deck ;;
      flash_decks fuel self artifacts targets rest
  end.

(** [Bootloader._flash_deck] (lines 382-445). *)
Definition _flash_deck (fuel : nat) (self : Bootloader)
    (artifacts : list FlashArtifact.t) (targets : list Target.t) : M unit :=
  when (progress_cb self) (emit (Progress "Detecting deck to be updated" 25)) ;;
  emit (ScfOpen (clink self)) ;;
  finally
    (emit GetMems ;;
     deck_mems_count <- ask (get_mems W) ;;
     if (deck_mems_count =? 0)%nat then ret tt
     else
       emit QueryDecks ;;
       decks <- ask (query_decks W) ;;
       flash_decks fuel self artifacts targets decks)
    ScfClose.

(** Lines 142-148 of [flash]: the artifacts of the bundle, or the file as
    one artifact for the only requested target. *)
Definition load_artifacts (filename : string) (targets : list Target.t)
    : M (list FlashArtifact.t) :=
  artifacts <- _get_flash_artifacts_from_zip filename ;;
  if Py.len artifacts =? 0 then
    match targets with
    | [target] =>
        content <- read_file filename ;;
        ret [FlashArtifact.mk content target]
    | _ => raise (Exception "Cannot flash a .bin to more than one target!")
    end
  else ret artifacts.

(** Lines 150-189 of [flash]: what it does with the artifacts. *)
Definition flash_loaded (fuel : nat) (self : Bootloader)
    (targets : list Target.t) (cf : option bool)
    (artifacts : list FlashArtifact.t) : M Bootloader :=
  let platform := _get_platform_id self in
  let flash_targets :=
    filter (fun t => String.eqb (Target.platform t) platform) targets in
  let deck_targets :=
    filter (fun t => String.eqb (Target.platform t) "deck") targets in
  let flash_artifacts :=
    filter (fun a => String.eqb (Target.platform (FlashArtifact.target a)) platform)
           artifacts in
  let deck_artifacts :=
    filter (fun a => String.eqb (Target.platform (FlashArtifact.target a)) "deck")
           artifacts in
  when ((Py.len targets =? 0) || (Py.len flash_targets >? 0))
       (_flash_flash self flash_artifacts flash_targets) ;;
  r <-
    (if (Py.len targets =? 0) || (Py.len deck_targets >? 0) then
       if warm_booted self then
         when (progress_cb self)
              (emit (Progress "Restarting firmware to update decks." 0)) ;;
         reset_to_firmware ;;
         close ;;
         emit (Sleep 3) ;;
         _flash_deck fuel self deck_artifacts deck_targets ;;
         when (progress_cb self)
              (emit (Progress "Deck updated! Restarting firmware." 100)) ;;
         r <- start_bootloader self true cf ;;
         ret (snd r, "Deck update complete.")
       else
         emit (Print "Skipping updating deck on coldboot") ;;
         ret (self, "Deck update skipped in ColdBoot mode.")
     else ret (self, "Deck update skipped.")) ;;
  let '(self, deck_update_msg) := r in
  (if progress_cb self
   then emit (Progress (cat ["("; Py.str (Py.len flash_artifacts); "/";
                             Py.str (Py.len flash_artifacts);
                             ") Flashing done! "; deck_update_msg]) 100)
   else emit (Print "")) ;;
  ret self.

(** [Bootloader.flash] (lines 135-189).  Returns [self] as the call leaves
    it. *)
Definition flash (fuel : nat) (self : Bootloader) (filename : string)
    (targets : list Target.t) (cf : option bool) : M Bootloader :=
  artifacts <- load_artifacts filename targets ;;
  flash_loaded fuel self targets cf artifacts.

(** The handle [cf] as [start_bootloader] leaves it: a warm start has
    closed its link (lines 97-98, [close_link] leaves [cf.link] unset), a
    cold start does not touch it. *)
Definition cf_after_start (warm_boot : bool) (cf : option bool) : option bool :=
  if warm_boot then option_map (fun _ => false) cf else cf.

(** [Bootloader.flash_full] (lines 191-218); a callback argument is either
    absent or installed.  [flash] gets the same object [cf] that
    [start_bootloader] was given, in the state in which that call left
    it. *)
Definition flash_full (fuel : nat) (self : Bootloader) (cf : option bool)
    (filename : option string) (warm : bool) (targets : list Target.t)
    (info_cb : bool) (progress_cb' : bool)
    (terminate_flash_cb : option (list event -> bool)) : M Bootloader :=
  let self := {| clink := clink self;
                 protocol_version := protocol_version self;
                 warm_booted := warm_booted self;
                 progress_cb := if progress_cb' then true else progress_cb self;
                 terminate_flashing_cb :=
                   match terminate_flash_cb with
                   | Some cb => Some cb
                   | None => terminate_flashing_cb self
                   end |} in
  r <- start_bootloader self warm cf ;;
  let cf := cf_after_start warm cf in
  let '(started, self) := r in
  if negb started then raise (Exception "Could not connect to bootloader") else
  when info_cb
       (stm32 <- get_target (STM32 BT) ;;
        connected <-
          (if protocol_version self =? CF2_PROTO_VER BT
           then nrf51 <- get_target (NRF51 BT) ;; ret [stm32; nrf51]
           else ret [stm32]) ;;
        emit (InfoCb (protocol_version self) connected)) ;;
  match filename with
  | Some filename =>
      self <- flash fuel self filename targets cf ;;
      reset_to_firmware ;;
      ret self
  | None => ret self
  end.

End Bootloader.

(** ** Observations on a trace *)

(** [a; a+1; ...], [n] of them. *)
Fixpoint zseq (a : Z) (n : nat) : list Z :=
  match n with
  | O => []
  | S n' => a :: zseq (a + 1) n'
  end.

(** The device pages [first, first + count). *)
Definition page_range (first count : Z) : list Z := zseq first (Z.to_nat count).

(** A page-program command as observed: where it programs, how many pages,
    and the zero-based index of the page uploaded last before it. *)
Record write_cmd : Type := {
  dest : Z;
  count : Z;
  latest : Z
}.

(** The [write_flash] commands of a trace in order; [k] is the index of the
    page uploaded last before the trace begins. *)
Fixpoint writes_from (k : Z) (evs : list event) : list write_cmd :=
  match evs with
  | [] => []
  | UploadBuffer _ _ _ _ :: rest => writes_from (k + 1) rest
  | WriteFlash _ _ target_page page_count :: rest =>
      {| dest := target_page; count := page_count; latest := k |}
      :: writes_from k rest
  | _ :: rest => writes_from k rest
  end.

Definition writes (evs : list event) : list write_cmd := writes_from (-1) evs.

(** The number of [upload_buffer] commands of a trace. *)
Fixpoint uploads (evs : list event) : Z :=
  match evs with
  | [] => 0
  | UploadBuffer _ _ _ _ :: rest => 1 + uploads rest
  | _ :: rest => uploads rest
  end.

(** The device pages programmed by a sequence of commands, in the order
    programmed and with repetitions. *)
Definition pages_written (ws : list write_cmd) : list Z :=
  flat_map (fun w => page_range (dest w) (count w)) ws.

(** The percentages handed to the progress callback, in order. *)
Fixpoint percents (evs : list event) : list Z :=
  match evs with
  | [] => []
  | Progress _ p :: rest => p :: percents rest
  | _ :: rest => percents rest
  end.

Definition is_flash_command (e : event) : bool :=
  match e with
  | UploadBuffer _ _ _ _ | WriteFlash _ _ _ _ => true
  | _ => false
  end.

(** The events of the deck pipeline: the excursion to the firmware
    (lines 167-169), the enumeration of the decks and a deck write. *)
Definition is_deck_pipeline (e : event) : bool :=
  match e with
  | ResetToFirmware _ | CloadClose | Sleep _ | ScfOpen _ | ScfClose
  | GetMems | QueryDecks | DeckWriteSync _ _ _ => true
  | _ => false
  end.

(** The events that write to a device: to the flash of the aircraft or to a
    deck. *)
Definition is_device_write (e : event) : bool :=
  match e with
  | UploadBuffer _ _ _ _ | WriteFlash _ _ _ _ | DeckWriteSync _ _ _ => true
  | _ => false
  end.

(** [ceil(a / b)] for a positive [b]. *)
Definition ceil_div (a b : Z) : Z := (a + b - 1) / b.

(** Every event of a computation satisfies [P], whatever came before. *)
Definition emits_only {A} (P : event -> bool) (m : M A) : Prop :=
  forall h, forallb P (events (m h)) = true.

(** The loop of [_internal_flash] followed by the residual write, for the
    geometry [G] of the artifact's target. *)
Definition loop_then_residual (A : Arith) (BT : BootTypes) (W : World)
    (self : Bootloader) (artifact : FlashArtifact.t) (cur total : Z)
    (G : TargetInfo.t) : M unit :=
  let image := FlashArtifact.content artifact in
  let factor := div A (mul A (hundred A) (of_int A (TargetInfo.page_size G)))
                      (of_int A (Py.len image)) in
  let last := Z.quot (Py.len image - 1) (TargetInfo.page_size G) in
  st <- flash_pages A BT W self image G cur total factor
          (Py.range (last + 1)) (0, of_int A 0) ;;
  flash_residual A BT W self G cur total last st.

(** What holds of a page-program command issued when the buffer counter
    was [ctr] at the start: its destination follows from the page uploaded
    last, it programs at least one page, and a full buffer when the counter
    started below [buffer_pages]. *)
Definition write_ok (G : TargetInfo.t) (ctr : Z) (w : write_cmd) : Prop :=
  dest w = TargetInfo.start_page G + latest w - (count w - 1)
  /\ 1 <= count w
  /\ (1 <= TargetInfo.buffer_pages G -> ctr < TargetInfo.buffer_pages G ->
      count w = TargetInfo.buffer_pages G).

(** ** Scenarios

    Concrete devices, sessions and bundles on which the theorems are
    instantiated and the code is evaluated. *)

(** The geometry of scenarios S1 to S4 of the specification. *)
Definition stm32_geometry : TargetInfo.t :=
  {| TargetInfo.id := 0xFF; TargetInfo.page_size := 1024;
     TargetInfo.buffer_pages := 10; TargetInfo.flash_pages := 128;
     TargetInfo.start_page := 16; TargetInfo.addr := 0xFF |}.

Definition nrf51_geometry : TargetInfo.t :=
  {| TargetInfo.id := 0xFE; TargetInfo.page_size := 1024;
     TargetInfo.buffer_pages := 1; TargetInfo.flash_pages := 232;
     TargetInfo.start_page := 88; TargetInfo.addr := 0xFE |}.

(** A device that advertises protocol [version], holds both targets and
    acknowledges every command; no deck memory. *)
Definition device (files : string -> option File) (version : Z) : World := {|
  fs := files;
  cload_link := fun _ => false;
  scan_for_bootloader := fun _ => Some "radio://0/0/2M";
  reset_to_bootloader := fun _ => true;
  check_link_and_get_info := fun _ => true;
  cload_protocol_version := fun _ => version;
  cload_targets := fun _ id =>
    if id =? 0xFF then Some stm32_geometry
    else if id =? 0xFE then Some nrf51_geometry else None;
  request_info_update := fun _ => Some nrf51_geometry;
  write_flash := fun _ => true;
  cload_error_code := fun _ => 0;
  get_mems := fun _ => 0%nat;
  query_decks := fun _ => [];
  write_sync := fun _ => true
|}.

Definition no_files : string -> option File := fun _ => None.

(** A session object with a progress callback or without, as
    [start_bootloader] leaves it. *)
Definition session (with_progress_cb warm : bool) (version : Z) : Bootloader := {|
  clink := Some "radio://0/0/2M";
  protocol_version := version;
  warm_booted := warm;
  progress_cb := with_progress_cb;
  terminate_flashing_cb := None
|}.

(** An image of [n] bytes. *)
Definition zeros (n : Z) : list byte := repeat x00 (Z.to_nat n).

Definition cf2_stm32 : Target.t := Target.mk "cf2" "stm32" "fw".
Definition cf2_nrf51 : Target.t := Target.mk "cf2" "nrf51" "fw".
Definition cf1_stm32 : Target.t := Target.mk "cf1" "stm32" "fw".

(** The images of scenarios S1 to S4, for the STM32. *)
Definition s1_artifact : FlashArtifact.t := FlashArtifact.mk (zeros 3500) cf2_stm32.
Definition s2_artifact : FlashArtifact.t := FlashArtifact.mk (zeros 10240) cf2_stm32.
Definition s3_artifact : FlashArtifact.t := FlashArtifact.mk (zeros 11264) cf2_stm32.
Definition s4_artifact : FlashArtifact.t := FlashArtifact.mk (zeros 114689) cf2_stm32.

(** [_internal_flash] on a CF2 that acknowledges everything, in binary64,
    with a progress callback installed. *)
Definition flash_on_cf2 (artifact : FlashArtifact.t) : list event * outcome unit :=
  _internal_flash Float64.arith boottypes (device no_files 0x10)
    (session true false 0x10) artifact 1 1 [].

(** Percentages in non-decreasing order, all within [lo, hi]. *)
Definition between (lo hi : Z) (ps : list Z) : Prop :=
  StronglySorted Z.le ps /\ Forall (fun p => lo <= p <= hi) ps.

(** The [write_flash] commands of a trace as (addr, target_page,
    page_count). *)
Fixpoint flash_writes (evs : list event) : list (Z * Z * Z) :=
  match evs with
  | [] => []
  | WriteFlash addr _ target_page page_count :: rest =>
      (addr, target_page, page_count) :: flash_writes rest
  | _ :: rest => flash_writes rest
  end.

(** A bundle with an image for each microcontroller of a CF2, in this
    order in the manifest. *)
Definition two_image_bundle : File :=
  ZipFile []
    (Parsed {| version := 1;
               files := [("cf2.bin", cf2_stm32); ("nrf51.bin", cf2_nrf51)] |})
    [("cf2.bin", zeros 2048); ("nrf51.bin", zeros 1024)].

(** The bundle of scenario S5: an image for the STM32 and one for a deck. *)
Definition deck_bundle : File :=
  ZipFile []
    (Parsed {| version := 1;
               files := [("cf2.bin", cf2_stm32);
                         ("deck.bin", Target.mk "deck" "bcLighthouse4" "fw")] |})
    [("cf2.bin", zeros 2048); ("deck.bin", zeros 512)].

(** The bundle of scenario S6: a manifest of version 2. *)
Definition version_2_bundle : File :=
  ZipFile [] (Parsed {| version := 2; files := [("cf2.bin", cf2_stm32)] |})
    [("cf2.bin", zeros 2048)].

(** A file system holding [file] at the path ["fw.zip"] and nothing else. *)
Definition only_file (file : File) : string -> option File :=
  fun path => if String.eqb path "fw.zip" then Some file else None.

(** None of the events of the deck pipeline. *)
Definition outside_deck_pipeline (e : event) : bool := negb (is_deck_pipeline e).

(** The bytes handed to [upload_buffer], in order. *)
Fixpoint uploaded (evs : list event) : list byte :=
  match evs with
  | [] => []
  | UploadBuffer _ _ _ buff :: rest => buff ++ uploaded rest
  | _ :: rest => uploaded rest
  end.

(** The number of calls of the cancellation predicate. *)
Fixpoint polls (evs : list event) : Z :=
  match evs with
  | [] => 0
  | TerminatePoll :: rest => 1 + polls rest
  | _ :: rest => polls rest
  end.

(** What [_internal_flash] reports before its loop (lines 267-276 and
    286-291), for a known target and an image that fits. *)
Definition announcement (A : Arith) (BT : BootTypes) (self : Bootloader)
    (artifact : FlashArtifact.t) (cur total : Z) (G : TargetInfo.t)
    : list event :=
  let image := FlashArtifact.content artifact in
  if progress_cb self
  then [Progress (cat ["Firmware ("; Py.str cur; "/"; Py.str total; ") Starting..."])
                 (to_int A (of_int A 0))]
  else
    let text := cat [Py.str (Py.len image - 1); " bytes (";
                     Py.str (Z.quot (Py.len image) (TargetInfo.page_size G) + 1);
                     " pages) "] in
    [StdoutWrite (cat ["Flashing "; Py.str cur; " of "; Py.str total; " to ";
                       to_string BT (TargetInfo.id G); " (";
                       Target.type (FlashArtifact.target artifact); "): "]);
     StdoutFlush; LogInfo text; StdoutWrite text; StdoutFlush].

(** Holds of a command to the flash of the target of geometry [G]: it
    carries the address of [G]; an upload fills, from offset 0, a buffer
    page below [buffer_pages] with at most one page of data; a program
    command reads from buffer page 0. *)
Definition well_addressed (G : TargetInfo.t) (e : event) : Prop :=
  match e with
  | UploadBuffer addr page address buff =>
      addr = TargetInfo.addr G /\ address = 0
      /\ 0 <= page < TargetInfo.buffer_pages G
      /\ 1 <= Py.len buff <= TargetInfo.page_size G
  | WriteFlash addr page_buffer _ _ =>
      addr = TargetInfo.addr G /\ page_buffer = 0
  | _ => True
  end.

(** The messages: progress reports, prints, writes to the standard output
    and log records. *)
Definition is_message (e : event) : bool :=
  match e with
  | Progress _ _ | Print _ | StdoutWrite _ | StdoutFlush | LogInfo _ => true
  | _ => false
  end.

(** The exception of a cancelled flash (lines 297 and 399). *)
Definition terminated : exn := Exception "Flashing terminated".

(** The report of a rejected [write_flash] with the error code [code]
    (lines 337-345 and 364-371). *)
Definition flash_error_report (self : Bootloader) (code percent : Z) : event :=
  if progress_cb self
  then Progress (cat ["Error during flash operation (code "; Py.str code; ")"]) percent
  else Print (cat ["
Error during flash operation (code "; Py.str code; "). Maybe wrong radio link?"]).

(** The trace [evs], which follows the history [h], ends with a
    [write_flash] that the device rejected and with the report of its
    error code. *)
Definition ends_rejected (W : World) (self : Bootloader) (h evs : list event)
    : Prop :=
  exists pre addr target_page page_count percent,
    let command := WriteFlash addr 0 target_page page_count in
    evs = pre ++ [command;
                  flash_error_report self
                    (cload_error_code W (h ++ pre ++ [command])) percent]
    /\ write_flash W (h ++ pre ++ [command]) = false.

(** The trace [evs], which follows the history [h], ends with a call of
    the cancellation predicate [cb] that answered true. *)
Definition ends_cancelled (cb : list event -> bool) (h evs : list event) : Prop :=
  (exists pre, evs = pre ++ [TerminatePoll]) /\ cb (h ++ evs) = true.

(** A device like [device] that rejects every [write_flash], with error
    code 42. *)
Definition rejecting_device : World := {|
  fs := no_files;
  cload_link := fun _ => false;
  scan_for_bootloader := fun _ => Some "radio://0/0/2M";
  reset_to_bootloader := fun _ => true;
  check_link_and_get_info := fun _ => true;
  cload_protocol_version := fun _ => 0x10;
  cload_targets := fun _ id =>
    if id =? 0xFF then Some stm32_geometry
    else if id =? 0xFE then Some nrf51_geometry else None;
  request_info_update := fun _ => Some nrf51_geometry;
  write_flash := fun _ => false;
  cload_error_code := fun _ => 42;
  get_mems := fun _ => 0%nat;
  query_decks := fun _ => [];
  write_sync := fun _ => true
|}.

(** A bundle whose manifest lists a file that the archive does not hold. *)
Definition incomplete_bundle : File :=
  ZipFile []
    (Parsed {| version := 1;
               files := [("cf2.bin", cf2_stm32); ("nrf51.bin", cf2_nrf51)] |})
    [("cf2.bin", zeros 2048)].

(** What [start_bootloader] does once the protocol version [v] is known
    (lines 120-128). *)
Definition version_dispatch (BT : BootTypes) (v : Z) : list event :=
  if (v =? CF1_PROTO_VER_0 BT) || (v =? CF1_PROTO_VER_1 BT) then []
  else if v =? CF2_PROTO_VER BT then [RequestInfoUpdate (NRF51 BT)]
  else [Print (cat ["Bootloader protocol 0x"; Py.hex_X v; " not supported!"])].

(** [self] after lines 202-205 of [flash_full]: a callback that is given
    replaces the one installed. *)
Definition install_callbacks (self : Bootloader) (progress_cb' : bool)
    (terminate_flash_cb : option (list event -> bool)) : Bootloader :=
  {| clink := clink self;
     protocol_version := protocol_version self;
     warm_booted := warm_booted self;
     progress_cb := if progress_cb' then true else progress_cb self;
     terminate_flashing_cb :=
       match terminate_flash_cb with
       | Some cb => Some cb
       | None => terminate_flashing_cb self
       end |}.

(** The target that [reset_to_firmware] addresses after the history [h]
    (lines 245-248). *)
Definition firmware_target (BT : BootTypes) (W : World) (h : list event) : Z :=
  if cload_protocol_version W h =? CF2_PROTO_VER BT then NRF51 BT else STM32 BT.

(** A world in which no bootloader answers: no link is open, the scan
    finds nothing and a reset to the bootloader fails. *)
Definition absent_device : World := {|
  fs := no_files;
  cload_link := fun _ => false;
  scan_for_bootloader := fun _ => None;
  reset_to_bootloader := fun _ => false;
  check_link_and_get_info := fun _ => false;
  cload_protocol_version := fun _ => 0;
  cload_targets := fun _ _ => None;
  request_info_update := fun _ => None;
  write_flash := fun _ => false;
  cload_error_code := fun _ => 0;
  get_mems := fun _ => 0%nat;
  query_decks := fun _ => [];
  write_sync := fun _ => false
|}.

(** ** Observations on the deck update *)

(** [P] holds of every event of [evs], each one taken with the events
    before it: [h] and the earlier events of [evs]. *)
Fixpoint each_event (P : list event -> event -> Prop) (h evs : list event)
    : Prop :=
  match evs with
  | [] => True
  | e :: rest => P h e /\ each_event P (h ++ [e]) rest
  end.

(** The checks of lines 418-434 on a deck. *)
Definition deck_ready (deck : Deck.t) : bool :=
  Deck.is_started deck && Deck.supports_fw_upgrade deck
  && Deck.is_fw_upgrade_required deck && Deck.is_bootloader_active deck.

(** A [query_decks] among the events [h], made after the events [since],
    reported [deck] at [index]. *)
Definition reported (W : World) (since h : list event) (index : Z)
    (deck : Deck.t) : Prop :=
  exists before after,
    h = since ++ before ++ QueryDecks :: after
    /\ In (index, deck) (query_decks W (since ++ before ++ [QueryDecks])).

(** Holds of a [write_sync] to the deck at [index] after the events [h]: a
    [query_decks] made after the events [since] reported the deck there as
    passing all checks. *)
Definition checked_deck_write (W : World) (since h : list event) (e : event)
    : Prop :=
  match e with
  | DeckWriteSync index _ _ =>
      exists deck, reported W since h index deck /\ deck_ready deck = true
  | _ => True
  end.

(** Holds of a [write_sync] when the loop runs over the decks [decks]: the
    deck written is an entry of [decks], and what is written, at offset 0,
    is the content of the first of [artifacts] whose target is the firmware
    of a deck of that name, a target that is among [targets] unless
    [targets] is empty. *)
Definition deck_write_from (decks : list (Z * Deck.t))
    (artifacts : list FlashArtifact.t) (targets : list Target.t) (e : event)
    : Prop :=
  match e with
  | DeckWriteSync index offset data =>
      offset = 0
      /\ exists deck before artifact after,
           In (index, deck) decks
           /\ artifacts = before ++ artifact :: after
           /\ FlashArtifact.target artifact = deck_fw (Deck.name deck)
           /\ (forall a, In a before ->
                         FlashArtifact.target a <> deck_fw (Deck.name deck))
           /\ data = FlashArtifact.content artifact
           /\ (targets = [] \/ In (deck_fw (Deck.name deck)) targets)
  | _ => True
  end.

(** [n] turns of the loop that waits for a deck to start (lines 419-422). *)
Definition waits (n : nat) : list event :=
  List.concat (repeat [Print "Deck not yet started ..."; Sleep 500; QueryDecks] n).

Definition is_deck_write (e : event) : bool :=
  match e with
  | DeckWriteSync _ _ _ => true
  | _ => false
  end.

Definition is_session (e : event) : bool :=
  match e with
  | ScfOpen _ | ScfClose => true
  | _ => false
  end.

(** The first report of [_flash_deck] (lines 385-386). *)
Definition detecting (self : Bootloader) : list event :=
  if progress_cb self then [Progress "Detecting deck to be updated" 25] else [].

(** The report of a refused [write_sync] (lines 443-444). *)
Definition deck_failure_report (self : Bootloader) (name : string)
    : list event :=
  if progress_cb self
  then [Progress (cat ["Failed to update deck "; name]) 0]
  else [].

Definition lighthouse_deck : Deck.t :=
  Deck.mk "bcLighthouse4" true true true true.

(** A CF2 with one deck, ready to be updated, on which [write_sync] answers
    [accepts]. *)
Definition deck_device (files : string -> option File) (accepts : bool)
    : World := {|
  fs := files;
  cload_link := fun _ => false;
  scan_for_bootloader := fun _ => Some "radio://0/0/2M";
  reset_to_bootloader := fun _ => true;
  check_link_and_get_info := fun _ => true;
  cload_protocol_version := fun _ => 0x10;
  cload_targets := fun _ id =>
    if id =? 0xFF then Some stm32_geometry
    else if id =? 0xFE then Some nrf51_geometry else None;
  request_info_update := fun _ => Some nrf51_geometry;
  write_flash := fun _ => true;
  cload_error_code := fun _ => 0;
  get_mems := fun _ => 1%nat;
  query_decks := fun _ => [(0, lighthouse_deck)];
  write_sync := fun _ => accepts
|}.

(** The deck image of [deck_bundle]. *)
Definition deck_artifact : FlashArtifact.t :=
  FlashArtifact.mk (zeros 512) (deck_fw "bcLighthouse4").

(** How a deck update fails with the exception [x], after the events [h]
    and having added the events [evs]: cancelled by the callback, refused by
    a deck, or a deck that is waited for is gone from the list of decks. *)
Definition deck_update_failed (W : World) (self : Bootloader)
    (h evs : list event) (x : exn) : Prop :=
  (x = terminated
   /\ exists cb, terminate_flashing_cb self = Some cb
                 /\ ends_cancelled cb h evs)
  \/ (exists pre index data name,
        evs = pre ++ DeckWriteSync index 0 data :: deck_failure_report self name
        /\ write_sync W (h ++ pre ++ [DeckWriteSync index 0 data]) = false
        /\ x = Exception (cat ["Failed to update deck "; name]))
  \/ (exists pre index,
        evs = pre ++ [QueryDecks] /\ x = KeyError (Py.str index)).

(** ** The moving average of [cflib/utils/moving_average.py] and its user
    [examples/rfid/rfid_logger.py]

    A sample, the fill value and the running sum are Python numbers: an
    [int], exact, or a [float], binary64.  Arithmetic on two ints is exact;
    with a float operand the int is converted first, which raises
    [OverflowError] when it is too large.  [size] is an [int]. *)

Module MovingAverage.

Inductive error : Type := IndexError | ZeroDivisionError | OverflowError.

Inductive number : Type :=
| Int (n : Z)
| Float (x : float).

(** [float(n)] of an integer: the nearest binary64 number, and
    [OverflowError] when that is not finite. *)
Definition float_of_int (n : Z) : float + error :=
  let x := Float64.of_Z n in
  if PrimFloat.is_infinity x then inr OverflowError else inl x.

(** [float(a)]. *)
Definition to_float (a : number) : float + error :=
  match a with
  | Int n => float_of_int n
  | Float x => inl x
  end.

(** [a + b], [a - b] and [a * b]. *)
Definition arith (int_op : Z -> Z -> Z) (float_op : float -> float -> float)
    (a b : number) : number + error :=
  match a, b with
  | Int m, Int n => inl (Int (int_op m n))
  | _, _ =>
      match to_float a, to_float b with
      | inl x, inl y => inl (Float (float_op x y))
      | inr e, _ => inr e
      | _, inr e => inr e
      end
  end.

Definition add : number -> number -> number + error := arith Z.add PrimFloat.add.
Definition sub : number -> number -> number + error := arith Z.sub PrimFloat.sub.
Definition mul : number -> number -> number + error := arith Z.mul PrimFloat.mul.

Record t : Type := mk {
  _elements : list number;
  _sum : number;
  average : number
}.

(** [MovingAverage(size, fill)] (lines 2-5), [fill] being [0.0] when it is
    not given; [[fill] * size] is the empty list for [size <= 0]. *)
Definition __init__ (size : Z) (fill : number) : t + error :=
  let elements := repeat fill (Z.to_nat size) in
  match mul fill (Int size) with
  | inl sum => inl {| _elements := elements; _sum := sum; average := fill |}
  | inr e => inr e
  end.

(** [update(value)] (lines 7-11): [self] as the call leaves it, and the
    exception that it raises, if any.  On an empty window
    [self._elements[0]] raises before anything is assigned; when the
    addition raises, [_sum] has lost the oldest element already. *)
Definition update (self : t) (value : number) : t * option error :=
  match _elements self with
  | [] => (self, Some IndexError)
  | first :: rest =>
      match sub (_sum self) first with
      | inr e => (self, Some e)
      | inl without_first =>
          let self := {| _elements := _elements self;
                         _sum := without_first;
                         average := average self |} in
          match add (_sum self) value with
          | inr e => (self, Some e)
          | inl sum =>
              ({| _elements := rest ++ [value];
                  _sum := sum;
                  average := average self |}, None)
          end
      end
  end.

(** [getAverage()] (lines 13-14). *)
Definition getAverage (self : t) : float + error :=
  match to_float (_sum self) with
  | inr e => inr e
  | inl total =>
      let n := Py.len (_elements self) in
      if n =? 0 then inr ZeroDivisionError
      else inl (PrimFloat.div total (Float64.of_Z n))
  end.

End MovingAverage.

Module RFIDLogger.

(** The fields that a reading depends on.  [recent_value] is not assigned
    before the first sample. *)
Record t : Type := mk {
  _moving_average : MovingAverage.t;
  recent_value : option Z
}.

(** [RFIDLogger(cf, update_period_ms, moving_average_length)] (lines 6-12),
    without the registration of the callbacks and of the log configuration
    with the Crazyflie. *)
Definition __init__ (moving_average_length : Z) : t + MovingAverage.error :=
  match MovingAverage.__init__ moving_average_length (MovingAverage.Int 200) with
  | inl average => inl {| _moving_average := average; recent_value := None |}
  | inr e => inr e
  end.

(** [_rfid_log_data(timestamp, data, logconf)] (lines 27-30); [data] maps
    the names of the log variables to their values, the integers of the
    log.  Returns [self] as the call leaves it and the exception that it
    raises, if any. *)
Definition _rfid_log_data (self : t) (data : list (string * Z))
    : t * option MovingAverage.error :=
  match lookup "rfid.value" data with
  | Some value =>
      let self := {| _moving_average := _moving_average self;
                     recent_value := Some value |} in
      let '(average, raised) :=
        MovingAverage.update (_moving_average self) (MovingAverage.Int value) in
      ({| _moving_average := average; recent_value := recent_value self |},
       raised)
  | None => (self, None)
  end.

(** [get_reading()] (lines 35-36). *)
Definition get_reading (self : t) : float + MovingAverage.error :=
  MovingAverage.getAverage (_moving_average self).

End RFIDLogger.

(** *** Observations on the moving average *)

(** The calls [update(v)] for the [values] in order, up to the first that
    raises. *)
Fixpoint updates (self : MovingAverage.t) (values : list MovingAverage.number)
    : MovingAverage.t * option MovingAverage.error :=
  match values with
  | [] => (self, None)
  | value :: rest =>
      match MovingAverage.update self value with
      | (self', None) => updates self' rest
      | raised => raised
      end
  end.

Definition total (l : list Z) : Z := fold_right Z.add 0 l.

(** The last [size] of: [size] copies of [fill], then the [values]. *)
Definition window (size fill : Z) (values : list Z) : list Z :=
  skipn (List.length values) (repeat fill (Z.to_nat size) ++ values).

(** [total / size] as [getAverage] computes it. *)
Definition mean (total size : Z) : float + MovingAverage.error :=
  match MovingAverage.float_of_int total with
  | inr e => inr e
  | inl x => inl (PrimFloat.div x (Float64.of_Z size))
  end.

(** The log packets [packets] delivered in order, up to the first that
    raises. *)
Fixpoint deliver (self : RFIDLogger.t) (packets : list (list (string * Z)))
    : RFIDLogger.t * option MovingAverage.error :=
  match packets with
  | [] => (self, None)
  | data :: rest =>
      match RFIDLogger._rfid_log_data self data with
      | (self', None) => deliver self' rest
      | raised => raised
      end
  end.

(** The values of [rfid.value] in the packets that carry one. *)
Definition rfid_values (packets : list (list (string * Z))) : list Z :=
  flat_map (fun data => match lookup "rfid.value" data with
                        | Some value => [value]
                        | None => []
                        end) packets.

(** The probe of [start_bootloader] (lines 96-113): what it does to
    decide [started], for [self] as line 94 leaves it. *)
Definition probe (BT : BootTypes) (W : World) (self : Bootloader)
    (warm_boot : bool) (cf : option bool) : M bool :=
  if warm_boot then
    when (match cf with Some link => link | None => false end)
         (emit CfCloseLink) ;;
    emit (OpenBootloaderUri (clink self)) ;;
    emit (ResetToBootloader (NRF51 BT)) ;;
    started <- ask (reset_to_bootloader W) ;;
    if started : bool
    then emit CheckLinkAndGetInfo ;; ask (check_link_and_get_info W)
    else ret started
  else
    link <- ask (cload_link W) ;;
    if negb link then
      emit ScanForBootloader ;;
      uri <- ask (scan_for_bootloader W) ;;
      emit (Sleep 1) ;;
      match uri with
      | Some (String c u) =>
          emit (OpenBootloaderUri uri) ;;
          emit CheckLinkAndGetInfo ;; ask (check_link_and_get_info W)
      | _ => ret false
      end
    else ret true.

(** [self] with the fields [warm_booted] and [protocol_version] assigned
    (lines 94 and 115). *)
Definition started_session (self : Bootloader) (warm_boot : bool) (version : Z)
    : Bootloader :=
  {| clink := clink self;
     protocol_version := version;
     warm_booted := warm_boot;
     progress_cb := progress_cb self;
     terminate_flashing_cb := terminate_flashing_cb self |}.

(** The run [r], which follows the events [h], stops at a rejected
    [write_flash]: if the device rejects one of its [write_flash] commands,
    the run raises the bare [Exception()] and has done nothing after that
    command but report the error code of the device. *)
Definition stops_at_rejection {T} (W : World) (self : Bootloader)
    (h : list event) (r : list event * outcome T) : Prop :=
  forall pre addr page_buffer target_page page_count post,
    events r = pre ++ WriteFlash addr page_buffer target_page page_count :: post ->
    write_flash W (h ++ pre ++ [WriteFlash addr page_buffer target_page page_count])
    = false ->
    result r = Raise (Exception "")
    /\ exists percent,
         post = [flash_error_report self
                   (cload_error_code W
                      (h ++ pre
                       ++ [WriteFlash addr page_buffer target_page page_count]))
                   percent].

Definition is_write_flash (e : event) : bool :=
  match e with
  | WriteFlash _ _ _ _ => true
  | _ => false
  end.

(** ** The monad *)

Lemma events_bind {A B} (m : M A) (k : A -> M B) (h : list event) :
  events (bind m k h)
  = events (m h) ++ match result (m h) with
                    | Return a => events (k a (h ++ events (m h)))
                    | _ => []
                    end.
Proof.
  unfold bind, events, result.
  destruct (m h) as [e1 [a | x |]]; simpl.
  - destruct (k a (h ++ e1)); reflexivity.
  - now rewrite app_nil_r.
  - now rewrite app_nil_r.
Qed.

Lemma result_bind {A B} (m : M A) (k : A -> M B) (h : list event) :
  result (bind m k h)
  = match result (m h) with
    | Return a => result (k a (h ++ events (m h)))
    | Raise x => Raise x
    | OutOfFuel => OutOfFuel
    end.
Proof.
  unfold bind, events, result.
  destruct (m h) as [e1 [a | x |]]; simpl; try reflexivity.
  destruct (k a (h ++ e1)); reflexivity.
Qed.

Lemma emits_only_ret {A} P (a : A) : emits_only P (ret a).
Proof. intro h; reflexivity. Qed.

Lemma emits_only_raise {A} P x : emits_only P (@raise A x).
Proof. intro h; reflexivity. Qed.

Lemma emits_only_ask {A} P (f : list event -> A) : emits_only P (ask f).
Proof. intro h; reflexivity. Qed.

Lemma emits_only_emit P e : P e = true -> emits_only P (emit e).
Proof. intros He h; simpl; now rewrite He. Qed.

Lemma emits_only_bind {A B} P (m : M A) (k : A -> M B) :
  emits_only P m -> (forall a, emits_only P (k a)) -> emits_only P (bind m k).
Proof.
  intros Hm Hk h. rewrite events_bind, forallb_app, Hm. simpl.
  destruct (result (m h)); auto. apply Hk.
Qed.

Lemma emits_only_when P (b : bool) (m : M unit) :
  emits_only P m -> emits_only P (when b m).
Proof. destruct b; simpl; auto using emits_only_ret. Qed.

Lemma emits_only_finally {A} P (m : M A) e :
  emits_only P m -> P e = true -> emits_only P (finally m e).
Proof.
  intros Hm He h. specialize (Hm h). unfold finally, events in *.
  destruct (m h) as [e1 [a | x |]]; simpl in *; auto;
    rewrite forallb_app, Hm; simpl; now rewrite He.
Qed.

(** ** Traces and page ranges *)

Lemma zseq_app (a : Z) (n m : nat) :
  zseq a (n + m) = zseq a n ++ zseq (a + Z.of_nat n) m.
Proof.
  revert a; induction n as [|n IH]; intro a.
  - simpl. now rewrite Z.add_0_r.
  - cbn [Nat.add zseq app]. rewrite IH. do 3 f_equal. lia.
Qed.

Lemma page_range_app (a n m : Z) :
  0 <= n -> 0 <= m ->
  page_range a n ++ page_range (a + n) m = page_range a (n + m).
Proof.
  intros Hn Hm. unfold page_range.
  rewrite (Z2Nat.inj_add n m) by lia. rewrite zseq_app.
  rewrite (Z2Nat.id n) by lia. reflexivity.
Qed.

Lemma zseq_lower (a : Z) (n : nat) (x : Z) : In x (zseq a n) -> a <= x.
Proof.
  revert a; induction n as [|n IH]; intros a; cbn [zseq In]; [tauto|].
  intros [<- | Hx]; [lia|]. apply IH in Hx. lia.
Qed.

Lemma zseq_sorted (a : Z) (n : nat) : StronglySorted Z.lt (zseq a n).
Proof.
  revert a; induction n as [|n IH]; intro a; cbn [zseq]; constructor.
  - apply IH.
  - apply Forall_forall. intros x Hx%zseq_lower. lia.
Qed.

Lemma sorted_app_inv {T} (R : T -> T -> Prop) (l1 l2 : list T) :
  StronglySorted R (l1 ++ l2) ->
  StronglySorted R l2 /\ forall x y, In x l1 -> In y l2 -> R x y.
Proof.
  induction l1 as [|a l1 IH]; cbn [app].
  - intro H; split; [exact H | intros x y []].
  - intro H. apply StronglySorted_inv in H as [Hs Hall].
    destruct (IH Hs) as [H2 Hlt]. split; [exact H2|].
    intros x y [<- | Hx] Hy.
    + rewrite Forall_forall in Hall. apply Hall, in_or_app. now right.
    + now apply Hlt.
Qed.

Lemma uploads_app (a b : list event) : uploads (a ++ b) = uploads a + uploads b.
Proof.
  induction a as [|e a IH]; [reflexivity|].
  destruct e; cbn [app uploads]; rewrite ?IH; lia.
Qed.

Lemma writes_from_app (k : Z) (a b : list event) :
  writes_from k (a ++ b) = writes_from k a ++ writes_from (k + uploads a) b.
Proof.
  revert k; induction a as [|e a IH]; intro k.
  - cbn [app writes_from uploads]. now rewrite Z.add_0_r.
  - destruct e; cbn [app writes_from uploads]; rewrite ?IH; try reflexivity.
    f_equal. f_equal. lia.
Qed.

Lemma pages_written_app (a b : list write_cmd) :
  pages_written (a ++ b) = pages_written a ++ pages_written b.
Proof. apply flat_map_app. Qed.

Lemma percents_app (a b : list event) :
  percents (a ++ b) = percents a ++ percents b.
Proof.
  induction a as [|e a IH]; [reflexivity|].
  destruct e; cbn [app percents]; now rewrite ?IH.
Qed.

Lemma no_flash_command (evs : list event) (k : Z) :
  forallb (fun e => negb (is_flash_command e)) evs = true ->
  uploads evs = 0 /\ writes_from k evs = [].
Proof.
  induction evs as [|e evs IH]; [split; reflexivity|].
  cbn [forallb]. intros [He Hr]%andb_prop.
  destruct e; cbn in He; try discriminate; cbn [uploads writes_from]; auto.
Qed.

(** Page-program commands that each program at least one page, and whose
    pages come out in ascending order, are issued in ascending order of
    destination. *)
Lemma dests_sorted (ws : list write_cmd) :
  Forall (fun w => 1 <= count w) ws ->
  StronglySorted Z.lt (pages_written ws) ->
  StronglySorted Z.lt (map dest ws).
Proof.
  induction ws as [|w ws IH]; intros Hc Hs; [constructor|].
  apply Forall_cons_iff in Hc as [Hw Hc].
  cbn [pages_written flat_map] in Hs. fold (pages_written ws) in Hs.
  apply sorted_app_inv in Hs as [Hs Hlt].
  cbn [map]. constructor; [now apply IH|].
  apply Forall_forall. intros d Hd. apply in_map_iff in Hd as (w' & <- & Hin).
  rewrite Forall_forall in Hc. specialize (Hc _ Hin).
  apply Hlt.
  - unfold page_range. destruct (Z.to_nat (count w)) eqn:E; [lia|]. now left.
  - unfold pages_written. apply in_flat_map. exists w'. split; [exact Hin|].
    unfold page_range. destruct (Z.to_nat (count w')) eqn:E; [lia|]. now left.
Qed.

(** ** The flashing engine *)

Ltac run :=
  unfold bind, emit, ret, raise, ask, when, events, result in *;
  cbn -[cat Py.str Py.len Py.slice Py.slice_from Z.add Z.mul Z.sub Z.geb Z.gtb] in *.

Ltac split_ifs :=
  repeat (match goal with
          | |- context [if ?b then _ else _] => destruct b eqn:?
          end;
          cbn -[cat Py.str Py.len Py.slice Py.slice_from Z.add Z.mul Z.sub Z.geb Z.gtb] in * ).

Section Engine.

Variable A : Arith.
Variable BT : BootTypes.
Variable W : World.
Variable self : Bootloader.
Variable image : list byte.
Variable G : TargetInfo.t.
Variables cur total : Z.
Variable factor : num A.

Let start := TargetInfo.start_page G.
Let bp := TargetInfo.buffer_pages G.

(** One turn of the loop uploads one page and, when the buffer is full,
    programs the [ctr + 1] buffered pages ending at page [i]. *)
Lemma flash_page_spec (i ctr : Z) (pr : num A) (h : list event) (k : Z) :
  let r := flash_page A BT W self image G cur total factor i (ctr, pr) h in
  let w := {| dest := start + i - ctr; count := ctr + 1; latest := k + 1 |} in
  match result r with
  | Return (ctr', pr') =>
      uploads (events r) = 1
      /\ (if ctr + 1 >=? bp
          then ctr' = 0 /\ writes_from k (events r) = [w]
          else ctr' = ctr + 1 /\ writes_from k (events r) = [])
  | _ => writes_from k (events r) = []
         \/ ((ctr + 1 >=? bp) = true /\ writes_from k (events r) = [w])
  end.
Proof.
  unfold flash_page, terminate_requested, announce_write, flash_error.
  subst start bp.
  destruct (terminate_flashing_cb self) as [cb|]; run; split_ifs.
  all: try (left; reflexivity).
  all: try (right; split; [reflexivity|]; repeat f_equal; lia).
  all: split; try reflexivity; split; try reflexivity; repeat f_equal; lia.
Qed.

Lemma write_ok_weaken (c c' : Z) (w : write_cmd) :
  (1 <= bp -> c < bp -> c' < bp) -> write_ok G c' w -> write_ok G c w.
Proof. unfold write_ok; subst bp; intuition. Qed.

(** The loop over pages [a, a + n), entered with [ctr] pages in the
    buffer: every command is well formed, and when the loop completes, the
    pages programmed together with the [ctr'] still buffered are the pages
    [start + a - ctr, start + a + n). *)
Lemma flash_pages_spec (n : nat) :
  forall (a : nat) (ctr : Z) (pr : num A) (h : list event),
  0 <= ctr ->
  let r := flash_pages A BT W self image G cur total factor
             (map Z.of_nat (seq a n)) (ctr, pr) h in
  let ws := writes_from (Z.of_nat a - 1) (events r) in
  Forall (write_ok G ctr) ws
  /\ forall ctr' pr', result r = Return (ctr', pr') ->
       0 <= ctr' /\ ctr' <= ctr + Z.of_nat n
       /\ (1 <= bp -> ctr < bp -> ctr' < bp)
       /\ uploads (events r) = Z.of_nat n
       /\ pages_written ws
          ++ page_range (start + Z.of_nat a + Z.of_nat n - ctr') ctr'
          = page_range (start + Z.of_nat a - ctr) (ctr + Z.of_nat n).
Proof.
  induction n as [|n IH]; intros a ctr pr h Hctr.
  - cbn. split; [constructor|]. intros ctr' pr' [= <- <-].
    repeat split; try lia. f_equal; lia.
  - cbn [seq map flash_pages]. cbv zeta.
    rewrite events_bind, result_bind.
    pose proof (flash_page_spec (Z.of_nat a) ctr pr h (Z.of_nat a - 1)) as Hp.
    cbv zeta in Hp.
    set (p := flash_page A BT W self image G cur total factor (Z.of_nat a) (ctr, pr) h) in *.
    destruct (result p) as [[c1 p1] | x |] eqn:Hres.
    + destruct Hp as [Hup Hw].
      specialize (IH (S a) c1 p1 (h ++ events p)).
      cbv zeta in IH.
      set (q := flash_pages A BT W self image G cur total factor
                  (map Z.of_nat (seq (S a) n)) (c1, p1) (h ++ events p)) in *.
      rewrite writes_from_app, uploads_app, Hup.
      replace (Z.of_nat a - 1 + 1) with (Z.of_nat (S a) - 1) by lia.
      destruct (ctr + 1 >=? bp) eqn:Hge.
      * destruct Hw as [-> Hw]. rewrite Hw.
        destruct IH as [IH1 IH2]; [lia|].
        split.
        -- constructor.
           ++ unfold write_ok; cbn. subst start bp. repeat split; lia.
           ++ revert IH1. apply Forall_impl. intro w.
              apply write_ok_weaken. lia.
        -- intros ctr' pr' Hr. destruct (IH2 _ _ Hr) as (H0 & Hle & Hlt & Hu & Hpg).
           repeat split; try lia.
           cbn [app pages_written flat_map dest count].
           fold (pages_written (writes_from (Z.of_nat (S a) - 1) (events q))).
           rewrite <- app_assoc.
           replace (start + Z.of_nat a + Z.of_nat (S n) - ctr')
             with (start + Z.of_nat (S a) + Z.of_nat n - ctr') by lia.
           rewrite Hpg.
           replace (start + Z.of_nat (S a) - 0)
             with (start + Z.of_nat a - ctr + (ctr + 1)) by lia.
           rewrite page_range_app by lia. f_equal; lia.
      * destruct Hw as [-> Hw]. rewrite Hw. cbn [app].
        destruct IH as [IH1 IH2]; [lia|].
        split.
        -- revert IH1. apply Forall_impl. intro w.
           apply write_ok_weaken. lia.
        -- intros ctr' pr' Hr. destruct (IH2 _ _ Hr) as (H0 & Hle & Hlt & Hu & Hpg).
           repeat split; try lia.
           replace (start + Z.of_nat a + Z.of_nat (S n) - ctr')
             with (start + Z.of_nat (S a) + Z.of_nat n - ctr') by lia.
           rewrite Hpg. f_equal; lia.
    + rewrite app_nil_r. split; [|discriminate].
      destruct Hp as [-> | [Hge ->]]; constructor; [|constructor].
      unfold write_ok; cbn. subst start bp. apply Z.geb_le in Hge. repeat split; lia.
    + rewrite app_nil_r. split; [|discriminate].
      destruct Hp as [-> | [Hge ->]]; constructor; [|constructor].
      unfold write_ok; cbn. subst start bp. apply Z.geb_le in Hge. repeat split; lia.
Qed.

(** The residual write: one command for the [ctr] buffered pages, none when
    the buffer is empty. *)
Lemma flash_residual_spec (last ctr : Z) (pr : num A) (h : list event) (k : Z) :
  let r := flash_residual A BT W self G cur total last (ctr, pr) h in
  uploads (events r) = 0
  /\ writes_from k (events r)
     = if ctr >? 0
       then [{| dest := start + last - (ctr - 1); count := ctr; latest := k |}]
       else [].
Proof.
  unfold flash_residual, announce_write, flash_error. subst start bp.
  run; split_ifs; split; reflexivity.
Qed.

End Engine.

Section Shape.

Variable A : Arith.
Variable BT : BootTypes.
Variable W : World.
Variable self : Bootloader.
Variable artifact : FlashArtifact.t.
Variables cur total : Z.

Let image := FlashArtifact.content artifact.
Let key := from_string BT (Target.target (FlashArtifact.target artifact)).

(** [_internal_flash] either fails before any command to the device, or
    announces the artifact and runs the loop and the residual write. *)
Lemma internal_flash_shape (h : list event) :
  let r := _internal_flash A BT W self artifact cur total h in
  (forallb (fun e => negb (is_flash_command e)) (events r) = true
   /\ result r <> Return tt
   /\ Forall (fun p => p = to_int A (of_int A 0)) (percents (events r))
   /\ (cload_targets W h key = None
       \/ Py.len image = 0
       \/ exists G, cload_targets W h key = Some G
                    /\ (Py.len image > (TargetInfo.flash_pages G - TargetInfo.start_page G)
                                       * TargetInfo.page_size G
                        \/ TargetInfo.page_size G = 0)))
  \/ exists G pre,
       (events r = pre ++ events (loop_then_residual A BT W self artifact cur total G (h ++ pre))
        /\ result r = result (loop_then_residual A BT W self artifact cur total G (h ++ pre)))
       /\ cload_targets W h key = Some G
       /\ Py.len image <> 0
       /\ Py.len image <= (TargetInfo.flash_pages G - TargetInfo.start_page G)
                          * TargetInfo.page_size G
       /\ TargetInfo.page_size G <> 0
       /\ forallb (fun e => negb (is_flash_command e)) pre = true
       /\ percents pre = (if progress_cb self then [to_int A (of_int A 0)] else []).
Proof.
  unfold _internal_flash, loop_then_residual, int_div. fold image key.
  cbv zeta.
  unfold bind, ask, emit, ret, raise, events, result.
  cbn -[cat Py.str Py.len Z.add Z.mul Z.sub Z.gtb Z.eqb flash_pages flash_residual Py.range].
  destruct (cload_targets W h key) as [G|] eqn:HG.
  2:{ left. cbn. split; [reflexivity | split; [discriminate | split; [constructor | now left]]]. }
  destruct (Py.len image =? 0) eqn:Hlen.
  { left. apply Z.eqb_eq in Hlen. cbn.
    split; [reflexivity | split; [discriminate | split; [constructor | auto]]]. }
  apply Z.eqb_neq in Hlen.
  destruct (Py.len image >? (TargetInfo.flash_pages G - TargetInfo.start_page G)
                            * TargetInfo.page_size G) eqn:Hfit.
  { left. apply Z.gtb_lt in Hfit.
    destruct (progress_cb self); cbn;
      (split; [reflexivity
              | split; [discriminate
                       | split; [repeat constructor
                                | right; right; exists G; split; [reflexivity | left; lia]]]]). }
  assert (Hfit' : Py.len image <= (TargetInfo.flash_pages G - TargetInfo.start_page G)
                            * TargetInfo.page_size G).
  { rewrite Z.gtb_ltb in Hfit. apply Z.ltb_ge in Hfit. exact Hfit. }
  destruct (TargetInfo.page_size G =? 0) eqn:Hps.
  { left. apply Z.eqb_eq in Hps.
    destruct (progress_cb self); cbn; rewrite ?Hfit, ?Hps; cbn;
      (split; [reflexivity
              | split; [discriminate
                       | split; [repeat constructor
                                | right; right; exists G; split; [reflexivity | right; assumption]]]]). }
  apply Z.eqb_neq in Hps.
  right. exists G. rewrite ?app_nil_r.
  destruct (progress_cb self) eqn:Hcb.
  all: rewrite <- ?app_assoc; cbn [app];
    match goal with
    | |- context [flash_pages _ _ _ _ _ _ _ _ _ _ _ (_ ++ ?pre)] => exists pre
    end;
    (split; [|repeat (split; [first [assumption | reflexivity]|]); reflexivity]);
    match goal with
    | |- context [flash_pages ?a ?b ?c ?d ?e ?f ?g ?i ?j ?k ?l ?m] =>
        destruct (flash_pages a b c d e f g i j k l m) as [e1 [st | x |]]
    end; cbn [fst snd app]; try (split; reflexivity);
    match goal with
    | |- context [flash_residual ?a ?b ?c ?d ?e ?f ?g ?i ?j ?k] =>
        destruct (flash_residual a b c d e f g i j k) as [e2 r2]
    end; split; reflexivity.
Qed.

(** The commands of the loop and the residual write, for any geometry:
    each is well formed, and on success the pages programmed are the first
    [last + 1] pages from [start_page]. *)
Lemma loop_then_residual_spec (G : TargetInfo.t) (h : list event) :
  let r := loop_then_residual A BT W self artifact cur total G h in
  let last := Z.quot (Py.len image - 1) (TargetInfo.page_size G) in
  let ws := writes (events r) in
  Forall (fun w => dest w = TargetInfo.start_page G + latest w - (count w - 1)
                   /\ 1 <= count w
                   /\ (1 <= TargetInfo.buffer_pages G ->
                       count w <= TargetInfo.buffer_pages G)) ws
  /\ (result r = Return tt ->
      0 <= last ->
      uploads (events r) = last + 1
      /\ pages_written ws = page_range (TargetInfo.start_page G) (last + 1)).
Proof.
  cbv zeta. unfold loop_then_residual. fold image. cbv zeta.
  set (last := Z.quot (Py.len image - 1) (TargetInfo.page_size G)).
  set (factor := div A _ _).
  rewrite events_bind, result_bind.
  pose proof (flash_pages_spec A BT W self image G cur total factor
                (Z.to_nat (last + 1)) 0 0 (of_int A 0) h (Z.le_refl 0)) as Hloop.
  cbv zeta in Hloop. fold (Py.range (last + 1)) in Hloop.
  set (p := flash_pages A BT W self image G cur total factor
              (Py.range (last + 1)) (0, of_int A 0) h) in *.
  destruct Hloop as [Hws Hret].
  unfold writes. rewrite writes_from_app.
  change (Z.of_nat 0 - 1) with (-1) in *.
  destruct (result p) as [[ctr pr] | x |] eqn:Hres.
  - destruct (Hret ctr pr eq_refl) as (Hctr & Hle & Hlt & Hup & Hpg).
    pose proof (flash_residual_spec A BT W self G cur total last ctr pr
                  (h ++ events p) (-1 + uploads (events p))) as [Hru Hrw].
    rewrite Hrw. split.
    + apply Forall_app. split.
      * revert Hws. apply Forall_impl. unfold write_ok.
        intros w (Hd & Hc & Hb). repeat split; try assumption.
        intro H1. rewrite Hb; lia.
      * destruct (ctr >? 0) eqn:Hpos; constructor; [|constructor].
        apply Z.gtb_lt in Hpos. cbn [dest count latest].
        repeat split; try lia; intro H1; specialize (Hlt H1); lia.
    + intros Hok Hlast. rewrite uploads_app, Hru, Hup.
      split; [lia|].
      rewrite pages_written_app.
      replace (page_range (TargetInfo.start_page G) (last + 1))
        with (page_range (TargetInfo.start_page G + Z.of_nat 0 - 0)
                (0 + Z.of_nat (Z.to_nat (last + 1))))
        by (f_equal; lia).
      rewrite <- Hpg. f_equal.
      destruct (ctr >? 0) eqn:Hpos.
      * cbn [pages_written flat_map dest count]. rewrite app_nil_r.
        f_equal. lia.
      * rewrite Z.gtb_ltb in Hpos. apply Z.ltb_ge in Hpos.
        replace ctr with 0 by lia. reflexivity.
  - rewrite app_nil_r. split; [|discriminate].
    revert Hws. apply Forall_impl. unfold write_ok.
    intros w (Hd & Hc & Hb). repeat split; try assumption.
    intro H1. rewrite Hb; lia.
  - rewrite app_nil_r. split; [|discriminate].
    revert Hws. apply Forall_impl. unfold write_ok.
    intros w (Hd & Hc & Hb). repeat split; try assumption.
    intro H1. rewrite Hb; lia.
Qed.

End Shape.

(** ** Page arithmetic *)

Lemma ceil_div_spec (a b : Z) :
  0 < b -> (ceil_div a b - 1) * b < a <= ceil_div a b * b.
Proof.
  intro Hb. unfold ceil_div.
  pose proof (Z.div_mod (a + b - 1) b ltac:(lia)) as Hdm.
  pose proof (Z.mod_pos_bound (a + b - 1) b Hb) as Hm.
  nia.
Qed.

(** The bound of the loop of [_internal_flash] is the page count. *)
Lemma last_page_index (len page_size : Z) :
  1 <= len -> 0 < page_size ->
  Z.quot (len - 1) page_size + 1 = ceil_div len page_size.
Proof.
  intros Hl Hp. unfold ceil_div.
  rewrite Z.quot_div_nonneg by lia.
  replace (len + page_size - 1) with (len - 1 + 1 * page_size) by lia.
  rewrite Z.div_add by lia. reflexivity.
Qed.

(** ** The claims about the flashing engine *)

Section EngineClaims.

Variable A : Arith.
Variable BT : BootTypes.
Variable W : World.
Variable self : Bootloader.
Variable artifact : FlashArtifact.t.
Variables cur total : Z.
Variable h : list event.
Variable G : TargetInfo.t.

Let image := FlashArtifact.content artifact.
Let key := from_string BT (Target.target (FlashArtifact.target artifact)).

Hypothesis target_known : cload_targets W h key = Some G.

(** The writes of [_internal_flash] are those of the loop and the residual
    write, or none at all. *)
Lemma internal_flash_writes :
  let r := _internal_flash A BT W self artifact cur total h in
  (writes (events r) = [] /\ uploads (events r) = 0 /\ result r <> Return tt)
  \/ exists pre,
       Py.len image <> 0
       /\ TargetInfo.page_size G <> 0
       /\ writes (events r)
          = writes (events (loop_then_residual A BT W self artifact cur total G (h ++ pre)))
       /\ uploads (events r)
          = uploads (events (loop_then_residual A BT W self artifact cur total G (h ++ pre)))
       /\ result r = result (loop_then_residual A BT W self artifact cur total G (h ++ pre)).
Proof.
  cbv zeta.
  destruct (internal_flash_shape A BT W self artifact cur total h)
    as [(Hno & Hres & _ & _) | (G' & pre & (Hev & Hres) & HG & Hlen & _ & Hps & Hno & _)].
  - left. apply (no_flash_command _ (-1)) in Hno as [Hu Hw]. auto.
  - right. fold key in HG. rewrite target_known in HG. injection HG as <-.
    exists pre. fold image in Hlen.
    apply (no_flash_command _ (-1)) in Hno as [Hu Hw].
    rewrite Hev. unfold writes. rewrite writes_from_app, uploads_app, Hu, Hw.
    repeat split; auto.
Qed.

(** C1. An image of at least one byte flashed successfully onto a target of
    geometry [G]: the [write_flash] commands program exactly the pages
    [start_page, ..., start_page + ceil(len(image) / page_size) - 1], each
    once, and are issued in strictly ascending order of destination page. *)
Theorem page_coverage :
  0 < TargetInfo.page_size G ->
  1 <= Py.len (FlashArtifact.content artifact) ->
  let r := _internal_flash A BT W self artifact cur total h in
  result r = Return tt ->
  pages_written (writes (events r))
  = page_range (TargetInfo.start_page G)
      (ceil_div (Py.len (FlashArtifact.content artifact)) (TargetInfo.page_size G))
  /\ StronglySorted Z.lt (map dest (writes (events r))).
Proof.
  intros Hps Hlen r Hok. subst r.
  destruct internal_flash_writes as [(_ & _ & Hbad) | (pre & _ & _ & Hw & _ & Hres)];
    [contradiction|].
  rewrite Hres in Hok. rewrite Hw.
  pose proof (loop_then_residual_spec A BT W self artifact cur total G (h ++ pre))
    as [Hall Hpages].
  fold image in Hpages, Hlen |- *.
  pose proof (last_page_index _ _ Hlen Hps) as Hlast.
  destruct (Hpages Hok) as [_ Hpg].
  { pose proof (ceil_div_spec (Py.len image) (TargetInfo.page_size G) Hps). nia. }
  rewrite Hlast in Hpg. split; [exact Hpg|].
  apply dests_sorted.
  - revert Hall. apply Forall_impl. tauto.
  - rewrite Hpg. apply zseq_sorted.
Qed.

(** C2. With [buffer_pages >= 1], no [write_flash] is issued for more than
    [buffer_pages] pages: a write inside the loop passes exactly
    [buffer_pages], and the residual write passes the counter left by the
    loop, which is below [buffer_pages]. *)
Theorem batch_bound :
  1 <= TargetInfo.buffer_pages G ->
  Forall (fun w => count w <= TargetInfo.buffer_pages G)
         (writes (events (_internal_flash A BT W self artifact cur total h)))
  /\ (forall factor n pr h',
        Forall (fun w => count w = TargetInfo.buffer_pages G)
               (writes (events (flash_pages A BT W self image G cur total factor
                                  (Py.range n) (0, pr) h'))))
  /\ (forall factor n pr h' ctr pr',
        result (flash_pages A BT W self image G cur total factor
                  (Py.range n) (0, pr) h') = Return (ctr, pr') ->
        0 <= ctr < TargetInfo.buffer_pages G
        /\ forall last h'',
             Forall (fun w => count w = ctr /\ 0 < count w < TargetInfo.buffer_pages G)
                    (writes (events (flash_residual A BT W self G cur total last
                                       (ctr, pr') h'')))).
Proof.
  intro Hbp. split; [|split].
  - destruct internal_flash_writes as [(Hw & _) | (pre & _ & _ & Hw & _)];
      rewrite Hw; [constructor|].
    pose proof (loop_then_residual_spec A BT W self artifact cur total G (h ++ pre))
      as [Hall _].
    revert Hall. apply Forall_impl. intros w (_ & _ & Hle). auto.
  - intros factor n pr h'.
    pose proof (flash_pages_spec A BT W self image G cur total factor
                  (Z.to_nat n) 0 0 pr h' (Z.le_refl 0)) as [Hall _].
    revert Hall. apply Forall_impl. unfold write_ok. intros w (_ & _ & Hc).
    apply Hc; lia.
  - intros factor n pr h' ctr pr' Hres.
    pose proof (flash_pages_spec A BT W self image G cur total factor
                  (Z.to_nat n) 0 0 pr h' (Z.le_refl 0)) as [_ Hret].
    destruct (Hret _ _ Hres) as (H0 & _ & Hlt & _).
    split; [lia|]. intros last h''.
    pose proof (flash_residual_spec A BT W self G cur total last ctr pr' h'' (-1))
      as [_ Hw].
    unfold writes. rewrite Hw.
    destruct (ctr >? 0) eqn:Hpos; constructor; [|constructor].
    apply Z.gtb_lt in Hpos. cbn [count]. lia.
Qed.

(** C3. Every [write_flash] of [n] pages has destination
    [start_page + k - (n - 1)], [k] being the index of the page uploaded
    last; a successful run uploads all [P = ceil(len(image) / page_size)]
    pages, and the residual write of [ctr > 0] pages goes to
    [start_page + (P - 1) - (ctr - 1)]. *)
Theorem destination_derivation :
  0 < TargetInfo.page_size G ->
  1 <= Py.len (FlashArtifact.content artifact) ->
  let P := ceil_div (Py.len (FlashArtifact.content artifact)) (TargetInfo.page_size G) in
  let r := _internal_flash A BT W self artifact cur total h in
  Forall (fun w => dest w = TargetInfo.start_page G + latest w - (count w - 1))
         (writes (events r))
  /\ (result r = Return tt -> uploads (events r) = P)
  /\ (forall ctr pr h' k,
        0 < ctr ->
        writes_from k
          (events (flash_residual A BT W self G cur total
                     (Z.quot (Py.len (FlashArtifact.content artifact) - 1)
                             (TargetInfo.page_size G))
                     (ctr, pr) h'))
        = [{| dest := TargetInfo.start_page G + (P - 1) - (ctr - 1);
              count := ctr; latest := k |}]).
Proof.
  intros Hps Hlen P r. subst P r. fold image in Hlen |- *.
  pose proof (last_page_index _ _ Hlen Hps) as Hlast.
  split; [|split].
  - destruct internal_flash_writes as [(Hw & _) | (pre & _ & _ & Hw & _)];
      rewrite Hw; [constructor|].
    pose proof (loop_then_residual_spec A BT W self artifact cur total G (h ++ pre))
      as [Hall _].
    revert Hall. apply Forall_impl. tauto.
  - intro Hok.
    destruct internal_flash_writes as [(_ & _ & Hbad) | (pre & _ & _ & _ & Hu & Hres)];
      [contradiction|].
    rewrite Hres in Hok. rewrite Hu.
    pose proof (loop_then_residual_spec A BT W self artifact cur total G (h ++ pre))
      as [_ Hpages].
    fold image in Hpages.
    destruct (Hpages Hok) as [Hup _]; [|lia].
    pose proof (ceil_div_spec (Py.len image) (TargetInfo.page_size G) Hps); nia.
  - intros ctr pr h' k Hctr.
    pose proof (flash_residual_spec A BT W self G cur total
                  (Z.quot (Py.len image - 1) (TargetInfo.page_size G))
                  ctr pr h' k) as [_ Hw].
    rewrite Hw. apply Z.gtb_lt in Hctr. rewrite Hctr.
    do 2 f_equal; lia.
Qed.

(** C4. An image longer than [(flash_pages - start_page) * page_size]
    fails with the insufficient-space error, and no [upload_buffer] or
    [write_flash] is issued before the failure. *)
Theorem size_guard :
  1 <= Py.len (FlashArtifact.content artifact) ->
  Py.len (FlashArtifact.content artifact)
    > (TargetInfo.flash_pages G - TargetInfo.start_page G) * TargetInfo.page_size G ->
  let r := _internal_flash A BT W self artifact cur total h in
  result r = Raise (Exception "Not enough space to flash the image file")
  /\ uploads (events r) = 0
  /\ writes (events r) = []
  /\ forallb (fun e => negb (is_flash_command e)) (events r) = true.
Proof.
  intros Hlen Hbig. cbv zeta. fold image in Hlen, Hbig.
  unfold _internal_flash. fold image key.
  unfold bind, ask, emit, ret, raise, events, result.
  cbn -[cat Py.str Py.len Z.add Z.mul Z.sub Z.gtb Z.eqb flash_pages flash_residual Py.range].
  rewrite target_known.
  destruct (Py.len image =? 0) eqn:H0; [apply Z.eqb_eq in H0; lia|].
  replace (Py.len image >? (TargetInfo.flash_pages G - TargetInfo.start_page G)
                           * TargetInfo.page_size G) with true
    by (symmetry; apply Z.gtb_lt; lia).
  destruct (progress_cb self); cbn; repeat split; reflexivity.
Qed.

End EngineClaims.

(** *** Instances on the scenarios of the specification *)

Lemma page_coverage_witness :
  pages_written (writes (events (flash_on_cf2 s3_artifact))) = page_range 16 11
  /\ StronglySorted Z.lt (map dest (writes (events (flash_on_cf2 s3_artifact)))).
Proof.
  apply (page_coverage Float64.arith boottypes (device no_files 0x10)
           (session true false 0x10) s3_artifact 1 1 [] stm32_geometry).
  - reflexivity.
  - reflexivity.
  - apply Z.leb_le. vm_compute. reflexivity.
  - vm_compute. reflexivity.
Defined.

Lemma batch_bound_witness :
  1 <= TargetInfo.buffer_pages stm32_geometry
  /\ Forall (fun w => count w <= 10) (writes (events (flash_on_cf2 s3_artifact))).
Proof.
  split; [apply Z.leb_le; reflexivity|].
  apply (batch_bound Float64.arith boottypes (device no_files 0x10)
           (session true false 0x10) s3_artifact 1 1 [] stm32_geometry).
  - reflexivity.
  - apply Z.leb_le. reflexivity.
Defined.

Lemma destination_derivation_witness :
  Forall (fun w => dest w = 16 + latest w - (count w - 1))
         (writes (events (flash_on_cf2 s3_artifact)))
  /\ uploads (events (flash_on_cf2 s3_artifact)) = 11.
Proof.
  pose proof (destination_derivation Float64.arith boottypes (device no_files 0x10)
                (session true false 0x10) s3_artifact 1 1 [] stm32_geometry
                eq_refl eq_refl) as H.
  destruct H as (Hd & Hu & _).
  - apply Z.leb_le. vm_compute. reflexivity.
  - split; [exact Hd|]. apply Hu. vm_compute. reflexivity.
Defined.

Lemma size_guard_witness :
  Py.len (FlashArtifact.content s4_artifact) = (128 - 16) * 1024 + 1
  /\ result (flash_on_cf2 s4_artifact)
     = Raise (Exception "Not enough space to flash the image file")
  /\ uploads (events (flash_on_cf2 s4_artifact)) = 0.
Proof.
  split; [vm_compute; reflexivity|].
  pose proof (size_guard Float64.arith boottypes (device no_files 0x10)
                (session true false 0x10) s4_artifact 1 1 [] stm32_geometry
                eq_refl) as H.
  destruct H as (Hr & Hu & _).
  - apply Z.leb_le. vm_compute. reflexivity.
  - apply Z.lt_gt, Z.ltb_lt. vm_compute. reflexivity.
  - split; assumption.
Defined.

(** ** Binary64 arithmetic on the progress

    The facts about the kernel's binary64 operations that the progress
    percentage rests on, from their specification in [SpecFloat]. *)
Lemma fexp_fexp64 (e : Z) : SpecFloat.fexp prec emax e = fexp64 e.
Proof. reflexivity. Qed.

Lemma digits2_pos_bounds (p : positive) :
  2 ^ (Zpos (digits2_pos p) - 1) <= Zpos p < 2 ^ Zpos (digits2_pos p).
Proof.
  induction p as [p IH | p IH |]; cbn [digits2_pos].
  - rewrite Pos2Z.inj_succ, Z.pow_succ_r by lia.
    replace (Z.succ (Zpos (digits2_pos p)) - 1)
      with (Z.succ (Zpos (digits2_pos p) - 1)) by lia.
    rewrite Z.pow_succ_r by lia. lia.
  - rewrite Pos2Z.inj_succ, Z.pow_succ_r by lia.
    replace (Z.succ (Zpos (digits2_pos p)) - 1)
      with (Z.succ (Zpos (digits2_pos p) - 1)) by lia.
    rewrite Z.pow_succ_r by lia. lia.
  - cbn. lia.
Qed.

Lemma Zdigits2_bounds (m : Z) :
  0 < m -> 0 < Zdigits2 m /\ 2 ^ (Zdigits2 m - 1) <= m < 2 ^ Zdigits2 m.
Proof.
  destruct m as [|p|p]; try lia. intros _. cbn [Zdigits2].
  split; [lia | apply digits2_pos_bounds].
Qed.

Lemma Zdigits2_le (m : Z) (d : Z) : 0 < m -> m < 2 ^ d -> Zdigits2 m <= d.
Proof.
  intros Hm Hd. destruct (Zdigits2_bounds m Hm) as [Hpos [Hlo _]].
  destruct (Z.le_gt_cases (Zdigits2 m) d) as [|Hgt]; [assumption|].
  assert (0 <= d \/ d < 0) as [Hd0 | Hd0] by lia.
  - assert (2 ^ d <= 2 ^ (Zdigits2 m - 1)) by (apply Z.pow_le_mono_r; lia). lia.
  - rewrite Z.pow_neg_r in Hd by lia. lia.
Qed.

Lemma Zdigits2_ge (m : Z) (d : Z) : 0 < m -> 2 ^ (d - 1) <= m -> d <= Zdigits2 m.
Proof.
  intros Hm Hd. destruct (Zdigits2_bounds m Hm) as [Hpos [_ Hhi]].
  destruct (Z.le_gt_cases d (Zdigits2 m)) as [|Hgt]; [assumption|].
  assert (2 ^ Zdigits2 m <= 2 ^ (d - 1)) by (apply Z.pow_le_mono_r; lia). lia.
Qed.

(** *** Shifting right *)

Lemma iter_pos_nat {A} (f : A -> A) (p : positive) (x : A) :
  iter_pos f p x = Nat.iter (Pos.to_nat p) f x.
Proof.
  revert x. induction p as [p IH | p IH |]; intros x; cbn [iter_pos].
  - rewrite !IH, Pos2Nat.inj_xI.
    rewrite <- Nat.iter_succ_r, <- Nat.iter_add. f_equal. lia.
  - rewrite !IH, Pos2Nat.inj_xO, <- Nat.iter_add. f_equal. lia.
  - reflexivity.
Qed.

Lemma shr_1_spec (mrs : shr_record) :
  0 <= shr_m mrs ->
  shr_m (shr_1 mrs) = shr_m mrs / 2
  /\ (shr_m mrs mod 2 = 0 -> no_remainder mrs = true -> no_remainder (shr_1 mrs) = true).
Proof.
  destruct mrs as [m r s]. cbn [shr_m]. intros Hm.
  destruct m as [|[p|p|]|p]; try lia; cbn [shr_1 shr_m no_remainder shr_r shr_s].
  - split; [reflexivity|]. intros _. destruct r, s; cbn; congruence.
  - split; [rewrite Pos2Z.inj_xI; apply Z.div_unique with 1; lia|].
    rewrite Pos2Z.inj_xI.
    replace ((2 * Zpos p + 1) mod 2) with 1
      by (apply Z.mod_unique with (Zpos p); lia). lia.
  - split; [rewrite Pos2Z.inj_xO; apply Z.div_unique with 0; lia|].
    intros _. destruct r, s; cbn; congruence.
  - split; [reflexivity|]. cbn. lia.
Qed.

Lemma shr_iter (k : nat) (mrs : shr_record) :
  0 <= shr_m mrs ->
  shr_m (Nat.iter k shr_1 mrs) = shr_m mrs / 2 ^ Z.of_nat k
  /\ (shr_m mrs mod 2 ^ Z.of_nat k = 0 -> no_remainder mrs = true ->
      no_remainder (Nat.iter k shr_1 mrs) = true).
Proof.
  intros Hm. induction k as [|k [IHm IHe]].
  - cbn. rewrite Z.div_1_r. auto.
  - rewrite Nat.iter_succ.
    assert (H0 : 0 <= shr_m (Nat.iter k shr_1 mrs)).
    { rewrite IHm. apply Z.div_pos; [lia|]. apply Z.pow_pos_nonneg; lia. }
    destruct (shr_1_spec _ H0) as [H1 H2].
    rewrite Nat2Z.inj_succ, Z.pow_succ_r by lia.
    assert (Hp : 0 < 2 ^ Z.of_nat k) by (apply Z.pow_pos_nonneg; lia).
    split.
    + rewrite H1, IHm, Z.div_div by lia. f_equal. lia.
    + intros Hmod Hex.
      assert (Hk : shr_m mrs mod 2 ^ Z.of_nat k = 0).
      { apply Z.mod_divide in Hmod; [|lia]. apply Z.mod_divide; [lia|].
        destruct Hmod as [q Hq]. exists (q * 2). lia. }
      apply H2; [|now apply IHe].
      rewrite IHm.
      apply Z.mod_divide in Hmod; [|lia]. destruct Hmod as [q Hq].
      rewrite Hq.
      replace (q * (2 * 2 ^ Z.of_nat k)) with (q * 2 * 2 ^ Z.of_nat k) by lia.
      rewrite Z.div_mul by lia. apply Z.mod_divide; [lia|]. now exists q.
Qed.

Lemma no_remainder_loc (mrs : shr_record) :
  no_remainder mrs = true <-> loc_of_shr_record mrs = loc_Exact.
Proof. destruct mrs as [m [|] [|]]; cbn; split; congruence. Qed.

Lemma shr_record_of_loc_m (m : Z) (l : location) : shr_m (shr_record_of_loc m l) = m.
Proof. destruct l as [|[| |]]; reflexivity. Qed.

Lemma shr_fexp_spec (m e : Z) (l : location) :
  0 <= m ->
  let e1 := round_exp m e in
  snd (shr_fexp prec emax m e l) = e1
  /\ shr_m (fst (shr_fexp prec emax m e l)) = m / 2 ^ (e1 - e)
  /\ (m mod 2 ^ (e1 - e) = 0 -> l = loc_Exact ->
      loc_of_shr_record (fst (shr_fexp prec emax m e l)) = loc_Exact).
Proof.
  intros Hm e1. unfold shr_fexp, shr. rewrite fexp_fexp64.
  destruct (fexp64 (Zdigits2 m + e) - e) as [|p|p] eqn:Hn; cbn [fst snd].
  - assert (He : e1 - e = 0) by (unfold e1, round_exp; lia).
    rewrite He, Z.pow_0_r, Z.div_1_r, shr_record_of_loc_m.
    repeat split; [unfold e1, round_exp; lia|]. now intros _ ->.
  - assert (He : e1 - e = Zpos p) by (unfold e1, round_exp; lia).
    rewrite He, iter_pos_nat.
    destruct (shr_iter (Pos.to_nat p) (shr_record_of_loc m l)) as [H1 H2];
      [now rewrite shr_record_of_loc_m|].
    rewrite positive_nat_Z, shr_record_of_loc_m in *.
    repeat split; [lia | exact H1 |].
    intros Hmod ->. apply no_remainder_loc, H2; [exact Hmod | reflexivity].
  - assert (He : e1 - e = 0) by (unfold e1, round_exp; lia).
    rewrite He, Z.pow_0_r, Z.div_1_r, shr_record_of_loc_m.
    repeat split; [unfold e1, round_exp; lia|]. now intros _ ->.
Qed.

Lemma binary_round_aux_spec (m e : Z) (l : location) :
  0 <= m ->
  let e1 := round_exp m e in
  let m1 := m / 2 ^ (e1 - e) in
  exists m2,
    (m2 = m1 \/ (m2 = m1 + 1 /\ ~ (m mod 2 ^ (e1 - e) = 0 /\ l = loc_Exact)))
    /\ binary_round_aux prec emax false m e l
       = pack (m2 / 2 ^ (round_exp m2 e1 - e1)) (round_exp m2 e1).
Proof.
  intros Hm e1 m1. unfold binary_round_aux.
  destruct (shr_fexp_spec m e l Hm) as (He & Hs & Hl).
  destruct (shr_fexp prec emax m e l) as [mrs e'] eqn:Hshr. cbn [fst snd] in *.
  fold e1 in He, Hs, Hl. fold m1 in Hs. subst e'.
  set (m2 := round_nearest_even (shr_m mrs) (loc_of_shr_record mrs)).
  assert (H1 : 0 <= m1).
  { apply Z.div_pos; [lia|]. apply Z.pow_pos_nonneg; [lia|].
    unfold e1, round_exp. lia. }
  assert (H2 : m2 = m1 \/ (m2 = m1 + 1 /\ ~ (m mod 2 ^ (e1 - e) = 0 /\ l = loc_Exact))).
  { unfold m2. rewrite Hs.
    destruct (loc_of_shr_record mrs) as [|[| |]] eqn:Hloc; cbn [round_nearest_even];
      try (left; reflexivity).
    - destruct (Z.even m1); [left; reflexivity | right].
      split; [reflexivity|]. intros [Hmod Hex]. discriminate (Hl Hmod Hex).
    - right. split; [reflexivity|]. intros [Hmod Hex]. discriminate (Hl Hmod Hex). }
  exists m2. split; [exact H2|].
  assert (H0 : 0 <= m2) by lia.
  destruct (shr_fexp_spec m2 e1 loc_Exact H0) as (He2 & Hs2 & _).
  destruct (shr_fexp prec emax m2 e1 loc_Exact) as [mrs2 e2]. cbn [fst snd] in *.
  subst e2. rewrite Hs2. reflexivity.
Qed.

(** *** Rounding keeps the order *)

Lemma pow2_pos (a : Z) : 0 <= a -> 0 < 2 ^ a.
Proof. intros. apply Z.pow_pos_nonneg; lia. Qed.

Lemma pow2_split (a b : Z) : 0 <= a -> 0 <= b -> 2 ^ (a + b) = 2 ^ a * 2 ^ b.
Proof. intros. apply Z.pow_add_r; assumption. Qed.

(** A representable number below [m * 2 ^ e] stays below it when the low
    bits of [m] are dropped.  All values are counted in units of [2 ^ s]. *)
Lemma truncation_keeps_below (m e mc ec s : Z) :
  0 < mc -> fexp64 (Zdigits2 mc + ec) = ec -> s <= ec -> s <= e ->
  mc * 2 ^ (ec - s) <= m * 2 ^ (e - s) ->
  mc * 2 ^ (ec - s) <= m / 2 ^ (round_exp m e - e) * 2 ^ (round_exp m e - s).
Proof.
  intros Hmc Hcan Hsc Hse Hle.
  assert (Hpe : 0 < 2 ^ (e - s)) by (apply pow2_pos; lia).
  assert (Hpc : 0 < 2 ^ (ec - s)) by (apply pow2_pos; lia).
  assert (Hm : 0 < m) by nia.
  set (e1 := round_exp m e).
  assert (He1 : e1 = e \/ (e < e1 /\ e1 = fexp64 (Zdigits2 m + e)))
    by (unfold e1, round_exp; lia).
  destruct He1 as [-> | [Hlt He1]].
  - rewrite Z.sub_diag, Z.pow_0_r, Z.div_1_r. exact Hle.
  - destruct (Zdigits2_bounds m Hm) as (Hdm & Hmlo & Hmhi).
    destruct (Zdigits2_bounds mc Hmc) as (Hdc & Hclo & Hchi).
    set (dm := Zdigits2 m) in *. set (dc := Zdigits2 mc) in *.
    assert (Hn : 0 < 2 ^ (e1 - e)) by (apply pow2_pos; lia).
    assert (Hsplit : 2 ^ (e1 - s) = 2 ^ (e1 - e) * 2 ^ (e - s)).
    { rewrite <- pow2_split by lia. f_equal. lia. }
    assert (HA : dc + ec <= dm + e).
    { assert (H1 : 2 ^ (dc - 1 + (ec - s)) <= mc * 2 ^ (ec - s)).
      { rewrite pow2_split by lia. nia. }
      assert (H2 : m * 2 ^ (e - s) < 2 ^ (dm + (e - s))).
      { rewrite pow2_split by lia. nia. }
      assert (H3 : 2 ^ (dc - 1 + (ec - s)) < 2 ^ (dm + (e - s))) by lia.
      apply Z.pow_lt_mono_r_iff in H3; lia. }
    assert (Hcase : dc + ec = dm + e \/ dc + ec <= dm + e - 1) by lia.
    destruct Hcase as [Heq | Hlow].
    + assert (Hec : ec = e1) by (rewrite He1, <- Heq; symmetry; exact Hcan).
      subst ec. rewrite Hsplit in Hle |- *.
      assert (Hq : mc <= m / 2 ^ (e1 - e)).
      { apply Z.div_le_lower_bound; [lia|]. nia. }
      nia.
    + assert (Hk : 0 <= dm - 1 - (e1 - e)) by (unfold fexp64 in *; lia).
      assert (Hq : 2 ^ (dm - 1 - (e1 - e)) <= m / 2 ^ (e1 - e)).
      { apply Z.div_le_lower_bound; [lia|].
        rewrite <- pow2_split by lia.
        replace (e1 - e + (dm - 1 - (e1 - e))) with (dm - 1) by lia. exact Hmlo. }
      assert (H1 : mc * 2 ^ (ec - s) < 2 ^ (dc + (ec - s))).
      { rewrite pow2_split by lia. nia. }
      assert (H2 : 2 ^ (dc + (ec - s)) <= 2 ^ (dm - 1 - (e1 - e) + (e1 - s))).
      { apply Z.pow_le_mono_r; lia. }
      rewrite (pow2_split (dm - 1 - (e1 - e)) (e1 - s)) in H2 by lia.
      assert (H3 : 2 ^ (dm - 1 - (e1 - e)) * 2 ^ (e1 - s)
                   <= m / 2 ^ (e1 - e) * 2 ^ (e1 - s)).
      { apply Z.mul_le_mono_nonneg_r; [|exact Hq].
        apply Z.lt_le_incl, pow2_pos. lia. }
      lia.
Qed.

Lemma truncation_is_below (m e s : Z) :
  0 <= m -> s <= e ->
  m / 2 ^ (round_exp m e - e) * 2 ^ (round_exp m e - s) <= m * 2 ^ (e - s).
Proof.
  intros Hm Hse. set (e1 := round_exp m e).
  assert (He1 : e <= e1) by (unfold e1, round_exp; lia).
  assert (Hn : 0 < 2 ^ (e1 - e)) by (apply pow2_pos; lia).
  assert (Hpe : 0 < 2 ^ (e - s)) by (apply pow2_pos; lia).
  replace (e1 - s) with (e1 - e + (e - s)) by lia.
  rewrite pow2_split by lia.
  pose proof (Z.mul_div_le m (2 ^ (e1 - e)) Hn). nia.
Qed.

(** The two bounds on a rounded value: it stays above every representable
    number below the exact value, and below every multiple of its unit
    above the exact value. *)
Lemma binary_round_aux_bounds (m e : Z) (l : location) (s : Z) :
  0 <= m -> s <= e ->
  exists m3 e3,
    binary_round_aux prec emax false m e l = pack m3 e3
    /\ 0 <= m3 /\ e <= e3
    /\ (forall mc ec,
          0 < mc -> fexp64 (Zdigits2 mc + ec) = ec -> s <= ec ->
          mc * 2 ^ (ec - s) <= m * 2 ^ (e - s) ->
          mc * 2 ^ (ec - s) <= m3 * 2 ^ (e3 - s))
    /\ (forall K,
          m * 2 ^ (e - s) <= K ->
          (l <> loc_Exact -> m * 2 ^ (e - s) < K) ->
          (2 ^ (round_exp m e - s) | K) ->
          m3 * 2 ^ (e3 - s) <= K).
Proof.
  intros Hm Hse.
  destruct (binary_round_aux_spec m e l Hm) as (m2 & Hm2 & Heq).
  set (e1 := round_exp m e) in *. set (m1 := m / 2 ^ (e1 - e)) in *.
  assert (He1 : e <= e1) by (unfold e1, round_exp; lia).
  assert (Hn : 0 < 2 ^ (e1 - e)) by (apply pow2_pos; lia).
  assert (H1 : 0 <= m1) by (apply Z.div_pos; lia).
  assert (H2 : 0 <= m2 /\ m1 <= m2) by lia.
  set (e2 := round_exp m2 e1) in *.
  assert (He2 : e1 <= e2) by (unfold e2, round_exp; lia).
  assert (Hn2 : 0 < 2 ^ (e2 - e1)) by (apply pow2_pos; lia).
  assert (Hp1 : 0 < 2 ^ (e1 - s)) by (apply pow2_pos; lia).
  exists (m2 / 2 ^ (e2 - e1)), e2. split; [exact Heq|].
  split; [apply Z.div_pos; lia|]. split; [lia|]. split.
  - intros mc ec Hmc Hcan Hsc Hle.
    apply truncation_keeps_below; try assumption; try lia.
    apply Z.le_trans with (m1 * 2 ^ (e1 - s)); [|nia].
    apply truncation_keeps_below; assumption.
  - intros K HK Hinexact [q Hq].
    apply Z.le_trans with (m2 * 2 ^ (e1 - s));
      [apply truncation_is_below; lia|].
    pose proof (truncation_is_below m e s Hm Hse) as Hbelow.
    fold e1 in Hbelow. fold m1 in Hbelow.
    destruct Hm2 as [-> | [-> Hnot]]; [lia|].
    assert (Hstrict : m1 * 2 ^ (e1 - s) < K).
    { destruct (Z.eq_dec (m mod 2 ^ (e1 - e)) 0) as [Hmod | Hmod].
      - assert (l <> loc_Exact) by (intros ->; apply Hnot; split; auto).
        specialize (Hinexact H). lia.
      - assert (Hlt : m1 * 2 ^ (e1 - e) < m).
        { pose proof (Z.div_mod m (2 ^ (e1 - e)) ltac:(lia)) as Hdm.
          pose proof (Z.mod_pos_bound m (2 ^ (e1 - e)) Hn). fold m1 in Hdm. lia. }
        assert (Hpe : 0 < 2 ^ (e - s)) by (apply pow2_pos; lia).
        assert (Hsplit : 2 ^ (e1 - s) = 2 ^ (e1 - e) * 2 ^ (e - s)).
        { rewrite <- pow2_split by lia. f_equal. lia. }
        rewrite Hsplit. nia. }
    subst K.
    assert (m1 < q) by (apply Z.mul_lt_mono_pos_r with (2 ^ (e1 - s)); lia).
    apply Z.mul_le_mono_nonneg_r; lia.
Qed.

(** *** The operations on non negative numbers below [2 ^ 53] *)

Lemma valid_finite (s : bool) (m : positive) (e : Z) :
  valid_binary (S754_finite s m e) = true ->
  fexp64 (Zdigits2 (Zpos m) + e) = e /\ -1074 <= e <= 971.
Proof.
  cbn [SpecFloat.valid_binary]. unfold bounded, canonical_mantissa.
  rewrite fexp_fexp64. intros H.
  apply andb_prop in H as [Hc Hb].
  apply Z.eqb_eq in Hc. apply Z.leb_le in Hb.
  change (emax - prec) with 971 in Hb. cbn [Zdigits2].
  split; [exact Hc|]. unfold fexp64 in Hc. lia.
Qed.

(** A positive number of at most [d] digits at a representable exponent. *)
Lemma digits_of_bound (m e d : Z) :
  0 < m -> -1074 <= e -> m * 2 ^ (e + 1074) < 2 ^ (d + 1074) ->
  Zdigits2 m + e <= d.
Proof.
  intros Hm He Hlt.
  destruct (Zdigits2_bounds m Hm) as (Hd & Hlo & _).
  assert (Hp : 0 < 2 ^ (e + 1074)) by (apply pow2_pos; lia).
  assert (H1 : 2 ^ (Zdigits2 m - 1 + (e + 1074)) <= m * 2 ^ (e + 1074)).
  { rewrite pow2_split by lia. apply Z.mul_le_mono_nonneg_r; lia. }
  assert (H2 : 2 ^ (Zdigits2 m - 1 + (e + 1074)) < 2 ^ (d + 1074)) by lia.
  apply Z.pow_lt_mono_r_iff in H2; [lia | lia |].
  destruct (Z.le_gt_cases 0 (d + 1074)) as [|Hneg]; [assumption|].
  rewrite (Z.pow_neg_r 2 (d + 1074)) in H2 by lia.
  assert (0 < 2 ^ (Zdigits2 m - 1 + (e + 1074))) by (apply pow2_pos; lia). lia.
Qed.

Lemma scaled_bound (K : Z) : K < 2 ^ 53 -> K * 2 ^ 1074 < 2 ^ (53 + 1074).
Proof.
  intros HK. rewrite (pow2_split 53 1074) by lia.
  apply Z.mul_lt_mono_pos_r; [apply pow2_pos; lia | exact HK].
Qed.

(** A valid float below [2 ^ 53] has no positive exponent. *)
Lemma below_exponent (K : Z) (m : positive) (e : Z) :
  K < 2 ^ 53 ->
  valid_binary (S754_finite false m e) = true ->
  Zpos m * 2 ^ (e + 1074) <= K * 2 ^ 1074 ->
  fexp64 (Zdigits2 (Zpos m) + e) = e /\ -1074 <= e <= 0.
Proof.
  intros HK Hv Hle. destruct (valid_finite _ _ _ Hv) as [Hc He].
  split; [exact Hc|].
  pose proof (scaled_bound K HK).
  assert (Hd : Zdigits2 (Zpos m) + e <= 53) by (apply digits_of_bound; lia).
  unfold fexp64 in Hc. lia.
Qed.

(** Rounding a number of [[0, K]], for an integer [K < 2 ^ 53]. *)
Lemma round_below (m e : Z) (l : location) (K : Z) :
  0 <= m -> -1074 <= e <= 0 -> K < 2 ^ 53 ->
  m * 2 ^ (e + 1074) <= K * 2 ^ 1074 ->
  (l <> loc_Exact -> m * 2 ^ (e + 1074) < K * 2 ^ 1074) ->
  let r := binary_round_aux prec emax false m e l in
  finite_nonneg r = true
  /\ units r <= K * 2 ^ 1074
  /\ forall mc ec,
       0 < mc -> fexp64 (Zdigits2 mc + ec) = ec -> -1074 <= ec ->
       mc * 2 ^ (ec + 1074) <= m * 2 ^ (e + 1074) ->
       mc * 2 ^ (ec + 1074) <= units r.
Proof.
  intros Hm He HK Hle Hstrict r.
  destruct (binary_round_aux_bounds m e l (-1074) Hm ltac:(lia))
    as (m3 & e3 & Heq & Hm3 & He3 & HL & HU).
  replace (e - -1074) with (e + 1074) in * by lia.
  assert (Hp : 0 < 2 ^ (e + 1074)) by (apply pow2_pos; lia).
  assert (HK0 : 0 <= K * 2 ^ 1074) by nia.
  pose proof (scaled_bound K HK) as HKs.
  assert (Hre : round_exp m e <= 0).
  { unfold round_exp. destruct (Z.eq_dec m 0) as [-> | Hm0].
    - cbn [Zdigits2]. unfold fexp64. lia.
    - assert (Zdigits2 m + e <= 53) by (apply digits_of_bound; lia).
      unfold fexp64. lia. }
  assert (Hre' : -1074 <= round_exp m e) by (unfold round_exp; lia).
  assert (Hup : m3 * 2 ^ (e3 - -1074) <= K * 2 ^ 1074).
  { apply HU; [exact Hle | exact Hstrict |].
    exists (K * 2 ^ (- round_exp m e)).
    rewrite <- Z.mul_assoc, <- pow2_split by lia. do 2 f_equal. lia. }
  replace (e3 - -1074) with (e3 + 1074) in * by lia.
  assert (Hp3 : 0 < 2 ^ (e3 + 1074)) by (apply pow2_pos; lia).
  assert (Hr : finite_nonneg r = true /\ units r = m3 * 2 ^ (e3 + 1074)).
  { unfold r. rewrite Heq. unfold pack.
    destruct m3 as [|p|p]; [cbn; split; [reflexivity | lia] | | lia].
    assert (He971 : e3 <= 971).
    { assert (2 ^ (e3 + 1074) < 2 ^ (53 + 1074)) by nia.
      apply Z.pow_lt_mono_r_iff in H; lia. }
    apply Z.leb_le in He971. rewrite He971. cbn. split; reflexivity. }
  destruct Hr as [Hfin Hu]. split; [exact Hfin|]. rewrite Hu.
  split; [exact Hup|].
  intros mc ec Hmc Hcan Hec Hc.
  specialize (HL mc ec Hmc Hcan Hec).
  replace (ec - -1074) with (ec + 1074) in HL by lia.
  replace (e3 - -1074) with (e3 + 1074) in HL by lia.
  apply HL. exact Hc.
Qed.

Lemma iter_xO (m k : positive) : Zpos (Pos.iter xO m k) = Zpos m * 2 ^ Zpos k.
Proof.
  induction k as [|k IH] using Pos.peano_ind.
  - cbn. lia.
  - rewrite Pos.iter_succ, Pos2Z.inj_xO, IH, Pos2Z.inj_succ, Z.pow_succ_r by lia. lia.
Qed.

(** [shl_align] keeps the value and lowers the exponent to [e'] at most. *)
Lemma shl_align_spec (m : positive) (e e' : Z) :
  let '(mz, ez) := shl_align m e e' in
  ez = Z.min e e' /\ Zpos mz = Zpos m * 2 ^ (e - ez).
Proof.
  unfold shl_align. destruct (e' - e) as [|d|d] eqn:Hd.
  - split; [lia|]. rewrite Z.sub_diag. lia.
  - split; [lia|]. rewrite Z.sub_diag. lia.
  - split; [lia|]. rewrite iter_xO. do 2 f_equal. lia.
Qed.

(** [float(z)] is exact for [0 < z < 2 ^ 53]. *)
Lemma of_Z_exact (z : Z) :
  0 < z < 2 ^ 53 ->
  exists m e,
    Prim2SF (Float64.of_Z z) = S754_finite false m e
    /\ -52 <= e <= 0 /\ Zpos m = z * 2 ^ (- e).
Proof.
  intros [Hz Hlt]. destruct z as [|p|p]; try lia.
  destruct (Zdigits2_bounds (Zpos p) Hz) as (Hd & Hlo & Hhi).
  assert (Hd53 : Zdigits2 (Zpos p) <= 53) by (apply Zdigits2_le; lia).
  cbn [Zdigits2] in *. set (d := Zpos (digits2_pos p)) in *.
  unfold Float64.of_Z. cbn [binary_normalize]. unfold binary_round.
  rewrite fexp_fexp64. fold d.
  assert (Hf : fexp64 (d + 0) = d - 53) by (unfold fexp64; lia).
  rewrite Hf.
  pose proof (shl_align_spec p 0 (d - 53)) as Hal.
  destruct (shl_align p 0 (d - 53)) as [mz ez]. destruct Hal as [Hez Hmz].
  assert (He : ez = d - 53) by lia. clear Hez. subst ez.
  replace (0 - (d - 53)) with (53 - d) in Hmz by lia.
  assert (Hdz : Zdigits2 (Zpos mz) = 53).
  { assert (Hp : 0 < 2 ^ (53 - d)) by (apply pow2_pos; lia).
    apply Z.le_antisymm.
    - apply Zdigits2_le; [lia|]. rewrite Hmz.
      replace 53 with (d + (53 - d)) at 2 by lia.
      rewrite pow2_split by lia. apply Z.mul_lt_mono_pos_r; assumption.
    - apply Zdigits2_ge; [lia|]. rewrite Hmz.
      replace (53 - 1) with (d - 1 + (53 - d)) by lia.
      rewrite pow2_split by lia. apply Z.mul_le_mono_nonneg_r; lia. }
  assert (Hre : round_exp (Zpos mz) (d - 53) = d - 53).
  { unfold round_exp. rewrite Hdz. unfold fexp64. lia. }
  destruct (binary_round_aux_spec (Zpos mz) (d - 53) loc_Exact ltac:(lia))
    as (m2 & Hm2 & Heq).
  rewrite Hre, Z.sub_diag, Z.pow_0_r, Z.div_1_r in Hm2.
  assert (Hm2' : m2 = Zpos mz).
  { destruct Hm2 as [-> | [_ Hnot]]; [reflexivity|].
    exfalso. apply Hnot.
    split; [apply Z.mod_1_r | reflexivity]. }
  subst m2. rewrite !Hre, Z.sub_diag, Z.pow_0_r, Z.div_1_r in Heq.
  unfold pack in Heq.
  assert (Hb : (d - 53 <=? 971) = true) by (apply Z.leb_le; lia).
  rewrite Hb in Heq. rewrite Heq.
  exists mz, (d - 53). split.
  - apply Prim2SF_SF2Prim. cbn [SpecFloat.valid_binary]. unfold bounded, canonical_mantissa.
    rewrite fexp_fexp64.
    change (Zpos (digits2_pos mz)) with (Zdigits2 (Zpos mz)). rewrite Hdz.
    apply andb_true_intro. split.
    + apply Z.eqb_eq. unfold fexp64. lia.
    + exact Hb.
  - split; [lia|]. rewrite Hmz. do 2 f_equal. lia.
Qed.

Lemma of_Z_zero : Prim2SF (Float64.of_Z 0) = S754_zero false.
Proof. unfold Float64.of_Z. cbn [binary_normalize]. now apply Prim2SF_SF2Prim. Qed.

Lemma below_zero : below 0 (Float64.of_Z 0).
Proof. unfold below. rewrite of_Z_zero. cbn. split; [reflexivity | lia]. Qed.

(** [float(a) * float(b)] is at most [a * b]. *)
Lemma mul_below (a b : Z) :
  0 < a -> 0 < b -> a * b < 2 ^ 53 ->
  below (a * b) (Float64.of_Z a * Float64.of_Z b)%float.
Proof.
  intros Ha Hb Hab.
  assert (Ha53 : a < 2 ^ 53) by nia. assert (Hb53 : b < 2 ^ 53) by nia.
  destruct (of_Z_exact a ltac:(lia)) as (ma & ea & Hxa & Hea & Hma).
  destruct (of_Z_exact b ltac:(lia)) as (mb & eb & Hxb & Heb & Hmb).
  unfold below. rewrite mul_spec, Hxa, Hxb. unfold SF64mul. cbn [SFmul xorb].
  assert (Hval : Zpos (ma * mb) * 2 ^ (ea + eb + 1074) = a * b * 2 ^ 1074).
  { rewrite Pos2Z.inj_mul, Hma, Hmb.
    replace (ea + eb + 1074) with (- (- ea) + (- (- eb) + 1074)) by lia.
    replace (2 ^ 1074) with (2 ^ (- ea + (- eb + (- (- ea) + (- (- eb) + 1074)))))
      by (f_equal; lia).
    rewrite !(pow2_split (- ea)), !(pow2_split (- eb)) by lia. ring. }
  destruct (round_below (Zpos (ma * mb)) (ea + eb) loc_Exact (a * b))
    as (Hfin & Hu & _);
    [lia | lia | lia | lia | intros H; now contradiction H |].
  split; assumption.
Qed.

Lemma new_location_inexact (n r : Z) : new_location n r <> loc_Exact -> r <> 0.
Proof.
  intros H ->. apply H. unfold new_location, new_location_even, new_location_odd.
  destruct (Z.even n); reflexivity.
Qed.

(** Dividing by [float(len)], [1 <= len], keeps a number in [[0, K]]. *)
Lemma div_below (K len : Z) (x : float) :
  below K x -> K < 2 ^ 53 -> 0 < len < 2 ^ 53 ->
  below K (x / Float64.of_Z len)%float.
Proof.
  intros [Hfin Hle] HK Hlen.
  destruct (of_Z_exact len Hlen) as (my & ey & Hy & Hey & Hmy).
  pose proof (Prim2SF_valid x) as Hv.
  unfold below. rewrite div_spec, Hy. unfold SF64div.
  destruct (Prim2SF x) as [[|]|?| |[|] mx ex] eqn:Hx; try discriminate Hfin.
  - cbn. split; [reflexivity | exact Hle].
  - cbn [units] in Hle.
    destruct (below_exponent K mx ex HK Hv Hle) as [Hcan Hex].
    cbn [SFdiv xorb]. unfold SFdiv_core_binary. rewrite fexp_fexp64.
    set (e' := Z.min (fexp64 (Zdigits2 (Zpos mx) + ex - (Zdigits2 (Zpos my) + ey)))
                     (ex - ey)).
    set (s := ex - ey - e').
    set (m' := match s with Zpos _ => Z.shiftl (Zpos mx) s | Z0 => Zpos mx | Zneg _ => 0 end).
    assert (Hp : 0 < 2 ^ (- ey)) by (apply pow2_pos; lia).
    assert (Hmy1 : 2 ^ (- ey) <= Zpos my) by nia.
    assert (Hdy : 1 <= Zdigits2 (Zpos my) + ey).
    { assert (- ey + 1 <= Zdigits2 (Zpos my)); [|lia].
      apply Zdigits2_ge; [lia|]. replace (- ey + 1 - 1) with (- ey) by lia. exact Hmy1. }
    destruct (Zdigits2_bounds (Zpos mx) ltac:(lia)) as (Hdx & _ & _).
    assert (He' : -1074 <= e' <= ex).
    { unfold e'. unfold fexp64 in *. lia. }
    assert (Hs : 0 <= s) by (unfold s, e'; lia).
    assert (Hm' : m' = Zpos mx * 2 ^ s).
    { unfold m'. destruct s as [|p|p] eqn:Hsp; [lia | | lia].
      rewrite Z.shiftl_mul_pow2 by lia. reflexivity. }
    pose proof (Z_div_mod m' (Zpos my) ltac:(lia)) as Hdiv.
    destruct (Z.div_eucl m' (Zpos my)) as [q r]. destruct Hdiv as [Hqr Hr].
    set (Xi := Zpos mx * 2 ^ (ex - e')).
    assert (HXi : m' <= Xi * Zpos my).
    { rewrite Hm'. unfold Xi, s.
      replace (ex - ey - e') with (ex - e' + - ey) by lia.
      rewrite pow2_split by lia.
      assert (0 < 2 ^ (ex - e')) by (apply pow2_pos; lia). nia. }
    assert (Hq0 : 0 <= q).
    { assert (0 <= m') by (rewrite Hm'; assert (0 < 2 ^ s) by (apply pow2_pos; lia); nia).
      nia. }
    assert (HqX : q <= Xi /\ (r <> 0 -> q < Xi)) by nia.
    assert (HXu : Xi * 2 ^ (e' + 1074) = Zpos mx * 2 ^ (ex + 1074)).
    { unfold Xi. rewrite <- Z.mul_assoc, <- pow2_split by lia. do 2 f_equal. lia. }
    assert (Hpe : 0 < 2 ^ (e' + 1074)) by (apply pow2_pos; lia).
    destruct (round_below q e' (new_location (Zpos my) r) K)
      as (Hf & Hu & _);
      [ lia | lia | lia | nia
      | intros Hl; apply new_location_inexact in Hl; nia |].
    split; assumption.
Qed.

(** Adding a non negative number does not decrease a sum that stays
    below [2 ^ 53]. *)
Lemma add_below (A B : Z) (x y : float) :
  below A x -> below B y -> A + B < 2 ^ 53 ->
  below (A + B) (x + y)%float
  /\ units (Prim2SF x) <= units (Prim2SF (x + y)%float).
Proof.
  intros [Hfx Hx] [Hfy Hy] HAB.
  pose proof (Prim2SF_valid x) as Hvx. pose proof (Prim2SF_valid y) as Hvy.
  unfold below. rewrite add_spec. unfold SF64add.
  assert (H1074 : 0 < 2 ^ 1074) by (apply pow2_pos; lia).
  destruct (Prim2SF x) as [[|]|?| |[|] mx ex]; try discriminate Hfx;
    destruct (Prim2SF y) as [[|]|?| |[|] my ey]; try discriminate Hfy;
    cbn [units] in *.
  - cbn. repeat split; lia.
  - assert (0 < 2 ^ (ey + 1074))
      by (destruct (valid_finite _ _ _ Hvy); apply pow2_pos; lia).
    cbn -[Z.pow Z.mul]. repeat split; nia.
  - cbn -[Z.pow Z.mul]. repeat split; lia.
  - assert (HA : A < 2 ^ 53 /\ B < 2 ^ 53).
    { destruct (valid_finite _ _ _ Hvx) as [_ ?].
      destruct (valid_finite _ _ _ Hvy) as [_ ?].
      assert (0 < 2 ^ (ex + 1074)) by (apply pow2_pos; lia).
      assert (0 < 2 ^ (ey + 1074)) by (apply pow2_pos; lia).
      nia. }
    destruct HA as [HA HB].
    destruct (below_exponent A mx ex HA Hvx Hx) as [Hcx Hex].
    destruct (below_exponent B my ey HB Hvy Hy) as [Hcy Hey].
    cbn [SFadd cond_Zopp].
    set (ez := Z.min ex ey).
    pose proof (shl_align_spec mx ex ez) as Hax.
    pose proof (shl_align_spec my ey ez) as Hay.
    destruct (shl_align mx ex ez) as [ax ex']. destruct (shl_align my ey ez) as [ay ey'].
    destruct Hax as [-> Hax]. destruct Hay as [-> Hay]. cbn [fst].
    replace (Z.min ex ez) with ez in Hax by (unfold ez; lia).
    replace (Z.min ey ez) with ez in Hay by (unfold ez; lia).
    change (Zpos ax + Zpos ay) with (Zpos (ax + ay)).
    cbn [binary_normalize]. unfold binary_round. rewrite fexp_fexp64.
    set (et := fexp64 (Zpos (digits2_pos (ax + ay)) + ez)).
    pose proof (shl_align_spec (ax + ay) ez et) as Hal.
    destruct (shl_align (ax + ay) ez et) as [mz ez']. destruct Hal as [Hez' Hmz].
    assert (Het : -1074 <= et) by (unfold et, fexp64; lia).
    assert (Hzr : -1074 <= ez' <= 0) by (unfold ez in *; lia).
    assert (Hsum : Zpos mz * 2 ^ (ez' + 1074)
                   = Zpos mx * 2 ^ (ex + 1074) + Zpos my * 2 ^ (ey + 1074)).
    { rewrite Hmz, Pos2Z.inj_add, Hax, Hay.
      replace (ex + 1074) with (ex - ez + (ez - ez' + (ez' + 1074))) by lia.
      replace (ey + 1074) with (ey - ez + (ez - ez' + (ez' + 1074))) by lia.
      rewrite !(pow2_split (ex - ez)), !(pow2_split (ey - ez)),
        !(pow2_split (ez - ez')) by (unfold ez in *; lia).
      ring. }
    destruct (round_below (Zpos mz) ez' loc_Exact (A + B))
      as (Hf & Hu & HL);
      [lia | lia | lia | lia | intros H; now contradiction H |].
    split; [split; assumption|].
    assert (0 < 2 ^ (ey + 1074)) by (apply pow2_pos; lia).
    apply HL; lia.
Qed.

(** [int(x)] of a non negative float, from its value. *)
Lemma trunc_units (x : float) :
  finite_nonneg (Prim2SF x) = true ->
  Float64.trunc x = units (Prim2SF x) / 2 ^ 1074.
Proof.
  intros Hf. pose proof (Prim2SF_valid x) as Hv. unfold Float64.trunc.
  destruct (Prim2SF x) as [[|]|?| |[|] m e]; try discriminate Hf.
  - reflexivity.
  - destruct (valid_finite _ _ _ Hv) as [_ He]. cbn [units].
    destruct (0 <=? e) eqn:H0.
    + apply Z.leb_le in H0.
      replace (e + 1074) with (e + 1074)%Z by lia.
      rewrite (pow2_split e 1074), Z.mul_assoc, Z.div_mul by lia. reflexivity.
    + apply Z.leb_gt in H0.
      replace (2 ^ 1074) with (2 ^ (- e) * 2 ^ (e + 1074)).
      * rewrite Z.div_mul_cancel_r; [reflexivity | |];
          apply Z.neq_sym, Z.lt_neq, pow2_pos; lia.
      * rewrite <- pow2_split by lia. f_equal. lia.
Qed.

Lemma trunc_mono (x y : float) :
  finite_nonneg (Prim2SF x) = true -> finite_nonneg (Prim2SF y) = true ->
  units (Prim2SF x) <= units (Prim2SF y) ->
  Float64.trunc x <= Float64.trunc y.
Proof.
  intros Hx Hy Hle. rewrite !trunc_units by assumption.
  apply Z.div_le_mono; [apply pow2_pos; lia | exact Hle].
Qed.

(** ** Progress reporting *)

Lemma between_nil (lo hi : Z) : between lo hi [].
Proof. split; constructor. Qed.

Lemma between_app (lo mid hi : Z) (a b : list Z) :
  lo <= mid <= hi -> between lo mid a -> between mid hi b ->
  between lo hi (a ++ b).
Proof.
  intros Hm [Sa Fa] [Sb Fb]. split.
  - induction a as [|x a IH]; [exact Sb|].
    apply StronglySorted_inv in Sa as [Sa Hx].
    apply Forall_cons_iff in Fa as [Hxb Fa].
    cbn [app]. constructor; [now apply IH|].
    apply Forall_app. split; [exact Hx|].
    revert Fb. apply Forall_impl. intros y Hy. lia.
  - apply Forall_app. split.
    + revert Fa. apply Forall_impl. intros y Hy. lia.
    + revert Fb. apply Forall_impl. intros y Hy. lia.
Qed.

Lemma between_const (v : Z) (ps : list Z) :
  Forall (fun p => p = v) ps -> between v v ps.
Proof.
  induction 1 as [|x l -> _ [IHs IHf]]; [apply between_nil|].
  split; constructor; try assumption; try lia.
  revert IHf. apply Forall_impl. intros y Hy. lia.
Qed.

Lemma between_widen (lo lo' hi hi' : Z) (ps : list Z) :
  lo' <= lo -> hi <= hi' -> between lo hi ps -> between lo' hi' ps.
Proof.
  intros Hl Hh [Hs Hf]. split; [exact Hs|].
  revert Hf. apply Forall_impl. intros y Hy. lia.
Qed.

Section Progress.

Variable A : Arith.
Variable BT : BootTypes.
Variable W : World.
Variable self : Bootloader.
Variable image : list byte.
Variable G : TargetInfo.t.
Variables cur total : Z.
Variable factor : num A.

(** [good k pr]: [pr] can be the progress after [k] additions of [factor];
    the loop makes [pages] additions at most.  One more addition keeps
    the progress good and does not lower the percentage. *)
Variable good : Z -> num A -> Prop.
Variable pages : Z.

Hypothesis good_step : forall k pr,
  0 <= k < pages -> good k pr ->
  good (k + 1) (add A pr factor) /\ to_int A pr <= to_int A (add A pr factor).

(** One turn of the loop reports the progress after adding [factor], up
    to three times, and nothing below what was reported before. *)
Lemma flash_page_progress (i ctr : Z) (pr : num A) (h : list event) (k : Z) :
  0 <= k < pages -> good k pr ->
  let r := flash_page A BT W self image G cur total factor i (ctr, pr) h in
  exists pr' k',
    k <= k' <= k + 1 /\ good k' pr'
    /\ to_int A pr <= to_int A pr'
    /\ between (to_int A pr) (to_int A pr') (percents (events r))
    /\ forall c x, result r = Return (c, x) -> x = pr'.
Proof.
  intros Hk Hpr. cbv zeta.
  destruct (good_step k pr Hk Hpr) as [Hgood Hstep].
  unfold flash_page, terminate_requested, announce_write, flash_error.
  destruct (progress_cb self) eqn:Hcb.
  - exists (add A pr factor), (k + 1).
    split; [lia|]. split; [exact Hgood|]. split; [exact Hstep|].
    destruct (terminate_flashing_cb self) as [cb|]; run; split_ifs.
    all: split;
      [ apply between_widen with (lo := to_int A (add A pr factor))
                                 (hi := to_int A (add A pr factor));
        [lia | lia | apply between_const; repeat constructor]
      | intros c x Hx; try discriminate Hx; injection Hx as _ <-; reflexivity ].
  - exists pr, k. split; [lia|]. split; [exact Hpr|]. split; [lia|].
    destruct (terminate_flashing_cb self) as [cb|]; run; split_ifs.
    all: split;
      [ apply between_nil
      | intros c x Hx; try discriminate Hx; injection Hx as _ <-; reflexivity ].
Qed.

Lemma flash_pages_progress (indices : list Z) :
  forall (ctr : Z) (pr : num A) (h : list event) (k : Z),
  0 <= k -> k + Py.len indices <= pages -> good k pr ->
  let r := flash_pages A BT W self image G cur total factor indices (ctr, pr) h in
  exists pr',
    to_int A pr <= to_int A pr'
    /\ between (to_int A pr) (to_int A pr') (percents (events r))
    /\ forall c x, result r = Return (c, x) -> x = pr'.
Proof.
  induction indices as [|i rest IH]; intros ctr pr h k Hk Hlen Hpr; cbv zeta.
  - exists pr. split; [lia|]. cbn.
    split; [apply between_nil|]. intros c x [= _ <-]. reflexivity.
  - assert (Hcons : Py.len (i :: rest) = Py.len rest + 1)
      by (unfold Py.len; cbn [List.length]; lia).
    rewrite Hcons in Hlen.
    assert (Hrest : 0 <= Py.len rest) by (unfold Py.len; lia).
    cbn [flash_pages]. rewrite events_bind, result_bind.
    destruct (flash_page_progress i ctr pr h k ltac:(lia) Hpr)
      as (pr1 & k1 & Hk1 & Hg1 & Hle1 & Hb1 & Hr1).
    set (p := flash_page A BT W self image G cur total factor i (ctr, pr) h) in *.
    destruct (result p) as [[c1 x1] | e |] eqn:Hres.
    + rewrite (Hr1 c1 x1 eq_refl).
      destruct (IH c1 pr1 (h ++ events p) k1 ltac:(lia) ltac:(lia) Hg1)
        as (pr2 & Hle2 & Hb2 & Hr2).
      exists pr2. split; [lia|].
      split; [|exact Hr2].
      rewrite percents_app.
      apply between_app with (mid := to_int A pr1); [lia | assumption | assumption].
    + exists pr1. rewrite app_nil_r.
      split; [assumption | split; [assumption | intros c x Hx; discriminate Hx]].
    + exists pr1. rewrite app_nil_r.
      split; [assumption | split; [assumption | intros c x Hx; discriminate Hx]].
Qed.

Lemma flash_residual_progress (last ctr : Z) (pr : num A) (h : list event) :
  Forall (fun p => p = to_int A pr)
    (percents (events (flash_residual A BT W self G cur total last (ctr, pr) h))).
Proof.
  unfold flash_residual, announce_write, flash_error.
  run; split_ifs; repeat constructor.
Qed.

End Progress.

Lemma range_len (n : Z) : 0 <= n -> Py.len (Py.range n) = n.
Proof.
  intros Hn. unfold Py.len, Py.range.
  rewrite length_map, length_seq. lia.
Qed.

Section ProgressClaim.

Variable BT : BootTypes.
Variable W : World.
Variable self : Bootloader.
Variable artifact : FlashArtifact.t.
Variables cur total : Z.
Variable h : list event.
Variable G : TargetInfo.t.

Let image := FlashArtifact.content artifact.
Let key := from_string BT (Target.target (FlashArtifact.target artifact)).

Hypothesis target_known : cload_targets W h key = Some G.
Hypothesis page_size_pos : 0 < TargetInfo.page_size G.
Hypothesis small : 100 * (TargetInfo.page_size G + Py.len image) <= 2 ^ 53.

(** For a geometry with [0 < page_size] and an image with
    [100 * (page_size + len(image)) <= 2 ^ 53], the percentages that
    [_internal_flash] hands to the progress callback, computed in
    binary64, are non-negative integers in non-decreasing order. *)
Lemma internal_flash_progress :
  let ps := percents (events (_internal_flash Float64.arith BT W self artifact
                                cur total h)) in
  StronglySorted Z.le ps /\ Forall (fun p => 0 <= p) ps.
Proof.
  cbv zeta.
  assert (Hnonneg : forall hi l, between 0 hi l ->
            StronglySorted Z.le l /\ Forall (fun p => 0 <= p) l).
  { intros hi l [Hs Hf]. split; [exact Hs|].
    revert Hf. apply Forall_impl. intros p Hp. lia. }
  assert (Hzero : to_int Float64.arith (of_int Float64.arith 0) = 0).
  { cbn [to_int of_int Float64.arith]. unfold Float64.trunc.
    rewrite of_Z_zero. reflexivity. }
  destruct (internal_flash_shape Float64.arith BT W self artifact cur total h)
    as [(_ & _ & Hall & _)
       | (G' & pre & (Hev & _) & HG & Hlen & _ & _ & _ & Hpre)].
  - rewrite Hzero in Hall.
    apply (Hnonneg 0). now apply between_const.
  - fold key in HG. rewrite target_known in HG. injection HG as <-.
    fold image in Hlen.
    assert (Hlen' : 0 < Py.len image) by (unfold Py.len in *; lia).
    rewrite Hev, percents_app.
    unfold loop_then_residual. fold image. cbv zeta.
    rewrite events_bind, percents_app.
    set (F := 100 * TargetInfo.page_size G).
    set (factor := div Float64.arith _ _) in *.
    set (last := Z.quot _ _).
    assert (Hfactor : below F factor).
    { unfold factor. cbn [div mul hundred of_int Float64.arith].
      apply div_below; [apply mul_below; lia | unfold F; lia | lia]. }
    assert (Hlast : 0 <= last /\ last * TargetInfo.page_size G <= Py.len image - 1).
    { unfold last. rewrite Z.quot_div_nonneg by lia.
      split; [apply Z.div_pos; lia|].
      rewrite Z.mul_comm. apply Z.mul_div_le. lia. }
    assert (Hstep : forall k pr, 0 <= k < last + 1 ->
              below (k * F) pr ->
              below ((k + 1) * F) (add Float64.arith pr factor)
              /\ to_int Float64.arith pr
                 <= to_int Float64.arith (add Float64.arith pr factor)).
    { intros k pr Hk Hg. cbn [add to_int Float64.arith].
      assert (Hsum : k * F + F < 2 ^ 53) by (unfold F; nia).
      destruct (add_below (k * F) F pr factor Hg Hfactor Hsum) as [Hb Hu].
      split.
      - replace ((k + 1) * F) with (k * F + F) by ring. exact Hb.
      - apply trunc_mono; [apply Hg | apply Hb | exact Hu]. }
    destruct (flash_pages_progress Float64.arith BT W self image G cur total factor
                (fun k pr => below (k * F) pr) (last + 1) Hstep
                (Py.range (last + 1)) 0 (of_int Float64.arith 0) (h ++ pre) 0
                ltac:(lia) ltac:(rewrite range_len; lia) below_zero)
      as (pr' & Hle & Hb & Hr).
    set (p := flash_pages Float64.arith BT W self image G cur total factor
                (Py.range (last + 1)) (0, of_int Float64.arith 0) (h ++ pre)) in *.
    rewrite Hzero in Hb, Hle.
    apply (Hnonneg (to_int Float64.arith pr')).
    apply between_app with (mid := 0); [lia | |].
    + rewrite Hpre, Hzero.
      apply between_const. destruct (progress_cb self); repeat constructor.
    + apply between_app with (mid := to_int Float64.arith pr'); [lia | exact Hb |].
      destruct (result p) as [[c x] | e |] eqn:Hres; try apply between_nil.
      rewrite (Hr c x eq_refl).
      apply between_const, flash_residual_progress.
Qed.

End ProgressClaim.

(** C9, as stated, fails on scenario S1: the 3500-byte image in pages of
    1024 bytes is flashed successfully and the callback is handed 117. *)
Lemma progress_exceeds_100 :
  result (flash_on_cf2 s1_artifact) = Return tt
  /\ percents (events (flash_on_cf2 s1_artifact)) = [0; 29; 58; 87; 117; 117]
  /\ ~ Forall (fun p => 0 <= p <= 100) (percents (events (flash_on_cf2 s1_artifact))).
Proof.
  assert (Hp : percents (events (flash_on_cf2 s1_artifact)) = [0; 29; 58; 87; 117; 117])
    by (vm_compute; reflexivity).
  split; [vm_compute; reflexivity|]. split; [exact Hp|].
  rewrite Hp. intro H.
  repeat (apply Forall_cons_iff in H as [? H]). lia.
Qed.

(** ** Sessions, bundles and target selection *)

(** Decomposes a computation built from the monad's operations; what is
    left is each emitted event, to be checked against the predicate. *)
Create HintDb trace_lemmas.

Ltac trace_only :=
  repeat first
    [ solve [auto 2 with trace_lemmas nocore]
    | apply emits_only_ret
    | apply emits_only_raise
    | apply emits_only_ask
    | apply emits_only_emit; reflexivity
    | apply emits_only_when
    | apply emits_only_finally; [|reflexivity]
    | apply emits_only_bind; [|intros]
    | match goal with
      | |- emits_only _ (if ?b then _ else _) => destruct b
      | |- emits_only _ (match ?x with _ => _ end) => destruct x
      end
    ].

(** Closes a case of [start_bootloader]: the value returned, and either no
    success, or a recognised protocol, or the diagnostic as the last
    event. *)
Ltac start_case :=
  do 2 eexists; split; [reflexivity|]; split; [reflexivity|];
  split; [reflexivity|]; cbn [protocol_version];
  intros Hs H0 H1 H2;
  first [ discriminate Hs
        | repeat match goal with
                 | H : (_ || _) = true |- _ => apply orb_prop in H as [H | H]
                 | H : (_ =? _) = true |- _ => apply Z.eqb_eq in H
                 end; congruence
        | match goal with
          | |- exists pre, ?l = pre ++ [_] => exists (removelast l); reflexivity
          end ].

(** Peels the first computation off a sequence known to return. *)
Ltac peel H :=
  rewrite result_bind in H;
  match type of H with
  | match result ?m with _ => _ end = _ =>
      destruct (result m) eqn:?; try discriminate H
  end;
  cbv beta in H.

Section Selection.

Variable A : Arith.
Variable BT : BootTypes.
Variable W : World.


Lemma internal_flash_outside_deck_pipeline self artifact cur total :
  emits_only outside_deck_pipeline (_internal_flash A BT W self artifact cur total).
Proof.
  assert (Hpage : forall image G factor i st,
            emits_only outside_deck_pipeline
              (flash_page A BT W self image G cur total factor i st)).
  { intros. unfold flash_page, terminate_requested, announce_write, flash_error.
    trace_only. }
  assert (Hloop : forall image G factor indices st,
            emits_only outside_deck_pipeline
              (flash_pages A BT W self image G cur total factor indices st)).
  { intros image G factor indices.
    induction indices as [|i rest IH]; intro st; cbn [flash_pages]; trace_only. }
  unfold _internal_flash, flash_residual, int_div, announce_write, flash_error.
  trace_only.
Qed.

#[local] Hint Resolve internal_flash_outside_deck_pipeline : trace_lemmas.

Lemma flash_flash_outside_deck_pipeline self artifacts targets :
  emits_only outside_deck_pipeline (_flash_flash A BT W self artifacts targets).
Proof.
  unfold _flash_flash. generalize (Py.len artifacts) as total. generalize 0 as i.
  induction artifacts as [|a rest IH]; intros i total; cbn [flash_each]; trace_only.
Qed.

Lemma read_artifacts_silent members files h :
  events (read_artifacts members files h) = [].
Proof.
  revert h. induction files as [|[file target] rest IH]; intro h; [reflexivity|].
  cbn [read_artifacts]. destruct (lookup file members); [|reflexivity].
  rewrite events_bind, IH. cbn. destruct (result _); reflexivity.
Qed.

(** Reading the bundle talks to nothing. *)
Lemma load_artifacts_silent filename targets h :
  events (load_artifacts W filename targets h) = [].
Proof.
  unfold load_artifacts. rewrite events_bind.
  assert (H0 : events (_get_flash_artifacts_from_zip W filename h) = []).
  { unfold _get_flash_artifacts_from_zip.
    destruct (fs W filename) as [[c | raw [| | m] members]|]; try reflexivity.
    destruct (negb (version m =? 1)); [reflexivity | apply read_artifacts_silent]. }
  rewrite H0. cbn [app].
  destruct (result _) as [arts | |]; try reflexivity.
  destruct (Py.len arts =? 0); [|reflexivity].
  destruct targets as [|t [|t' ts]]; try reflexivity.
  unfold read_file. destruct (fs W filename) as [[c | raw m members]|]; reflexivity.
Qed.

Lemma flash_unfold fuel self filename targets cf h :
  flash A BT W fuel self filename targets cf h
  = match result (load_artifacts W filename targets h) with
    | Return artifacts => flash_loaded A BT W fuel self targets cf artifacts h
    | Raise x => ([], Raise x)
    | OutOfFuel => ([], OutOfFuel)
    end.
Proof.
  unfold flash, bind.
  pose proof (load_artifacts_silent filename targets h) as He.
  unfold events, result in *.
  destruct (load_artifacts W filename targets h) as [e [arts | x |]];
    cbn [fst snd] in *; subst e; try reflexivity.
  rewrite app_nil_r.
  destruct (flash_loaded A BT W fuel self targets cf arts h); reflexivity.
Qed.

(** [start_bootloader] never raises: it returns whether the bootloader
    answered, with [warm_booted] as requested; and when it returns success
    for a protocol code that is none of the three, what it did last was to
    print the diagnostic. *)
Lemma start_bootloader_spec self warm cf h :
  let r := start_bootloader BT W self warm cf h in
  exists started self',
    result r = Return (started, self')
    /\ warm_booted self' = warm
    /\ progress_cb self' = progress_cb self
    /\ (started = true ->
        protocol_version self' <> CF1_PROTO_VER_0 BT ->
        protocol_version self' <> CF1_PROTO_VER_1 BT ->
        protocol_version self' <> CF2_PROTO_VER BT ->
        exists pre,
          events r
          = pre ++ [Print (cat ["Bootloader protocol 0x";
                                Py.hex_X (protocol_version self');
                                " not supported!"])]).
Proof.
  cbv zeta. unfold start_bootloader.
  destruct warm.
  - destruct cf as [[|]|]; run; split_ifs; start_case.
  - run. destruct (cload_link W h); run.
    + split_ifs; start_case.
    + match goal with
      | |- context [scan_for_bootloader W ?x] =>
          destruct (scan_for_bootloader W x) as [[|c u]|]
      end; run; split_ifs; start_case.
Qed.

Lemma deck_targets_in_scope (targets : list Target.t) :
  targets = [] \/ (exists t, In t targets /\ Target.platform t = "deck") ->
  (Py.len targets =? 0)
  || (Py.len (filter (fun t => String.eqb (Target.platform t) "deck") targets) >? 0)
  = true.
Proof.
  intros [-> | (t & Hin & Hp)]; [reflexivity|].
  apply orb_true_iff. right. apply Z.gtb_lt.
  assert (Hf : In t (filter (fun t => String.eqb (Target.platform t) "deck") targets)).
  { apply filter_In. split; [exact Hin|]. rewrite Hp. reflexivity. }
  unfold Py.len.
  destruct (filter _ targets); [destruct Hf | cbn [List.length]; lia].
Qed.

(** [flash] on a cold-booted session: no event of the deck pipeline, and
    the notice when the decks are in scope. *)
Lemma flash_loaded_cold fuel self targets cf artifacts h :
  warm_booted self = false ->
  let r := flash_loaded A BT W fuel self targets cf artifacts h in
  forallb outside_deck_pipeline (events r) = true
  /\ forall self', result r = Return self' ->
       targets = [] \/ (exists t, In t targets /\ Target.platform t = "deck") ->
       In (Print "Skipping updating deck on coldboot") (events r).
Proof.
  intros Hcold. cbv zeta. split.
  - revert h. change (emits_only outside_deck_pipeline
                        (flash_loaded A BT W fuel self targets cf artifacts)).
    unfold flash_loaded. rewrite Hcold.
    pose proof flash_flash_outside_deck_pipeline.
    trace_only.
  - intros self' Hret Hscope.
    apply deck_targets_in_scope in Hscope.
    unfold flash_loaded in *. cbv zeta in *.
    rewrite Hcold, Hscope in *.
    rewrite result_bind in Hret. rewrite events_bind.
    apply in_or_app. right.
    destruct (result (when _ _ h)) as [[] | x |]; [|discriminate..].
    run. destruct (progress_cb self); cbn; auto.
Qed.

(** A [flash] that returns, with a progress callback installed, has
    reported ['(n/n) Flashing done! ...'] at 100 percent as the last thing
    it did. *)
Lemma flash_loaded_completion fuel self targets cf artifacts h self' :
  result (flash_loaded A BT W fuel self targets cf artifacts h) = Return self' ->
  progress_cb self = true ->
  exists pre n msg,
    events (flash_loaded A BT W fuel self targets cf artifacts h)
    = pre ++ [Progress (cat ["("; n; "/"; n; ") Flashing done! "; msg]) 100].
Proof.
  unfold flash_loaded. cbv zeta. intros Hret Hcb.
  rewrite events_bind. peel Hret.
  rewrite events_bind.
  rewrite result_bind in Hret.
  match type of Hret with
  | match result ?m with _ => _ end = _ =>
      set (D := m) in *; destruct (result D) as [[s m'] | x |] eqn:HD;
        try discriminate Hret
  end.
  assert (Hs : progress_cb s = true).
  { subst D. revert HD.
    match goal with
    | |- result ((if ?c then _ else _) _) = _ -> _ =>
        destruct c; [destruct (warm_booted self)|]
    end; intro HD; try (run; congruence).
    do 6 peel HD. rewrite result_bind in HD.
    match type of HD with
    | context [start_bootloader BT W self true cf ?h'] =>
        destruct (start_bootloader_spec self true cf h')
          as (st & s1 & Hr & _ & Hp & _);
        cbv zeta in Hr; rewrite Hr in HD
    end.
    run. injection HD as <- _. congruence. }
  rewrite Hs. run.
  eexists (_ ++ _), _, _. rewrite <- app_assoc. reflexivity.
Qed.

(** C5: the code on the example of the claim.  With
    [targets = [Target('cf2', 'stm32', 'fw')]] and a bundle holding an STM32
    and an NRF51 image for the CF2, [flash] programs both: [_flash_flash]
    does not look at [targets]. *)
Theorem selection_filter_on_example :
  let r := flash Float64.arith boottypes (device (only_file two_image_bundle) 0x10)
             0 (session true false 0x10) "fw.zip" [cf2_stm32] None [] in
  result r = Return (session true false 0x10)
  /\ flash_writes (events r) = [(0xFF, 16, 2); (0xFE, 88, 1)].
Proof. vm_compute. split; reflexivity. Qed.

(** C6, as stated, fails: a cold start on a device that answers the probe
    and advertises protocol 0x42 prints the diagnostic and returns
    success. *)
Lemma unsupported_protocol_returns_success :
  0x42 <> CF1_PROTO_VER_0 boottypes
  /\ 0x42 <> CF1_PROTO_VER_1 boottypes
  /\ 0x42 <> CF2_PROTO_VER boottypes
  /\ start_bootloader boottypes (device no_files 0x42) (session true false 0)
       false None []
     = ([ScanForBootloader; Sleep 1; OpenBootloaderUri (Some "radio://0/0/2M");
         CheckLinkAndGetInfo; Print "Bootloader protocol 0x42 not supported!"],
        Return (true, session true false 0x42)).
Proof. repeat split; try discriminate. Qed.

(** [start_bootloader] is its probe followed, when the probe succeeds, by
    the reading of the version and the dispatch on it. *)
Lemma start_bootloader_probe self warm cf h :
  let p := probe BT W self warm cf h in
  let v := cload_protocol_version W (h ++ events p) in
  start_bootloader BT W self warm cf h
  = match result p with
    | Return true =>
        (events p ++ version_dispatch BT v,
         Return (true, started_session self warm v))
    | Return false =>
        (events p, Return (false, started_session self warm (protocol_version self)))
    | Raise x => (events p, Raise x)
    | OutOfFuel => (events p, OutOfFuel)
    end.
Proof.
  cbv zeta. unfold start_bootloader, probe, version_dispatch, started_session.
  destruct warm.
  - destruct cf as [[|]|]; run; split_ifs;
      rewrite <- ?app_assoc, ?app_nil_r; reflexivity.
  - run. destruct (cload_link W h); run.
    + split_ifs; rewrite <- ?app_assoc, ?app_nil_r; reflexivity.
    + match goal with
      | |- context [scan_for_bootloader W ?x] =>
          destruct (scan_for_bootloader W x) as [[|c u]|]
      end; run; split_ifs; rewrite <- ?app_assoc, ?app_nil_r; reflexivity.
Qed.

(** C6, as amended.  When the probe of [start_bootloader] succeeds and the
    version that the device advertises is none of [CF1_PROTO_VER_0],
    [CF1_PROTO_VER_1] and [CF2_PROTO_VER], [start_bootloader] stores that
    version in [protocol_version], prints
    ["Bootloader protocol 0x.. not supported!"] as its last act and returns
    [True]: nothing is raised and the session is not aborted. *)
Theorem unsupported_protocol_is_printed self warm cf h :
  let p := probe BT W self warm cf h in
  let v := cload_protocol_version W (h ++ events p) in
  result p = Return true ->
  v <> CF1_PROTO_VER_0 BT ->
  v <> CF1_PROTO_VER_1 BT ->
  v <> CF2_PROTO_VER BT ->
  start_bootloader BT W self warm cf h
  = (events p ++ [Print (cat ["Bootloader protocol 0x"; Py.hex_X v;
                              " not supported!"])],
     Return (true, started_session self warm v)).
Proof.
  cbv zeta. intros Hprobe H0 H1 H2.
  pose proof (start_bootloader_probe self warm cf h) as Hrun.
  cbv zeta in Hrun. rewrite Hrun, Hprobe. unfold version_dispatch.
  apply Z.eqb_neq in H0, H1, H2. now rewrite H0, H1, H2.
Qed.

(** C7. A path that holds bytes which are no ZIP archive: with exactly one
    target the bytes become the single artifact, bound to that target, and
    [flash] goes on with it; with any other number of targets [flash]
    raises the bundle-format error, having done nothing. *)
Theorem raw_binary_rule fuel self filename content cf h :
  fs W filename = Some (RawFile content) ->
  (forall target,
     load_artifacts W filename [target] h
     = ([], Return [FlashArtifact.mk content target])
     /\ flash A BT W fuel self filename [target] cf h
        = flash_loaded A BT W fuel self [target] cf
            [FlashArtifact.mk content target] h)
  /\ (forall targets,
        List.length targets <> 1%nat ->
        flash A BT W fuel self filename targets cf h
        = ([], Raise (Exception "Cannot flash a .bin to more than one target!"))).
Proof.
  intros Hraw.
  assert (Hload : forall targets,
            load_artifacts W filename targets h
            = match targets with
              | [target] => ([], Return [FlashArtifact.mk content target])
              | _ => ([], Raise (Exception "Cannot flash a .bin to more than one target!"))
              end).
  { intros targets. unfold load_artifacts, _get_flash_artifacts_from_zip, read_file.
    rewrite Hraw. destruct targets as [|t [|t' ts]]; reflexivity. }
  split.
  - intros target. split; [apply Hload|].
    rewrite flash_unfold, Hload. reflexivity.
  - intros targets Hlen. rewrite flash_unfold, Hload.
    destruct targets as [|t [|t' ts]]; try reflexivity.
    now elim Hlen.
Qed.

(** C8. On a session started with [warm_boot = False], [flash] never
    enters the deck pipeline: no reset to the firmware, no enumeration of
    the decks, no deck write; and a call that completes with the decks in
    scope (no target requested, or a deck target) has printed the coldboot
    notice. *)
Theorem cold_boot_skips_decks fuel self0 cf0 h0 started self filename targets cf h :
  result (start_bootloader BT W self0 false cf0 h0) = Return (started, self) ->
  let r := flash A BT W fuel self filename targets cf h in
  forallb outside_deck_pipeline (events r) = true
  /\ forall self', result r = Return self' ->
       targets = [] \/ (exists t, In t targets /\ Target.platform t = "deck") ->
       In (Print "Skipping updating deck on coldboot") (events r).
Proof.
  intros Hstart. cbv zeta.
  destruct (start_bootloader_spec self0 false cf0 h0)
    as (started' & self1 & Hr & Hcold & _).
  rewrite Hstart in Hr. injection Hr as <- <-.
  rewrite flash_unfold.
  destruct (result (load_artifacts W filename targets h)) as [artifacts | x |].
  - apply flash_loaded_cold. exact Hcold.
  - split; [reflexivity | discriminate].
  - split; [reflexivity | discriminate].
Qed.

(** C10, as amended.  One requested target whose platform is neither the
    platform of the aircraft nor ["deck"], and a file that loads: [flash]
    returns, and all it does is its final report, which is
    ["(n/n) Flashing done! Deck update skipped."] at 100 percent when a
    progress callback is installed and an empty printed line when none is,
    [n] being the number of artifacts of the aircraft's platform; nothing
    is uploaded, programmed or written to a deck. *)
Theorem foreign_platform_is_silent_success fuel self filename target cf h artifacts :
  Target.platform target <> _get_platform_id BT self ->
  Target.platform target <> "deck" ->
  result (load_artifacts W filename [target] h) = Return artifacts ->
  let n := Py.len (filter (fun a => String.eqb (Target.platform (FlashArtifact.target a))
                                               (_get_platform_id BT self))
                          artifacts) in
  let r := flash A BT W fuel self filename [target] cf h in
  r = ([if progress_cb self
        then Progress (cat ["("; Py.str n; "/"; Py.str n;
                            ") Flashing done! Deck update skipped."]) 100
        else Print ""],
       Return self)
  /\ forallb (fun e => negb (is_device_write e)) (events r) = true.
Proof.
  intros Hplat Hdeck Hload. cbv zeta.
  apply String.eqb_neq in Hplat, Hdeck.
  rewrite flash_unfold, Hload.
  unfold flash_loaded. cbv zeta. cbn [filter].
  rewrite Hplat, Hdeck.
  unfold bind, when, ret, emit. cbn.
  destruct (progress_cb self); split; reflexivity.
Qed.

End Selection.

Lemma raw_binary_rule_witness :
  flash Float64.arith boottypes (device (only_file (RawFile (zeros 2048))) 0x10)
    0 (session true false 0x10) "fw.zip" [cf2_stm32; cf2_nrf51] None []
  = ([], Raise (Exception "Cannot flash a .bin to more than one target!")).
Proof.
  apply (raw_binary_rule Float64.arith boottypes
           (device (only_file (RawFile (zeros 2048))) 0x10) 0
           (session true false 0x10) "fw.zip" (zeros 2048) None [] eq_refl).
  cbn. lia.
Defined.

Lemma cold_boot_skips_decks_witness :
  let r := flash Float64.arith boottypes (device (only_file two_image_bundle) 0x10)
             0 (session true false 0x10) "fw.zip" [] None [] in
  forallb outside_deck_pipeline (events r) = true
  /\ In (Print "Skipping updating deck on coldboot") (events r).
Proof.
  cbv zeta.
  destruct (cold_boot_skips_decks Float64.arith boottypes
              (device (only_file two_image_bundle) 0x10) 0
              (session true true 0) None [] true (session true false 0x10)
              "fw.zip" [] None [] eq_refl) as [Hnone Hnotice].
  split; [exact Hnone|].
  apply (Hnotice (session true false 0x10)).
  - vm_compute. reflexivity.
  - left. reflexivity.
Defined.

Lemma unsupported_protocol_is_printed_witness :
  start_bootloader boottypes (device no_files 0x42) (session true false 0)
    true (Some true) []
  = ([CfCloseLink; OpenBootloaderUri (Some "radio://0/0/2M");
      ResetToBootloader 0xFE; CheckLinkAndGetInfo;
      Print "Bootloader protocol 0x42 not supported!"],
     Return (true, session true true 0x42)).
Proof.
  apply (unsupported_protocol_is_printed boottypes (device no_files 0x42)
           (session true false 0) true (Some true) []).
  - reflexivity.
  - discriminate.
  - discriminate.
  - discriminate.
Defined.

(** C10, as stated, fails twice for the target [cf1_stm32] on a CF2.  In
    the default session, which has no progress callback, [flash] returns
    having printed an empty line: no ['Flashing done'] is reported at 100
    percent.  And when the file does not exist [flash] does not return: it
    raises [FileNotFoundError]. *)
Lemma foreign_platform_without_callback :
  Target.platform cf1_stm32 <> _get_platform_id boottypes (session false false 0x10)
  /\ Target.platform cf1_stm32 <> "deck"
  /\ flash Float64.arith boottypes (device (only_file two_image_bundle) 0x10)
       0 (session false false 0x10) "fw.zip" [cf1_stm32] None []
     = ([Print ""], Return (session false false 0x10))
  /\ flash Float64.arith boottypes (device no_files 0x10)
       0 (session true false 0x10) "fw.zip" [cf1_stm32] None []
     = ([], Raise (FileNotFoundError "fw.zip")).
Proof.
  split; [discriminate|]. split; [discriminate|].
  split; vm_compute; reflexivity.
Defined.

Lemma foreign_platform_is_silent_success_witness :
  flash Float64.arith boottypes (device (only_file two_image_bundle) 0x10)
    0 (session true false 0x10) "fw.zip" [cf1_stm32] None []
  = ([Progress "(2/2) Flashing done! Deck update skipped." 100],
     Return (session true false 0x10)).
Proof.
  apply (foreign_platform_is_silent_success Float64.arith boottypes
           (device (only_file two_image_bundle) 0x10) 0 (session true false 0x10)
           "fw.zip" cf1_stm32 None []
           [FlashArtifact.mk (zeros 2048) cf2_stm32;
            FlashArtifact.mk (zeros 1024) cf2_nrf51]).
  - vm_compute. discriminate.
  - vm_compute. discriminate.
  - vm_compute. reflexivity.
Defined.

(** C9, as amended.  The percentages that the flashing engine hands to the
    progress callback for one image, computed in binary64 as the code
    computes them, are non-negative integers in non-decreasing order, for
    a geometry with [0 < page_size] and an image with
    [100 * (page_size + len(image)) <= 2 ^ 53]; and a [flash] that returns
    with a progress callback installed has reported
    ['(n/n) Flashing done! ...'] at 100 percent as the last thing it
    did. *)
Theorem progress_nondecreasing (BT : BootTypes) (W : World) (self : Bootloader) :
  (forall artifact cur total h G,
     cload_targets W h
       (from_string BT (Target.target (FlashArtifact.target artifact))) = Some G ->
     0 < TargetInfo.page_size G ->
     100 * (TargetInfo.page_size G + Py.len (FlashArtifact.content artifact))
       <= 2 ^ 53 ->
     let ps := percents (events (_internal_flash Float64.arith BT W self artifact
                                   cur total h)) in
     StronglySorted Z.le ps /\ Forall (fun p => 0 <= p) ps)
  /\ (forall fuel filename targets cf h self',
        result (flash Float64.arith BT W fuel self filename targets cf h)
          = Return self' ->
        progress_cb self = true ->
        exists pre n msg,
          events (flash Float64.arith BT W fuel self filename targets cf h)
          = pre ++ [Progress (cat ["("; n; "/"; n; ") Flashing done! "; msg]) 100]).
Proof.
  split.
  - intros artifact cur total h G HG Hps Hsmall.
    exact (internal_flash_progress BT W self artifact cur total h G HG Hps Hsmall).
  - intros fuel filename targets cf h self' Hret Hcb.
    rewrite flash_unfold in *.
    destruct (result (load_artifacts W filename targets h)) as [artifacts | x |];
      try discriminate Hret.
    eapply flash_loaded_completion; eassumption.
Qed.

Lemma progress_nondecreasing_witness :
  StronglySorted Z.le (percents (events (flash_on_cf2 s1_artifact)))
  /\ Forall (fun p => 0 <= p) (percents (events (flash_on_cf2 s1_artifact))).
Proof.
  apply (proj1 (progress_nondecreasing boottypes (device no_files 0x10)
                  (session true false 0x10))
               s1_artifact 1 1 [] stm32_geometry).
  - reflexivity.
  - reflexivity.
  - vm_compute. discriminate.
Defined.

(** ** The end-to-end scenarios of the specification *)

Example scenario_s1 :
  uploads (events (flash_on_cf2 s1_artifact)) = 4
  /\ flash_writes (events (flash_on_cf2 s1_artifact)) = [(0xFF, 16, 4)].
Proof. vm_compute. split; reflexivity. Qed.

Example scenario_s2 :
  uploads (events (flash_on_cf2 s2_artifact)) = 10
  /\ flash_writes (events (flash_on_cf2 s2_artifact)) = [(0xFF, 16, 10)].
Proof. vm_compute. split; reflexivity. Qed.

Example scenario_s3 :
  flash_writes (events (flash_on_cf2 s3_artifact)) = [(0xFF, 16, 10); (0xFF, 26, 1)].
Proof. vm_compute. reflexivity. Qed.

Example scenario_s4 :
  flash_on_cf2 s4_artifact
  = ([Progress "Firmware (1/1) Starting..." 0;
      Progress "Error: Not enough space to flash the image file." 0],
     Raise (Exception "Not enough space to flash the image file")).
Proof. vm_compute. reflexivity. Qed.

Example scenario_s5 :
  let r := flash Float64.arith boottypes (device (only_file deck_bundle) 0x10)
             0 (session false false 0x10) "fw.zip" [] None [] in
  flash_writes (events r) = [(0xFF, 16, 2)]
  /\ In (Print "Skipping updating deck on coldboot") (events r)
  /\ forallb outside_deck_pipeline (events r) = true.
Proof.
  vm_compute. split; [reflexivity | split; [| reflexivity]].
  repeat first [left; reflexivity | right].
Qed.

Example scenario_s6 :
  flash Float64.arith boottypes (device (only_file version_2_bundle) 0x10)
    0 (session true false 0x10) "fw.zip" [] None []
  = ([], Raise (Exception "Wrong manifest version")).
Proof. vm_compute. reflexivity. Qed.

(** * Further properties of the code

    ** The data uploaded by the flashing engine *)

Lemma firstn_firstn_skipn {T} (n m : nat) (l : list T) :
  firstn n l ++ firstn m (skipn n l) = firstn (n + m) l.
Proof.
  revert l; induction n as [|n IH]; intros [|x l]; cbn; try reflexivity.
  - now rewrite firstn_nil.
  - now rewrite IH.
Qed.

Lemma uploaded_app (a b : list event) : uploaded (a ++ b) = uploaded a ++ uploaded b.
Proof.
  induction a as [|e a IH]; [reflexivity|].
  destruct e; cbn [app uploaded]; rewrite ?IH; try reflexivity.
  now rewrite app_assoc.
Qed.

Lemma polls_app (a b : list event) : polls (a ++ b) = polls a + polls b.
Proof.
  induction a as [|e a IH]; [reflexivity|].
  destruct e; cbn [app polls]; rewrite ?IH; lia.
Qed.

(** The slice that the loop uploads for page [i] (lines 300-306) is the
    [i]-th run of [page_size] bytes of the image, the last one shorter. *)
Lemma page_slice {T} (image : list T) (page_size i : Z) :
  0 < page_size -> 0 <= i ->
  (if (i + 1) * page_size >? Py.len image
   then Py.slice_from image (i * page_size)
   else Py.slice image (i * page_size) ((i + 1) * page_size))
  = firstn (Z.to_nat page_size) (skipn (Z.to_nat (i * page_size)) image).
Proof.
  intros Hp Hi.
  assert (Hip : 0 <= i * page_size) by nia.
  unfold Py.slice_from, Py.slice, Py.clamp, Py.len.
  set (n := List.length image).
  destruct (i * page_size <? 0) eqn:E1; [apply Z.ltb_lt in E1; lia|].
  destruct ((i + 1) * page_size <? 0) eqn:E2; [apply Z.ltb_lt in E2; nia|].
  destruct ((i + 1) * page_size >? Z.of_nat n) eqn:E3.
  - apply Z.gtb_lt in E3.
    destruct (Z.le_gt_cases (Z.of_nat n) (i * page_size)) as [Hge | Hlt].
    + rewrite !skipn_all2 by (fold n; lia). now rewrite firstn_nil.
    + replace (Z.max 0 (Z.min (Z.of_nat n) (i * page_size))) with (i * page_size) by lia.
      symmetry. apply firstn_all2. rewrite length_skipn. fold n. lia.
  - rewrite Z.gtb_ltb in E3. apply Z.ltb_ge in E3.
    replace (Z.max 0 (Z.min (Z.of_nat n) (i * page_size))) with (i * page_size) by lia.
    replace (Z.max 0 (Z.min (Z.of_nat n) ((i + 1) * page_size)))
      with ((i + 1) * page_size) by lia.
    f_equal. lia.
Qed.

Section EngineData.

Variable A : Arith.
Variable BT : BootTypes.
Variable W : World.
Variable self : Bootloader.
Variable image : list byte.
Variable G : TargetInfo.t.
Variables cur total : Z.
Variable factor : num A.

Let ps := TargetInfo.page_size G.

Hypothesis page_size_pos : 0 < ps.

(** One turn of the loop uploads nothing (it was cancelled) or the slice
    of its page. *)
Lemma flash_page_uploaded (i ctr : Z) (pr : num A) (h : list event) :
  0 <= i ->
  let r := flash_page A BT W self image G cur total factor i (ctr, pr) h in
  (uploads (events r) = 0 /\ uploaded (events r) = []
   /\ forall st, result r <> Return st)
  \/ (uploads (events r) = 1
      /\ uploaded (events r)
         = firstn (Z.to_nat ps) (skipn (Z.to_nat (i * ps)) image)).
Proof.
  intros Hi. cbv zeta.
  pose proof (page_slice image ps i page_size_pos Hi) as Hslice.
  subst ps. unfold flash_page, terminate_requested, announce_write, flash_error.
  destruct ((i + 1) * TargetInfo.page_size G >? Py.len image);
    destruct (terminate_flashing_cb self) as [cb|]; run; split_ifs.
  all: try (left; repeat split; try reflexivity; intros st; discriminate).
  all: right; split; [reflexivity|]; rewrite app_nil_r; exact Hslice.
Qed.

(** Whatever the outcome, the bytes uploaded so far are the first pages of
    the image. *)
Lemma flash_pages_uploaded (n : nat) :
  forall (a : nat) (ctr : Z) (pr : num A) (h : list event),
  let r := flash_pages A BT W self image G cur total factor
             (map Z.of_nat (seq a n)) (ctr, pr) h in
  firstn (Z.to_nat (Z.of_nat a * ps)) image ++ uploaded (events r)
  = firstn (Z.to_nat ((Z.of_nat a + uploads (events r)) * ps)) image
  /\ 0 <= uploads (events r).
Proof.
  induction n as [|n IH]; intros a ctr pr h; cbv zeta.
  - cbn. rewrite app_nil_r, Z.add_0_r. split; [reflexivity | lia].
  - cbn [seq map flash_pages]. rewrite events_bind.
    destruct (flash_page_uploaded (Z.of_nat a) ctr pr h (Nat2Z.is_nonneg a))
      as [(Hu & Hd & Hres) | (Hu & Hd)].
    + destruct (result _) as [st | x |] eqn:E; [now elim (Hres st)| |];
        rewrite app_nil_r, Hu, Hd, app_nil_r, Z.add_0_r; split; (reflexivity || lia).
    + set (p := flash_page A BT W self image G cur total factor (Z.of_nat a) (ctr, pr) h) in *.
      assert (Hstep : firstn (Z.to_nat (Z.of_nat a * ps)) image ++ uploaded (events p)
                      = firstn (Z.to_nat (Z.of_nat (S a) * ps)) image).
      { rewrite Hd, firstn_firstn_skipn. f_equal. nia. }
      destruct (result p) as [[c1 p1] | x |].
      * destruct (IH (S a) c1 p1 (h ++ events p)) as [IHd IHu].
        rewrite uploaded_app, uploads_app, Hu, app_assoc, Hstep, IHd.
        split; [f_equal; f_equal; lia | lia].
      * rewrite app_nil_r, Hu, Hstep. split; [f_equal; f_equal; lia | lia].
      * rewrite app_nil_r, Hu, Hstep. split; [f_equal; f_equal; lia | lia].
Qed.

End EngineData.

Lemma uploads_nonneg (evs : list event) : 0 <= uploads evs.
Proof.
  induction evs as [|e evs IH]; [reflexivity|].
  destruct e; cbn [uploads]; lia.
Qed.

Lemma uploaded_none (evs : list event) : uploads evs = 0 -> uploaded evs = [].
Proof.
  induction evs as [|e evs IH]; [reflexivity|].
  pose proof (uploads_nonneg evs).
  destruct e; cbn [uploads uploaded]; auto. lia.
Qed.

Section UploadedImage.

Variable A : Arith.
Variable BT : BootTypes.
Variable W : World.
Variable self : Bootloader.
Variable artifact : FlashArtifact.t.
Variables cur total : Z.
Variable h : list event.
Variable G : TargetInfo.t.

Let image := FlashArtifact.content artifact.
Let key := from_string BT (Target.target (FlashArtifact.target artifact)).

Hypothesis target_known : cload_targets W h key = Some G.

(** X1. Whatever the outcome of [_internal_flash], the bytes it has
    handed to [upload_buffer], concatenated in order, are the first
    [uploads * page_size] bytes of the image; when it returns, they are the
    whole image. *)
Theorem uploaded_is_the_image :
  0 < TargetInfo.page_size G ->
  let r := _internal_flash A BT W self artifact cur total h in
  uploaded (events r)
  = firstn (Z.to_nat (uploads (events r) * TargetInfo.page_size G))
           (FlashArtifact.content artifact)
  /\ (result r = Return tt -> uploaded (events r) = FlashArtifact.content artifact).
Proof.
  intros Hps. cbv zeta. fold image.
  destruct (internal_flash_shape A BT W self artifact cur total h)
    as [(Hno & Hres & _) | (G' & pre & (Hev & Hres) & HG & Hlen & _ & _ & Hno & _)].
  - apply (no_flash_command _ (-1)) in Hno as [Hu _].
    rewrite (uploaded_none _ Hu), Hu. split; [reflexivity | contradiction].
  - fold key in HG. rewrite target_known in HG. injection HG as <-.
    fold image in Hlen.
    apply (no_flash_command _ (-1)) in Hno as [Hu _].
    rewrite Hev, uploaded_app, uploads_app, (uploaded_none _ Hu), Hu, Hres.
    cbn [app]. rewrite Z.add_0_l.
    pose proof (loop_then_residual_spec A BT W self artifact cur total G (h ++ pre))
      as [_ Hok].
    cbv zeta in Hok. fold image in Hok.
    set (lr := loop_then_residual A BT W self artifact cur total G (h ++ pre)) in *.
    assert (Hpre : uploaded (events lr)
                   = firstn (Z.to_nat (uploads (events lr) * TargetInfo.page_size G)) image).
    { subst lr. unfold loop_then_residual. fold image. cbv zeta.
      rewrite events_bind, uploaded_app, uploads_app.
      set (last := Z.quot (Py.len image - 1) (TargetInfo.page_size G)).
      set (factor := div A _ _).
      destruct (flash_pages_uploaded A BT W self image G cur total factor Hps
                  (Z.to_nat (last + 1)) 0 0 (of_int A 0) (h ++ pre)) as [Hd _].
      fold (Py.range (last + 1)) in Hd.
      set (p := flash_pages A BT W self image G cur total factor
                  (Py.range (last + 1)) (0, of_int A 0) (h ++ pre)) in *.
      cbn in Hd.
      assert (Hres0 : forall st hh,
                uploads (events (flash_residual A BT W self G cur total last st hh)) = 0).
      { intros [c x] hh.
        exact (proj1 (flash_residual_spec A BT W self G cur total last c x hh 0)). }
      destruct (result p) as [st | x |];
        rewrite ?Hres0, ?(uploaded_none _ (Hres0 _ _)), ?app_nil_r, ?Z.add_0_r;
        cbn [uploads uploaded]; rewrite ?app_nil_r, ?Z.add_0_r; exact Hd. }
    split; [exact Hpre|].
    intros Hret. rewrite Hpre.
    assert (Hlast : 0 <= Z.quot (Py.len image - 1) (TargetInfo.page_size G)).
    { apply Z.quot_pos; unfold Py.len in *; lia. }
    destruct (Hok Hret Hlast) as [Hup _]. rewrite Hup.
    apply firstn_all2.
    assert (Hl : 1 <= Py.len image) by (unfold Py.len in *; lia).
    pose proof (last_page_index _ _ Hl Hps) as Hceil.
    pose proof (ceil_div_spec (Py.len image) (TargetInfo.page_size G) Hps).
    unfold Py.len in *. nia.
Qed.

End UploadedImage.

Lemma uploaded_is_the_image_witness :
  uploaded (events (flash_on_cf2 s1_artifact)) = FlashArtifact.content s1_artifact.
Proof.
  apply (uploaded_is_the_image Float64.arith boottypes (device no_files 0x10)
           (session true false 0x10) s1_artifact 1 1 [] stm32_geometry).
  - reflexivity.
  - reflexivity.
  - vm_compute. reflexivity.
Defined.

(** ** The outcomes of the flashing engine *)

Section EngineCases.

Variable A : Arith.
Variable BT : BootTypes.
Variable W : World.
Variable self : Bootloader.
Variable artifact : FlashArtifact.t.
Variables cur total : Z.

Let image := FlashArtifact.content artifact.
Let key := from_string BT (Target.target (FlashArtifact.target artifact)).

(** What [_internal_flash] does, case by case: an unknown target, an empty
    image, an image that does not fit, or the announcement followed by the
    loop and the residual write. *)
Lemma internal_flash_cases (h : list event) :
  let r := _internal_flash A BT W self artifact cur total h in
  (cload_targets W h key = None /\ r = ([], Raise (KeyError (Py.str key))))
  \/ exists G,
       cload_targets W h key = Some G
       /\ ((Py.len image = 0 /\ r = ([], Raise ZeroDivisionError))
           \/ (1 <= Py.len image
               /\ Py.len image > (TargetInfo.flash_pages G - TargetInfo.start_page G)
                                 * TargetInfo.page_size G
               /\ result r = Raise (Exception "Not enough space to flash the image file")
               /\ forallb is_message (events r) = true)
           \/ (1 <= Py.len image
               /\ Py.len image <= (TargetInfo.flash_pages G - TargetInfo.start_page G)
                                  * TargetInfo.page_size G
               /\ TargetInfo.page_size G <> 0
               /\ r = (announcement A BT self artifact cur total G
                       ++ events (loop_then_residual A BT W self artifact cur total G
                                    (h ++ announcement A BT self artifact cur total G)),
                       result (loop_then_residual A BT W self artifact cur total G
                                 (h ++ announcement A BT self artifact cur total G))))).
Proof.
  unfold _internal_flash, loop_then_residual, announcement, int_div. fold image key.
  cbv zeta.
  unfold bind, ask, emit, ret, raise, events, result.
  cbn -[cat Py.str Py.len Z.add Z.mul Z.sub Z.gtb Z.eqb flash_pages flash_residual Py.range].
  destruct (cload_targets W h key) as [G|] eqn:HG; [|left; split; reflexivity].
  right. exists G. split; [reflexivity|].
  destruct (Py.len image =? 0) eqn:Hlen.
  { left. apply Z.eqb_eq in Hlen. split; [exact Hlen | reflexivity]. }
  apply Z.eqb_neq in Hlen.
  assert (H1 : 1 <= Py.len image) by (unfold Py.len in *; lia).
  right.
  destruct (Py.len image >? (TargetInfo.flash_pages G - TargetInfo.start_page G)
                            * TargetInfo.page_size G) eqn:Hfit.
  { left. apply Z.gtb_lt in Hfit.
    split; [exact H1|]. split; [lia|].
    destruct (progress_cb self); cbn; split; reflexivity. }
  right.
  assert (Hfit' : Py.len image <= (TargetInfo.flash_pages G - TargetInfo.start_page G)
                            * TargetInfo.page_size G).
  { rewrite Z.gtb_ltb in Hfit. apply Z.ltb_ge in Hfit. exact Hfit. }
  assert (Hps : TargetInfo.page_size G <> 0) by nia.
  apply Z.eqb_neq in Hps. rewrite Hps. apply Z.eqb_neq in Hps.
  split; [exact H1|]. split; [exact Hfit'|]. split; [exact Hps|].
  rewrite ?app_nil_r.
  destruct (progress_cb self) eqn:Hcb.
  all: rewrite <- ?app_assoc; cbn [app];
    match goal with
    | |- context [flash_pages ?a ?b ?c ?d ?e ?f ?g ?i ?j ?k ?l ?m] =>
        destruct (flash_pages a b c d e f g i j k l m) as [e1 [st | x |]]
    end; cbn [fst snd app]; try reflexivity;
    match goal with
    | |- context [flash_residual ?a ?b ?c ?d ?e ?f ?g ?i ?j ?k] =>
        destruct (flash_residual a b c d e f g i j k) as [e2 r2]
    end; reflexivity.
Qed.

End EngineCases.

(** ** Cancellation, rejected writes and addressing *)


Lemma messages_well_addressed (G : TargetInfo.t) (evs : list event) :
  forallb is_message evs = true -> Forall (well_addressed G) evs.
Proof.
  induction evs as [|e evs IH]; [constructor|].
  cbn [forallb]. intros [He Hr]%andb_prop.
  constructor; [|auto]. destruct e; cbn in He; try discriminate; exact I.
Qed.

Lemma announcement_messages A BT self artifact cur total G :
  forallb is_message (announcement A BT self artifact cur total G) = true.
Proof. unfold announcement. destruct (progress_cb self); reflexivity. Qed.

Lemma ends_rejected_app W self (h e1 e2 : list event) :
  ends_rejected W self (h ++ e1) e2 -> ends_rejected W self h (e1 ++ e2).
Proof.
  intros (pre & a & t & c & p & Hev & Hw). cbv zeta in *.
  exists (e1 ++ pre), a, t, c, p. cbv zeta.
  rewrite <- !app_assoc in *. rewrite Hev. split; [reflexivity | exact Hw].
Qed.

Lemma ends_cancelled_app cb (h e1 e2 : list event) :
  ends_cancelled cb (h ++ e1) e2 -> ends_cancelled cb h (e1 ++ e2).
Proof.
  intros [[pre Hev] Hcb]. split.
  - exists (e1 ++ pre). rewrite Hev. now rewrite app_assoc.
  - now rewrite app_assoc.
Qed.

(** Closes a case of one turn of the loop in which a write was rejected. *)
Ltac rejected_case :=
  cbv zeta; rewrite <- ?app_assoc in *; cbn [app] in *;
  match goal with
  | |- context [?l = _ ++ [WriteFlash _ 0 _ _; _]] =>
      exists (removelast (removelast l))
  end;
  do 3 eexists; cbn [removelast app];
  first [ exists 0; split; [reflexivity | assumption]
        | eexists; split; [reflexivity | assumption] ].

Section Rejection.

Variable W : World.
Variable self : Bootloader.

Lemma stops_without_write {T} (h : list event) (r : list event * outcome T) :
  forallb (fun e => negb (is_write_flash e)) (events r) = true ->
  stops_at_rejection W self h r.
Proof.
  intros Hnone pre a b t c post Hev _.
  rewrite Hev, forallb_app in Hnone. cbn in Hnone.
  rewrite andb_false_r in Hnone. discriminate Hnone.
Qed.

Lemma stops_shift {T} (h before pre : list event) (x : event)
    (post : list event) (r : list event * outcome T) :
  stops_at_rejection W self (h ++ before) r ->
  events r = pre ++ x :: post ->
  forall a b t c, x = WriteFlash a b t c ->
  write_flash W (h ++ (before ++ pre) ++ [x]) = false ->
  result r = Raise (Exception "")
  /\ exists percent,
       post = [flash_error_report self
                 (cload_error_code W (h ++ (before ++ pre) ++ [x])) percent].
Proof.
  intros Hr Hev a b t c -> Hw.
  replace (h ++ (before ++ pre) ++ [WriteFlash a b t c])
    with ((h ++ before) ++ pre ++ [WriteFlash a b t c]) in *
    by now rewrite <- !app_assoc.
  exact (Hr pre a b t c post Hev Hw).
Qed.

Lemma stops_after {T} (h before : list event) (r : list event * outcome T) :
  forallb (fun e => negb (is_write_flash e)) before = true ->
  stops_at_rejection W self (h ++ before) r ->
  stops_at_rejection W self h (before ++ events r, result r).
Proof.
  intros Hnone Hr pre a b t c post Hev Hw.
  unfold events at 1 in Hev. cbn [fst] in Hev.
  unfold result at 1. cbn [snd].
  apply app_eq_app in Hev as [l [[Hb Hp] | [Hp Hr']]].
  - destruct l as [|e l].
    + rewrite app_nil_r in Hb. subst pre. cbn [app] in Hp.
      pose proof (stops_shift h before [] _ post r Hr (eq_sym Hp)
                    a b t c eq_refl) as Hs.
      rewrite app_nil_r in Hs. apply Hs. exact Hw.
    + cbn [app] in Hp. injection Hp as <- _.
      rewrite Hb, forallb_app in Hnone. cbn in Hnone.
      rewrite andb_false_r in Hnone. discriminate Hnone.
  - subst pre.
    exact (stops_shift h before l _ post r Hr Hr' a b t c eq_refl Hw).
Qed.

Lemma stops_bind {T U} (m : M T) (k : T -> M U) (h : list event) :
  stops_at_rejection W self h (m h) ->
  (forall a, result (m h) = Return a ->
             stops_at_rejection W self (h ++ events (m h))
               (k a (h ++ events (m h)))) ->
  stops_at_rejection W self h (bind m k h).
Proof.
  intros Hm Hk pre a b t c post Hev Hw.
  rewrite events_bind in Hev. rewrite result_bind.
  destruct (result (m h)) as [x | x |] eqn:Hres.
  - apply app_eq_app in Hev as [l [[Hb Hp] | [Hp Hr']]].
    + destruct l as [|e l].
      * rewrite app_nil_r in Hb. subst pre. cbn [app] in Hp.
        pose proof (stops_shift h (events (m h)) [] _ post _ (Hk x eq_refl)
                      (eq_sym Hp) a b t c eq_refl) as Hs.
        rewrite app_nil_r in Hs. apply Hs. exact Hw.
      * cbn [app] in Hp. injection Hp as <- Hpost.
        destruct (Hm pre a b t c l Hb Hw) as [Hraise _].
        rewrite Hres in Hraise. discriminate Hraise.
    + subst pre.
      exact (stops_shift h (events (m h)) l _ post _ (Hk x eq_refl) Hr'
               a b t c eq_refl Hw).
  - rewrite app_nil_r in Hev. destruct (Hm pre a b t c post Hev Hw) as [Hr Hp].
    rewrite Hres in Hr. injection Hr as ->. split; [reflexivity | exact Hp].
  - rewrite app_nil_r in Hev. destruct (Hm pre a b t c post Hev Hw) as [Hr Hp].
    rewrite Hres in Hr. discriminate Hr.
Qed.

End Rejection.

Create HintDb stops.

(** Splits the goal [stops_at_rejection] along the binds of a computation;
    the steps that send no [write_flash] are closed. *)
Ltac stops_here :=
  repeat first
    [ apply stops_without_write; reflexivity
    | solve [auto 2 with stops nocore]
    | apply stops_bind; [|intros]
    | match goal with
      | |- stops_at_rejection _ _ _ ((if ?b then _ else _) _) => destruct b eqn:?
      | |- stops_at_rejection _ _ _ ((match ?x with _ => _ end) _) => destruct x eqn:?
      | |- stops_at_rejection _ _ _ (when ?b _ _) => destruct b eqn:?; unfold when
      end ].

Section EngineOutcomes.

Variable A : Arith.
Variable BT : BootTypes.
Variable W : World.
Variable self : Bootloader.
Variable image : list byte.
Variable G : TargetInfo.t.
Variables cur total : Z.
Variable factor : num A.

(** One turn of the loop polls the cancellation predicate, if there is
    one, before anything else, and stops there when it answers true. *)
Lemma flash_page_polls (i ctr : Z) (pr : num A) (h : list event) :
  let r := flash_page A BT W self image G cur total factor i (ctr, pr) h in
  match terminate_flashing_cb self with
  | None => polls (events r) = 0 /\ result r <> Raise terminated
  | Some cb =>
      (cb (h ++ [TerminatePoll]) = true /\ r = ([TerminatePoll], Raise terminated))
      \/ (cb (h ++ [TerminatePoll]) = false
          /\ polls (events r) = 1 /\ uploads (events r) = 1
          /\ result r <> Raise terminated)
  end.
Proof.
  cbv zeta. unfold flash_page, terminate_requested, announce_write, flash_error, terminated.
  destruct (terminate_flashing_cb self) as [cb|]; run.
  - destruct (cb (h ++ [TerminatePoll])); cbn; [left; split; reflexivity|].
    right. split; [reflexivity|]. split_ifs; repeat split; discriminate.
  - split_ifs; repeat split; discriminate.
Qed.

Lemma flash_page_rejected (i ctr : Z) (pr : num A) (h : list event) :
  let r := flash_page A BT W self image G cur total factor i (ctr, pr) h in
  result r = Raise (Exception "") -> ends_rejected W self h (events r).
Proof.
  cbv zeta.
  unfold flash_page, terminate_requested, announce_write, flash_error,
    ends_rejected, flash_error_report.
  destruct (terminate_flashing_cb self) as [cb|]; run; split_ifs;
    intros Hres; try discriminate Hres; rejected_case.
Qed.

Lemma flash_residual_outcome (last ctr : Z) (pr : num A) (h : list event) :
  let r := flash_residual A BT W self G cur total last (ctr, pr) h in
  polls (events r) = 0
  /\ result r <> Raise terminated
  /\ (result r = Raise (Exception "") -> ends_rejected W self h (events r))
  /\ Forall (well_addressed G) (events r).
Proof.
  cbv zeta.
  unfold flash_residual, announce_write, flash_error, ends_rejected,
    flash_error_report, terminated.
  run; split_ifs.
  all: split; [reflexivity|]; split; [discriminate|]; split;
    [ intros Hres; try discriminate Hres; rejected_case
    | repeat constructor ].
Qed.

(** Closes the two cases of a [write_flash] followed by the check of its
    answer. *)
Ltac checked_write :=
  let pre := fresh "pre" in
  let post := fresh "post" in
  let Hev := fresh "Hev" in
  let Hw := fresh "Hw" in
  let Hanswer := fresh "Hanswer" in
  intros pre ? ? ? ? post;
  unfold flash_error, bind, emit, ask, raise, ret, events, result,
    flash_error_report;
  cbn [fst snd app]; rewrite ?app_nil_r;
  match goal with
  | |- context [write_flash ?W ?hh] => destruct (write_flash W hh) eqn:Hanswer
  end;
  [ cbn [fst snd app]; intros Hev Hw;
    destruct pre as [|? pre]; cbn [app] in Hev;
    [ injection Hev; intros; subst; cbn [app] in Hw; congruence
    | injection Hev; intros; now destruct pre ]
  | destruct (progress_cb _); cbn [fst snd app]; intros Hev Hw;
    (destruct pre as [|? pre]; cbn [app] in Hev |- *;
     [ injection Hev; intros; subst; split; [reflexivity|];
       first [exists 0; reflexivity | eexists; reflexivity]
     | injection Hev; intros;
       match goal with
       | H : _ = pre ++ _ :: _ |- _ =>
           destruct pre as [|? pre]; cbn [app] in H;
           [ discriminate H | injection H; intros; now destruct pre ]
       end ]) ].

(** A [write_flash] followed by the check of its answer, as the loop has
    it (lines 335-348). *)
Lemma checked_write_stops {T} (a b t c : Z) (pr : num A) (st : T)
    (h : list event) :
  stops_at_rejection W self h
    ((emit (WriteFlash a b t c) ;;
      ok <- ask (write_flash W) ;;
      if ok : bool then ret st else flash_error A W self pr ;; ret st) h).
Proof. checked_write. Qed.

(** The same after the loop (lines 361-372). *)
Lemma checked_last_write_stops (a b t c : Z) (pr : num A) (h : list event) :
  stops_at_rejection W self h
    ((emit (WriteFlash a b t c) ;;
      ok <- ask (write_flash W) ;;
      if ok : bool then ret tt else flash_error A W self pr) h).
Proof. checked_write. Qed.

#[local] Hint Resolve checked_write_stops checked_last_write_stops : stops.

Lemma flash_page_stops (i ctr : Z) (pr : num A) (h : list event) :
  stops_at_rejection W self h
    (flash_page A BT W self image G cur total factor i (ctr, pr) h).
Proof.
  unfold flash_page, terminate_requested, announce_write. stops_here.
Qed.

Lemma flash_pages_stops (indices : list Z) :
  forall (ctr : Z) (pr : num A) (h : list event),
  stops_at_rejection W self h
    (flash_pages A BT W self image G cur total factor indices (ctr, pr) h).
Proof.
  induction indices as [|i rest IH]; intros ctr pr h; cbn [flash_pages].
  - now apply stops_without_write.
  - apply stops_bind; [apply flash_page_stops|]. intros [c x] _. apply IH.
Qed.

Lemma flash_residual_stops (last ctr : Z) (pr : num A) (h : list event) :
  stops_at_rejection W self h
    (flash_residual A BT W self G cur total last (ctr, pr) h).
Proof.
  unfold flash_residual, announce_write. stops_here.
Qed.

(** The loop: a rejected write or a cancellation ends the trace, and the
    predicate is polled once before each upload. *)
Lemma flash_pages_outcome (indices : list Z) :
  forall (ctr : Z) (pr : num A) (h : list event),
  let r := flash_pages A BT W self image G cur total factor indices (ctr, pr) h in
  (result r = Raise (Exception "") -> ends_rejected W self h (events r))
  /\ match terminate_flashing_cb self with
     | None => polls (events r) = 0 /\ result r <> Raise terminated
     | Some cb =>
         (result r = Raise terminated
          /\ polls (events r) = uploads (events r) + 1
          /\ ends_cancelled cb h (events r))
         \/ (result r <> Raise terminated
             /\ polls (events r) = uploads (events r))
     end.
Proof.
  induction indices as [|i rest IH]; intros ctr pr h; cbv zeta.
  - cbn. split; [discriminate|].
    destruct (terminate_flashing_cb self); [right|]; split; (discriminate || reflexivity).
  - cbn [flash_pages]. rewrite events_bind, result_bind.
    pose proof (flash_page_rejected i ctr pr h) as Hrej.
    pose proof (flash_page_polls i ctr pr h) as Hpoll.
    cbv zeta in Hrej, Hpoll.
    set (p := flash_page A BT W self image G cur total factor i (ctr, pr) h) in *.
    destruct (result p) as [[c1 p1] | x |] eqn:Hres.
    + destruct (IH c1 p1 (h ++ events p)) as [IHrej IHpoll].
      split; [intros Hr; apply ends_rejected_app; auto|].
      rewrite polls_app, uploads_app.
      destruct (terminate_flashing_cb self) as [cb|].
      * destruct Hpoll as [[_ Hp] | (_ & Hp1 & Hu1 & _)].
        { rewrite Hp in Hres. discriminate Hres. }
        destruct IHpoll as [(Ht & Hn & Hc) | (Ht & Hn)]; [left | right].
        -- split; [exact Ht|]. split; [lia | now apply ends_cancelled_app].
        -- split; [exact Ht | lia].
      * destruct Hpoll as [Hp0 _], IHpoll as [Hp1 Ht]. split; [lia | exact Ht].
    + rewrite app_nil_r. split; [exact Hrej|].
      destruct (terminate_flashing_cb self) as [cb|]; [|exact Hpoll].
      destruct Hpoll as [[Hcb Hp] | (_ & Hp1 & Hu1 & Ht)].
      * left. rewrite Hp in *. cbn in Hres. injection Hres as <-.
        split; [reflexivity|]. split; [reflexivity|]. cbn.
        split; [now exists [] | exact Hcb].
      * right. split; [exact Ht | lia].
    + rewrite app_nil_r. split; [discriminate|].
      destruct (terminate_flashing_cb self) as [cb|]; [|split; [tauto | discriminate]].
      destruct Hpoll as [[Hcb Hp] | (_ & Hp1 & Hu1 & Ht)].
      * rewrite Hp in Hres. discriminate Hres.
      * right. split; [discriminate | lia].
Qed.

(** One turn of the loop, for a page inside the image and a buffer that
    is not full: what it sends is well addressed. *)
Lemma flash_page_well_addressed (i ctr : Z) (pr : num A) (h : list event) :
  0 < TargetInfo.page_size G ->
  0 <= i -> i * TargetInfo.page_size G < Py.len image ->
  0 <= ctr < TargetInfo.buffer_pages G ->
  Forall (well_addressed G)
    (events (flash_page A BT W self image G cur total factor i (ctr, pr) h)).
Proof.
  intros Hps Hi Hin Hctr.
  pose proof (page_slice image (TargetInfo.page_size G) i Hps Hi) as Hslice.
  assert (Hlen : 1 <= Py.len (firstn (Z.to_nat (TargetInfo.page_size G))
                               (skipn (Z.to_nat (i * TargetInfo.page_size G)) image))
                 <= TargetInfo.page_size G).
  { unfold Py.len in *. rewrite length_firstn, length_skipn. lia. }
  rewrite <- Hslice in Hlen.
  unfold flash_page, terminate_requested, announce_write, flash_error.
  destruct ((i + 1) * TargetInfo.page_size G >? Py.len image);
    destruct (terminate_flashing_cb self) as [cb|]; run; split_ifs.
  all: repeat (constructor; cbn [well_addressed]; try exact I); auto; lia.
Qed.

Lemma flash_pages_well_addressed (n : nat) :
  forall (a : nat) (ctr : Z) (pr : num A) (h : list event),
  0 < TargetInfo.page_size G ->
  n = O \/ (Z.of_nat a + Z.of_nat n - 1) * TargetInfo.page_size G < Py.len image ->
  0 <= ctr < TargetInfo.buffer_pages G ->
  Forall (well_addressed G)
    (events (flash_pages A BT W self image G cur total factor
               (map Z.of_nat (seq a n)) (ctr, pr) h)).
Proof.
  induction n as [|n IH]; intros a ctr pr h Hps Hin Hctr; [constructor|].
  destruct Hin as [Hin | Hin]; [discriminate|].
  cbn [seq map flash_pages]. rewrite events_bind.
  apply Forall_app. split.
  - apply flash_page_well_addressed; try assumption; nia.
  - pose proof (flash_page_spec A BT W self image G cur total factor
                  (Z.of_nat a) ctr pr h 0) as Hp.
    cbv zeta in Hp.
    destruct (result _) as [[c1 p1] | x |]; try constructor.
    apply IH; [exact Hps | destruct n; [now left | right; nia] |].
    destruct Hp as [_ Hp].
    destruct (ctr + 1 >=? TargetInfo.buffer_pages G) eqn:E; destruct Hp as [-> _];
      [lia|]. rewrite Z.geb_leb in E. apply Z.leb_gt in E. lia.
Qed.

End EngineOutcomes.

Section EngineOutcomeTheorems.

Variable A : Arith.
Variable BT : BootTypes.
Variable W : World.
Variable self : Bootloader.
Variable artifact : FlashArtifact.t.
Variables cur total : Z.
Variable h : list event.

Let image := FlashArtifact.content artifact.
Let key := from_string BT (Target.target (FlashArtifact.target artifact)).

Lemma loop_then_residual_outcome (G : TargetInfo.t) (h' : list event) :
  let r := loop_then_residual A BT W self artifact cur total G h' in
  (result r = Raise (Exception "") -> ends_rejected W self h' (events r))
  /\ match terminate_flashing_cb self with
     | None => polls (events r) = 0 /\ result r <> Raise terminated
     | Some cb =>
         (result r = Raise terminated
          /\ polls (events r) = uploads (events r) + 1
          /\ ends_cancelled cb h' (events r))
         \/ (result r <> Raise terminated
             /\ polls (events r) = uploads (events r))
     end.
Proof.
  cbv zeta. unfold loop_then_residual. fold image. cbv zeta.
  set (last := Z.quot (Py.len image - 1) (TargetInfo.page_size G)).
  set (factor := div A _ _).
  rewrite events_bind, result_bind.
  destruct (flash_pages_outcome A BT W self image G cur total factor
              (Py.range (last + 1)) 0 (of_int A 0) h') as [Hrej Hpoll].
  set (p := flash_pages A BT W self image G cur total factor
              (Py.range (last + 1)) (0, of_int A 0) h') in *.
  destruct (result p) as [[c x] | e |] eqn:Hres.
  - destruct (flash_residual_outcome A BT W self G cur total last c x (h' ++ events p))
      as (Hp0 & Hnt & Hrr & _).
    pose proof (proj1 (flash_residual_spec A BT W self G cur total last c x
                         (h' ++ events p) 0)) as Hu0.
    split; [intros Hr; apply ends_rejected_app; auto|].
    rewrite polls_app, uploads_app, Hp0, Hu0, !Z.add_0_r.
    destruct (terminate_flashing_cb self) as [cb|].
    + right. destruct Hpoll as [(Ht & _) | (_ & Hn)]; [discriminate Ht|].
      split; assumption.
    + destruct Hpoll as [Hn _]. split; assumption.
  - rewrite app_nil_r. split.
    + intros [= ->]. now apply Hrej.
    + destruct (terminate_flashing_cb self) as [cb|].
      * destruct Hpoll as [(Ht & Hn & Hc) | (Ht & Hn)]; [left | right].
        -- injection Ht as ->. split; [reflexivity | split; assumption].
        -- split; [intros [= ->]; now apply Ht | exact Hn].
      * destruct Hpoll as [Hn Ht]. split; [exact Hn | intros [= ->]; now apply Ht].
  - rewrite app_nil_r. split; [discriminate|].
    destruct (terminate_flashing_cb self) as [cb|].
    + destruct Hpoll as [(Ht & _) | (_ & Hn)]; [discriminate Ht|].
      right. split; [discriminate | exact Hn].
    + destruct Hpoll as [Hn _]. split; [exact Hn | discriminate].
Qed.


Lemma messages_no_write (evs : list event) :
  forallb is_message evs = true ->
  forallb (fun e => negb (is_write_flash e)) evs = true.
Proof.
  induction evs as [|e evs IH]; [reflexivity|].
  cbn [forallb]. intros [He Hr]%andb_prop. rewrite (IH Hr), andb_true_r.
  destruct e; cbn in He; try discriminate; reflexivity.
Qed.

Lemma loop_then_residual_stops (G : TargetInfo.t) (h' : list event) :
  stops_at_rejection W self h'
    (loop_then_residual A BT W self artifact cur total G h').
Proof.
  unfold loop_then_residual. cbv zeta.
  apply stops_bind; [apply flash_pages_stops|].
  intros [c x] _. apply flash_residual_stops.
Qed.

(** X3. A rejected [write_flash] ends [_internal_flash], and nothing else
    makes it raise the bare [Exception()].  When it raises that exception,
    the last command it sent is a [write_flash] that the device rejected,
    followed only by the report of the error code of the device.  And
    whenever the device rejects a [write_flash] of the run, the run raises
    that exception and has done nothing after the rejected command but
    report the error code: nothing is uploaded or programmed after a
    rejected write. *)
Theorem rejected_write_ends_the_flash :
  let r := _internal_flash A BT W self artifact cur total h in
  (result r = Raise (Exception "") -> ends_rejected W self h (events r))
  /\ stops_at_rejection W self h r.
Proof.
  cbv zeta. split.
  - destruct (internal_flash_cases A BT W self artifact cur total h)
      as [[_ ->] | (G & _ & [[_ ->] | [(_ & _ & Hr & _) | (_ & _ & _ & ->)]])];
      try discriminate.
    + rewrite Hr. discriminate.
    + cbn [events result fst snd]. intros Hr.
      apply ends_rejected_app.
      now apply (proj1 (loop_then_residual_outcome G _)).
  - destruct (internal_flash_cases A BT W self artifact cur total h)
      as [[_ ->] | (G & _ & [[_ ->] | [(_ & _ & _ & Hm) | (_ & _ & _ & ->)]])].
    + now apply stops_without_write.
    + now apply stops_without_write.
    + apply stops_without_write, messages_no_write, Hm.
    + apply stops_after.
      * apply messages_no_write, announcement_messages.
      * apply loop_then_residual_stops.
Qed.

(** X4. The edge cases of [_internal_flash]: a target name that the
    device does not hold raises [KeyError], and an empty image raises
    [ZeroDivisionError]; in both cases before anything is reported or
    sent. *)
Theorem unknown_target_and_empty_image :
  (cload_targets W h key = None ->
   _internal_flash A BT W self artifact cur total h
   = ([], Raise (KeyError (Py.str key))))
  /\ (cload_targets W h key <> None ->
      FlashArtifact.content artifact = [] ->
      _internal_flash A BT W self artifact cur total h
      = ([], Raise ZeroDivisionError)).
Proof.
  split.
  - intros Hnone.
    destruct (internal_flash_cases A BT W self artifact cur total h)
      as [[_ ->] | (G & HG & _)]; [reflexivity|].
    fold key in HG. congruence.
  - intros Hsome Hempty.
    destruct (internal_flash_cases A BT W self artifact cur total h)
      as [[HG _] | (G & HG & [[_ ->] | [(Hl & _) | (Hl & _)]])].
    + fold key in HG. contradiction.
    + reflexivity.
    + rewrite Hempty in Hl. cbn in Hl. lia.
    + rewrite Hempty in Hl. cbn in Hl. lia.
Qed.

(** X5. Every command that [_internal_flash] sends for a target of
    geometry [G] (with [0 < page_size] and [1 <= buffer_pages]) carries the
    address of [G]; every upload fills, from offset 0, a buffer page in
    [0, buffer_pages) with at least one byte and at most one page; every
    program command reads from buffer page 0. *)
Theorem commands_are_well_addressed (G : TargetInfo.t) :
  cload_targets W h key = Some G ->
  0 < TargetInfo.page_size G ->
  1 <= TargetInfo.buffer_pages G ->
  Forall (well_addressed G)
    (events (_internal_flash A BT W self artifact cur total h)).
Proof.
  intros HG Hps Hbp.
  destruct (internal_flash_cases A BT W self artifact cur total h)
    as [[_ ->] | (G' & HG' & [[_ ->] | [(_ & _ & _ & Hm) | (Hl & _ & _ & ->)]])];
    try constructor.
  - now apply messages_well_addressed.
  - fold key in HG'. rewrite HG in HG'. injection HG' as <-.
    cbn [events fst]. apply Forall_app. split.
    + apply messages_well_addressed, announcement_messages.
    + fold image in Hl. unfold loop_then_residual. fold image. cbv zeta.
      set (last := Z.quot (Py.len image - 1) (TargetInfo.page_size G)).
      set (factor := div A _ _).
      rewrite events_bind. apply Forall_app. split.
      * apply flash_pages_well_addressed; [exact Hps | | lia].
        right. subst last.
        pose proof (Z.quot_pos (Py.len image - 1) (TargetInfo.page_size G)
                      ltac:(lia) ltac:(lia)).
        rewrite Z2Nat.id by lia.
        rewrite Z.quot_div_nonneg by lia.
        pose proof (Z.mul_div_le (Py.len image - 1) (TargetInfo.page_size G) Hps).
        cbn. nia.
      * destruct (result _) as [[c x] | e |]; try constructor.
        apply flash_residual_outcome.
Qed.

End EngineOutcomeTheorems.

Lemma rejected_write_ends_the_flash_witness :
  ends_rejected rejecting_device (session true false 0x10) []
    (events (_internal_flash Float64.arith boottypes rejecting_device
               (session true false 0x10) s1_artifact 1 1 [])).
Proof.
  apply (proj1 (rejected_write_ends_the_flash Float64.arith boottypes
                  rejecting_device (session true false 0x10) s1_artifact 1 1 [])).
  vm_compute. reflexivity.
Defined.

Lemma commands_are_well_addressed_witness :
  Forall (well_addressed stm32_geometry) (events (flash_on_cf2 s3_artifact)).
Proof.
  apply (commands_are_well_addressed Float64.arith boottypes (device no_files 0x10)
           (session true false 0x10) s3_artifact 1 1 [] stm32_geometry).
  - reflexivity.
  - reflexivity.
  - apply Z.leb_le. reflexivity.
Defined.

(** ** The bundle reader *)

Lemma read_artifacts_present (members : list (string * list byte))
    (files : list (string * Target.t)) (h : list event) :
  (forall file target, In (file, target) files -> lookup file members <> None) ->
  exists artifacts,
    read_artifacts members files h = ([], Return artifacts)
    /\ map FlashArtifact.target artifacts = map snd files
    /\ map (fun a => Some (FlashArtifact.content a)) artifacts
       = map (fun entry => lookup (fst entry) members) files.
Proof.
  revert h. induction files as [|[file target] rest IH]; intros h Hall.
  - exists []. repeat split.
  - cbn [read_artifacts].
    destruct (lookup file members) as [content|] eqn:Hfile.
    2:{ exfalso. apply (Hall file target); [now left | exact Hfile]. }
    destruct (IH (h ++ []))
      as (artifacts & Hread & Htargets & Hcontents).
    { intros f t Hin. apply (Hall f t). now right. }
    exists (FlashArtifact.mk content target :: artifacts).
    assert (Hread' : read_artifacts members rest h = ([], Return artifacts)).
    { rewrite app_nil_r in Hread. exact Hread. }
    unfold bind. rewrite Hread'. cbn.
    rewrite Htargets, Hcontents, Hfile. repeat split.
Qed.

Lemma read_artifacts_missing (members : list (string * list byte))
    (before after : list (string * Target.t)) (file : string) (target : Target.t)
    (h : list event) :
  (forall f t, In (f, t) before -> lookup f members <> None) ->
  lookup file members = None ->
  read_artifacts members (before ++ (file, target) :: after) h
  = ([], Raise (KeyError (no_item file))).
Proof.
  revert h. induction before as [|[f t] before IH]; intros h Hall Hmiss.
  - cbn [app read_artifacts]. rewrite Hmiss. reflexivity.
  - cbn [app read_artifacts].
    destruct (lookup f members) as [content|] eqn:Hf.
    2:{ exfalso. apply (Hall f t); [now left | exact Hf]. }
    unfold bind. rewrite IH; [reflexivity | | exact Hmiss].
    intros f' t' Hin. apply (Hall f' t'). now right.
Qed.

Section BundleReader.

Variable W : World.

(** X6. For an archive whose manifest has version 1 and lists only files
    that the archive holds, [_get_flash_artifacts_from_zip] returns one
    artifact for each entry of the manifest, in the order of the manifest,
    with the target of the entry and the bytes of the file it names. *)
Theorem bundle_artifacts_follow_the_manifest filename raw manifest members h :
  fs W filename = Some (ZipFile raw (Parsed manifest) members) ->
  version manifest = 1 ->
  (forall file target, In (file, target) (files manifest) ->
                       lookup file members <> None) ->
  exists artifacts,
    _get_flash_artifacts_from_zip W filename h = ([], Return artifacts)
    /\ map FlashArtifact.target artifacts = map snd (files manifest)
    /\ map (fun a => Some (FlashArtifact.content a)) artifacts
       = map (fun entry => lookup (fst entry) members) (files manifest).
Proof.
  intros Hfs Hv Hall. unfold _get_flash_artifacts_from_zip.
  rewrite Hfs, Hv. cbn [Z.eqb negb Pos.eqb].
  now apply read_artifacts_present.
Qed.

(** X7. A manifest that lists a file which the archive does not hold makes
    [_get_flash_artifacts_from_zip] raise the [KeyError] of [ZipFile.read],
    whose argument is ["There is no item named '<file>' in the archive"] for
    the first such file; no artifact is returned for the files before it. *)
Theorem bundle_missing_member filename raw manifest members before after
    file target h :
  fs W filename = Some (ZipFile raw (Parsed manifest) members) ->
  version manifest = 1 ->
  files manifest = before ++ (file, target) :: after ->
  (forall f t, In (f, t) before -> lookup f members <> None) ->
  lookup file members = None ->
  _get_flash_artifacts_from_zip W filename h
  = ([], Raise (KeyError (no_item file))).
Proof.
  intros Hfs Hv Hfiles Hall Hmiss. unfold _get_flash_artifacts_from_zip.
  rewrite Hfs, Hv, Hfiles. cbn [Z.eqb negb Pos.eqb].
  now apply read_artifacts_missing.
Qed.

Variable A : Arith.
Variable BT : BootTypes.

(** X8. [flash] does nothing to the device, and reports nothing, unless
    the bundle loads: when reading the file raises (a manifest of another
    version than 1, no manifest, a listed file that is missing, a file that
    is no archive with another number of targets than one), [flash] raises
    the same exception with an empty trace. *)
Theorem bundle_errors_precede_everything fuel self filename targets cf h x :
  result (load_artifacts W filename targets h) = Raise x ->
  flash A BT W fuel self filename targets cf h = ([], Raise x).
Proof.
  intros Hload. rewrite flash_unfold, Hload. reflexivity.
Qed.

(** A manifest of another version than 1 is refused whatever the archive
    holds and whatever the targets. *)
Lemma wrong_manifest_version filename raw manifest members targets h :
  fs W filename = Some (ZipFile raw (Parsed manifest) members) ->
  version manifest <> 1 ->
  result (load_artifacts W filename targets h)
  = Raise (Exception "Wrong manifest version").
Proof.
  intros Hfs Hv. unfold load_artifacts, _get_flash_artifacts_from_zip.
  rewrite Hfs. apply Z.eqb_neq in Hv. rewrite Hv. reflexivity.
Qed.

End BundleReader.

Lemma bundle_artifacts_follow_the_manifest_witness :
  exists artifacts,
    _get_flash_artifacts_from_zip (device (only_file two_image_bundle) 0x10)
      "fw.zip" [] = ([], Return artifacts)
    /\ map FlashArtifact.target artifacts = [cf2_stm32; cf2_nrf51].
Proof.
  destruct (bundle_artifacts_follow_the_manifest
              (device (only_file two_image_bundle) 0x10) "fw.zip" []
              {| version := 1;
                 files := [("cf2.bin", cf2_stm32); ("nrf51.bin", cf2_nrf51)] |}
              [("cf2.bin", zeros 2048); ("nrf51.bin", zeros 1024)] []
              eq_refl eq_refl)
    as (artifacts & Hread & Htargets & _).
  - intros file target [[= <- <-] | [[= <- <-] | []]]; discriminate.
  - exists artifacts. split; [exact Hread | exact Htargets].
Defined.

Lemma bundle_missing_member_witness :
  _get_flash_artifacts_from_zip (device (only_file incomplete_bundle) 0x10)
    "fw.zip" []
  = ([], Raise (KeyError "There is no item named 'nrf51.bin' in the archive")).
Proof.
  apply (bundle_missing_member (device (only_file incomplete_bundle) 0x10)
           "fw.zip" []
           {| version := 1;
              files := [("cf2.bin", cf2_stm32); ("nrf51.bin", cf2_nrf51)] |}
           [("cf2.bin", zeros 2048)]
           [("cf2.bin", cf2_stm32)] [] "nrf51.bin" cf2_nrf51 []
           eq_refl eq_refl eq_refl).
  - intros f t [[= <- <-] | []]. discriminate.
  - reflexivity.
Defined.

Lemma bundle_errors_precede_everything_witness :
  flash Float64.arith boottypes (device (only_file version_2_bundle) 0x10)
    0 (session true true 0x10) "fw.zip" [cf2_stm32] None []
  = ([], Raise (Exception "Wrong manifest version")).
Proof.
  apply (bundle_errors_precede_everything
           (device (only_file version_2_bundle) 0x10) Float64.arith boottypes).
  reflexivity.
Defined.

(** ** The session *)

(** Closes a case of [start_bootloader] for the bookkeeping of the
    protocol version. *)
Ltac version_case :=
  rewrite <- ?app_assoc, ?app_nil_r in *; cbn [app] in *;
  do 2 eexists; split; [reflexivity|]; split; [reflexivity|];
  split;
  [ intros Hs; first [discriminate Hs | reflexivity]
  | intros Hs; try discriminate Hs;
    cbn [protocol_version]; unfold version_dispatch;
    repeat match goal with
           | H : ?b = _ |- context [?b] => rewrite H
           end;
    match goal with
    | |- exists pre post, ?l = _ /\ _ =>
        first [ exists l, []; rewrite ?app_nil_r; repeat split; reflexivity
              | exists (removelast l), [last l StdoutFlush];
                cbn [removelast last app]; rewrite ?app_nil_r;
                repeat split; reflexivity ]
    end ].

Section Session.

Variable A : Arith.
Variable BT : BootTypes.
Variable W : World.

(** X9. [start_bootloader] never raises and keeps [clink].  When it
    returns [False] it leaves [protocol_version] as it was.  When it
    returns [True] it has stored the version that the protocol engine holds
    at that moment, and what it did after reading it depends on that
    version alone: nothing for the two CF1 protocols, an info update of the
    NRF51 for the CF2 protocol, a printed diagnostic for any other code. *)
Theorem start_bootloader_records_the_version self warm cf h :
  let r := start_bootloader BT W self warm cf h in
  exists started self',
    result r = Return (started, self')
    /\ clink self' = clink self
    /\ (started = false -> protocol_version self' = protocol_version self)
    /\ (started = true ->
        exists pre post,
          events r = pre ++ post
          /\ protocol_version self' = cload_protocol_version W (h ++ pre)
          /\ post = version_dispatch BT (protocol_version self')).
Proof.
  cbv zeta. unfold start_bootloader.
  destruct warm.
  - destruct cf as [[|]|]; run; split_ifs; version_case.
  - run. destruct (cload_link W h); run.
    + split_ifs; version_case.
    + match goal with
      | |- context [scan_for_bootloader W ?x] =>
          destruct (scan_for_bootloader W x) as [[|c u]|]
      end; run; split_ifs; version_case.
Qed.

Lemma reset_to_firmware_run (h : list event) :
  reset_to_firmware BT W h = ([ResetToFirmware (firmware_target BT W h)], Return tt).
Proof.
  unfold reset_to_firmware, firmware_target, bind, ask, emit.
  rewrite app_nil_r. destruct (_ =? _); reflexivity.
Qed.

(** X10. When [start_bootloader] reports failure, [flash_full] raises
    ['Could not connect to bootloader'] having done nothing besides: the
    file is not read, the info callback is not called and nothing is sent
    to the flash. *)
Theorem flash_full_needs_the_bootloader fuel self cf filename warm targets
    info_cb progress_cb' terminate_flash_cb h self' :
  let start := start_bootloader BT W
                 (install_callbacks self progress_cb' terminate_flash_cb) warm cf h in
  result start = Return (false, self') ->
  flash_full A BT W fuel self cf filename warm targets info_cb progress_cb'
    terminate_flash_cb h
  = (events start, Raise (Exception "Could not connect to bootloader")).
Proof.
  cbv zeta. intros Hstart.
  unfold flash_full.
  change {| clink := clink self;
            protocol_version := protocol_version self;
            warm_booted := warm_booted self;
            progress_cb := if progress_cb' then true else progress_cb self;
            terminate_flashing_cb :=
              match terminate_flash_cb with
              | Some cb => Some cb
              | None => terminate_flashing_cb self
              end |}
    with (install_callbacks self progress_cb' terminate_flash_cb).
  unfold bind at 1. unfold events, result in *.
  destruct (start_bootloader BT W _ warm cf h) as [e [[started s] | x |]];
    cbn [fst snd] in *; try discriminate Hstart.
  injection Hstart as -> ->. cbn. now rewrite app_nil_r.
Qed.

(** X11. A [flash_full] with a file that returns has reset the device to
    its firmware as the last thing it did: the NRF51 when the protocol
    engine holds the CF2 protocol at that moment, the STM32 otherwise. *)
Theorem flash_full_resets_to_firmware fuel self cf filename warm targets
    info_cb progress_cb' terminate_flash_cb h self' :
  let r := flash_full A BT W fuel self cf (Some filename) warm targets info_cb
             progress_cb' terminate_flash_cb h in
  result r = Return self' ->
  exists pre,
    events r = pre ++ [ResetToFirmware (firmware_target BT W (h ++ pre))].
Proof.
  cbv zeta. unfold flash_full. intros Hret.
  rewrite events_bind. peel Hret.
  match goal with
  | a : (bool * Bootloader)%type |- _ => destruct a as [started s]
  end.
  cbv beta iota in *.
  destruct (negb started); [discriminate Hret|].
  rewrite events_bind. peel Hret.
  rewrite events_bind. peel Hret.
  rewrite events_bind.
  match goal with
  | |- context [reset_to_firmware BT W ?hh] =>
      rewrite (reset_to_firmware_run hh)
  end.
  cbn [events result fst snd app].
  unfold ret. cbn [events fst].
  match goal with
  | |- exists pre, ?a ++ ?b ++ ?c ++ [_] = _ => exists (a ++ b ++ c)
  end.
  rewrite <- !app_assoc. reflexivity.
Qed.

End Session.

Lemma flash_full_needs_the_bootloader_witness :
  flash_full Float64.arith boottypes absent_device 0 (session false false 0)
    None (Some "fw.zip") false [] true false None []
  = ([ScanForBootloader; Sleep 1],
     Raise (Exception "Could not connect to bootloader")).
Proof.
  apply (flash_full_needs_the_bootloader Float64.arith boottypes absent_device
           0 (session false false 0) None (Some "fw.zip") false [] true false
           None [] (session false false 0)).
  reflexivity.
Defined.

Lemma flash_full_resets_to_firmware_witness :
  exists pre,
    events (flash_full Float64.arith boottypes
              (device (only_file two_image_bundle) 0x10) 0
              (session false false 0) None (Some "fw.zip") false [cf2_stm32]
              false false None [])
    = pre ++ [ResetToFirmware 0xFE].
Proof.
  eapply (flash_full_resets_to_firmware Float64.arith boottypes
            (device (only_file two_image_bundle) 0x10) 0
            (session false false 0) None "fw.zip" false [cf2_stm32]
            false false None []).
  vm_compute. reflexivity.
Defined.

(** ** The deck update *)

Section EachEvent.

Variable P : list event -> event -> Prop.

Lemma each_event_app (h a b : list event) :
  each_event P h (a ++ b) <-> each_event P h a /\ each_event P (h ++ a) b.
Proof.
  revert h. induction a as [|e a IH]; intros h; cbn [app each_event].
  - rewrite app_nil_r. tauto.
  - rewrite IH, <- app_assoc. cbn [app]. tauto.
Qed.

Lemma each_event_bind {A B} (m : M A) (k : A -> M B) (h : list event) :
  each_event P h (events (m h)) ->
  (forall a, result (m h) = Return a ->
             each_event P (h ++ events (m h))
               (events (k a (h ++ events (m h))))) ->
  each_event P h (events (bind m k h)).
Proof.
  intros Hm Hk. rewrite events_bind, each_event_app. split; [exact Hm|].
  destruct (result (m h)) eqn:Hr; [now apply Hk | exact I | exact I].
Qed.

Lemma each_event_quiet (Q : event -> bool) (h evs : list event) :
  (forall h e, Q e = true -> P h e) ->
  forallb Q evs = true -> each_event P h evs.
Proof.
  intros HQ. revert h. induction evs as [|e evs IH]; intros h Hall; cbn.
  - exact I.
  - cbn in Hall. apply andb_true_iff in Hall as [He Hall].
    split; [now apply HQ | now apply IH].
Qed.

End EachEvent.

Lemma each_event_impl (P Q : list event -> event -> Prop) (h evs : list event) :
  (forall h e, P h e -> Q h e) -> each_event P h evs -> each_event Q h evs.
Proof.
  intros HPQ. revert h. induction evs as [|e evs IH]; intros h; cbn.
  - trivial.
  - intros [He Hrest]. split; [now apply HPQ | now apply IH].
Qed.

Lemma each_event_Forall (Q : event -> Prop) (h evs : list event) :
  each_event (fun _ => Q) h evs -> Forall Q evs.
Proof.
  revert h. induction evs as [|e evs IH]; intros h; cbn.
  - constructor.
  - intros [He Hrest]. constructor; [exact He | now apply (IH (h ++ [e]))].
Qed.

Lemma emits_only_impl {A} (P Q : event -> bool) (m : M A) :
  (forall e, P e = true -> Q e = true) -> emits_only P m -> emits_only Q m.
Proof.
  intros HPQ Hm h. specialize (Hm h).
  rewrite forallb_forall in *. auto.
Qed.

Lemma reported_later (W : World) (since h more : list event) index deck :
  reported W since h index deck -> reported W since (h ++ more) index deck.
Proof.
  intros (before & after & -> & Hin).
  exists before, (after ++ more). split; [|exact Hin].
  now rewrite <- !app_assoc.
Qed.

Lemma deck_at_in (index : Z) (decks : list (Z * Deck.t)) (deck : Deck.t) :
  deck_at index decks = Some deck -> In (index, deck) decks.
Proof.
  induction decks as [|[k d] rest IH]; cbn; [discriminate|].
  destruct (k =? index) eqn:Hk.
  - intros [= ->]. apply Z.eqb_eq in Hk as ->. now left.
  - intros H. right. now apply IH.
Qed.

Lemma target_eqb_eq (a b : Target.t) : Target.eqb a b = true -> a = b.
Proof.
  destruct a, b. unfold Target.eqb. cbn.
  rewrite !andb_true_iff, !String.eqb_eq. now intros [[-> ->] ->].
Qed.

Lemma target_eqb_refl (a : Target.t) : Target.eqb a a = true.
Proof.
  destruct a. unfold Target.eqb. cbn. now rewrite !String.eqb_refl.
Qed.

(** The head of a [filter] is the first element that passes. *)
Lemma filter_head {T} (f : T -> bool) (l : list T) (x : T) (rest : list T) :
  filter f l = x :: rest ->
  exists before after,
    l = before ++ x :: after /\ f x = true
    /\ forall y, In y before -> f y = false.
Proof.
  induction l as [|y l IH]; cbn; [discriminate|].
  destruct (f y) eqn:Hy.
  - intros [= -> <-]. exists [], l. repeat split; [exact Hy | intros ? []].
  - intros H. destruct (IH H) as (before & after & -> & Hx & Hbefore).
    exists (y :: before), after. repeat split; [exact Hx|].
    intros z [<- | Hz]; [exact Hy | now apply Hbefore].
Qed.

Section WaitStarted.

Variable W : World.

Lemma wait_started_step (fuel : nat) (index : Z) (deck : Deck.t)
    (h : list event) :
  let asked := [Print "Deck not yet started ..."; Sleep 500; QueryDecks] in
  wait_started W (S fuel) index deck h
  = if Deck.is_started deck then ([], Return deck)
    else match deck_at index (query_decks W (h ++ asked)) with
         | None => (asked, Raise (KeyError (Py.str index)))
         | Some deck' =>
             (asked ++ events (wait_started W fuel index deck' (h ++ asked)),
              result (wait_started W fuel index deck' (h ++ asked)))
         end.
Proof.
  cbv zeta. cbn [wait_started]. destruct (Deck.is_started deck); [reflexivity|].
  unfold bind, emit, ask, raise. cbn [app].
  rewrite <- !app_assoc. cbn [app].
  destruct (deck_at index _); [|reflexivity].
  destruct (wait_started W fuel index _ _) as [e [d | x |]]; reflexivity.
Qed.

Lemma wait_started_spec (fuel : nat) (index : Z) (deck : Deck.t)
    (since h : list event) :
  reported W since h index deck ->
  let r := wait_started W fuel index deck h in
  forallb (fun e => negb (is_deck_write e) && negb (is_session e)) (events r)
  = true
  /\ (forall deck', result r = Return deck' ->
        Deck.is_started deck' = true
        /\ reported W since (h ++ events r) index deck')
  /\ (forall x, result r = Raise x ->
        x = KeyError (Py.str index)
        /\ exists pre, events r = pre ++ [QueryDecks]).
Proof.
  revert deck h. induction fuel as [|fuel IH]; intros deck h Hrep; cbv zeta.
  - cbn [wait_started]. destruct (Deck.is_started deck) eqn:Hs.
    + split; [reflexivity|]. split; [|discriminate].
      intros deck' [= <-]. split; [exact Hs|].
      now rewrite app_nil_r.
    + split; [reflexivity|]. split; discriminate.
  - rewrite wait_started_step. cbv zeta.
    destruct (Deck.is_started deck) eqn:Hs.
    + split; [reflexivity|]. split; [|discriminate].
      intros deck' [= <-]. split; [exact Hs|].
      now rewrite app_nil_r.
    + set (asked := [Print "Deck not yet started ..."; Sleep 500; QueryDecks]).
      destruct (deck_at index (query_decks W (h ++ asked))) as [deck1|] eqn:Hat.
      * assert (Hrep' : reported W since (h ++ asked) index deck1).
        { destruct Hrep as (before & after & Hh & _).
          exists (before ++ QueryDecks :: after
                  ++ [Print "Deck not yet started ..."; Sleep 500]), [].
          assert (Hasked : h ++ asked
                           = since ++ (before ++ QueryDecks :: after
                                       ++ [Print "Deck not yet started ...";
                                           Sleep 500]) ++ [QueryDecks]).
          { subst h asked. rewrite <- !app_assoc. cbn [app].
            rewrite <- !app_assoc. reflexivity. }
          split; [exact Hasked|].
          rewrite <- Hasked. apply deck_at_in. exact Hat. }
        destruct (IH deck1 (h ++ asked) Hrep') as (Hq & Hret & Hraise).
        unfold events, result in *. cbn [fst snd] in *.
        split; [|split].
        -- rewrite forallb_app, Hq. reflexivity.
        -- intros d Hd. destruct (Hret d Hd) as [Hst Hr].
           split; [exact Hst|]. now rewrite app_assoc.
        -- intros x Hx. destruct (Hraise x Hx) as [-> [pre Hpre]].
           split; [reflexivity|]. exists (asked ++ pre).
           now rewrite Hpre, app_assoc.
      * unfold events, result. cbn [fst snd].
        split; [reflexivity|]. split; [discriminate|].
        intros x [= <-]. split; [reflexivity|].
        now exists [Print "Deck not yet started ..."; Sleep 500].
Qed.

(** The wait runs out of fuel only after [fuel] turns, and needs none
    for a deck that is started. *)
Lemma wait_started_fuel (fuel : nat) (index : Z) (deck : Deck.t)
    (h : list event) :
  let r := wait_started W fuel index deck h in
  (result r = OutOfFuel -> events r = waits fuel)
  /\ (Deck.is_started deck = true -> r = ([], Return deck)).
Proof.
  revert deck h. induction fuel as [|fuel IH]; intros deck h; cbv zeta.
  - cbn [wait_started]. destruct (Deck.is_started deck).
    + split; [discriminate | reflexivity].
    + split; [reflexivity | discriminate].
  - rewrite wait_started_step. cbv zeta.
    destruct (Deck.is_started deck); [split; [discriminate | reflexivity]|].
    split; [|discriminate].
    destruct (deck_at index _) as [deck'|]; [|discriminate].
    unfold result at 1, events at 1. cbn [fst snd].
    intros Hout. rewrite (proj1 (IH deck' _) Hout). reflexivity.
Qed.

End WaitStarted.

(** Runs one turn of the loop over the decks after the poll. *)
Ltac deck_turn :=
  match goal with
  | |- context [negb (Py.len ?t =? 0) && ?c] =>
      destruct (negb (Py.len t =? 0) && c); [reflexivity|]
  end;
  match goal with
  | |- context [filter ?f ?l] =>
      destruct (filter f l) as [|deck_artifact others]; [reflexivity|]
  end;
  unfold when, bind, emit, ask, ret, raise, events, result;
  destruct (progress_cb _); cbn [app fst snd];
  rewrite <- ?app_assoc, ?app_nil_r; cbn [app];
  match goal with
  | |- context [wait_started ?W ?f ?i ?d ?hh] =>
      destruct (wait_started W f i d hh) as [waited [deck' | x |]]
  end;
  cbn [app fst snd]; try reflexivity;
  repeat match goal with
         | |- context [if negb ?b then _ else _] => destruct b; cbn [negb]
         end;
  rewrite <- ?app_assoc, ?app_nil_r; cbn [app]; try reflexivity;
  match goal with
  | |- context [write_sync ?W ?hh] => destruct (write_sync W hh)
  end;
  cbn [app fst snd]; rewrite <- ?app_assoc, ?app_nil_r; reflexivity.

Section DeckUpdate.

Variable W : World.
Variable self : Bootloader.
Variable artifacts : list FlashArtifact.t.
Variable targets : list Target.t.

(** One turn of the loop over the decks, case by case. *)
Lemma flash_one_deck_run (fuel : nat) (index : Z) (deck : Deck.t)
    (h : list event) :
  let polled := match terminate_flashing_cb self with
                | Some _ => [TerminatePoll]
                | None => []
                end in
  let stop := match terminate_flashing_cb self with
              | Some cb => cb (h ++ [TerminatePoll])
              | None => false
              end in
  let fw := deck_fw (Deck.name deck) in
  let pre := polled
             ++ (if progress_cb self
                 then [Progress (cat ["Updating deck "; Deck.name deck]) 50]
                 else [])
             ++ [Print (cat ["Handling "; Deck.name deck])] in
  flash_one_deck W fuel self artifacts targets index deck h
  = if stop then (polled, Raise terminated)
    else if negb (Py.len targets =? 0)
            && (Py.len (filter (fun t => Target.eqb t fw) targets) =? 0)
    then (polled ++ [Print (cat ["Skipping "; Deck.name deck])], Return tt)
    else
      match filter (fun a => Target.eqb (FlashArtifact.target a) fw) artifacts with
      | [] => (polled ++ [Print (cat ["Skipping "; Deck.name deck;
                                      ", no artifact for it in the .zip"])],
               Return tt)
      | deck_artifact :: _ =>
          let waited := wait_started W fuel index deck (h ++ pre) in
          match result waited with
          | Return deck' =>
              let w := DeckWriteSync index 0
                         (FlashArtifact.content deck_artifact) in
              let before := pre ++ events waited in
              if negb (Deck.supports_fw_upgrade deck') then
                (before ++ [Print (cat ["Deck "; Deck.name deck';
                                        " does not support firmware update, skipping!"])],
                 Return tt)
              else if negb (Deck.is_fw_upgrade_required deck') then
                (before ++ [Print (cat ["Deck "; Deck.name deck';
                                        " firmware up to date, skipping"])],
                 Return tt)
              else if negb (Deck.is_bootloader_active deck') then
                (before ++ [Print (cat ["Error: Deck "; Deck.name deck';
                                        " bootloader not active, skipping!"])],
                 Return tt)
              else if write_sync W (h ++ before ++ [w]) then
                (before ++ w :: (if progress_cb self
                                 then [Progress (cat ["Deck "; Deck.name deck';
                                                      " updated succesfully!"]) 75]
                                 else []),
                 Return tt)
              else
                (before ++ w :: deck_failure_report self (Deck.name deck'),
                 Raise (Exception (cat ["Failed to update deck ";
                                        Deck.name deck'])))
          | Raise x => (pre ++ events waited, Raise x)
          | OutOfFuel => (pre ++ events waited, OutOfFuel)
          end
      end.
Proof.
  cbv zeta. unfold flash_one_deck, terminate_requested, deck_failure_report,
    terminated.
  destruct (terminate_flashing_cb self) as [cb|];
    unfold bind at 1; unfold emit, ask, ret, bind at 1; cbn [app];
    rewrite ?app_nil_r.
  - destruct (cb (h ++ [TerminatePoll])); [reflexivity|]. deck_turn.
  - deck_turn.
Qed.


(** What the deck update that started after the events [since] guarantees
    of each of its events. *)
Let sound (since : list event) (listed : list (Z * Deck.t)) (h : list event)
    (e : event) : Prop :=
  checked_deck_write W since h e /\ deck_write_from listed artifacts targets e.

Let quiet (e : event) : bool := negb (is_deck_write e) && negb (is_session e).

Lemma quiet_is_sound (since : list event) (listed : list (Z * Deck.t))
    (h : list event) (e : event) :
  quiet e = true -> sound since listed h e.
Proof. destruct e; cbn; try discriminate; intros _; split; exact I. Qed.

Lemma flash_one_deck_spec (fuel : nat) (index : Z) (deck : Deck.t)
    (since : list event) (listed : list (Z * Deck.t)) (h : list event) :
  reported W since h index deck ->
  In (index, deck) listed ->
  let r := flash_one_deck W fuel self artifacts targets index deck h in
  each_event (sound since listed) h (events r)
  /\ (forall x, result r = Raise x -> deck_update_failed W self h (events r) x).
Proof.
  intros Hrep Hlisted. cbv zeta. rewrite flash_one_deck_run. cbv zeta.
  set (polled := match terminate_flashing_cb self with
                 | Some _ => [TerminatePoll]
                 | None => []
                 end).
  set (pre := polled ++ _ ++ [Print (cat ["Handling "; Deck.name deck])]).
  assert (Hpolled : forallb quiet polled = true).
  { subst polled. now destruct (terminate_flashing_cb self). }
  assert (Hpre : forallb quiet pre = true).
  { subst pre. rewrite !forallb_app, Hpolled. now destruct (progress_cb self). }
  match goal with
  | |- context [if ?stop then (polled, _) else _] => destruct stop eqn:Hstop
  end.
  { split.
    - now apply each_event_quiet with (Q := quiet); [apply quiet_is_sound|].
    - intros x [= <-]. left. split; [reflexivity|].
      subst polled. destruct (terminate_flashing_cb self) as [cb|];
        [|discriminate Hstop].
      exists cb. split; [reflexivity|]. split; [now exists []|exact Hstop]. }
  assert (Hquiet : forall evs (res : outcome unit),
             forallb quiet evs = true ->
             (forall x, res <> Raise x) ->
             each_event (sound since listed) h (events (evs, res))
             /\ (forall x, result (evs, res) = Raise x ->
                   deck_update_failed W self h (events (evs, res)) x)).
  { intros evs res Hevs Hres. split.
    - now apply each_event_quiet with (Q := quiet); [apply quiet_is_sound|].
    - intros x Hx. now destruct (Hres x). }
  destruct (negb (Py.len targets =? 0) && _) eqn:Hskip.
  { apply Hquiet; [|discriminate]. now rewrite forallb_app, Hpolled. }
  destruct (filter _ artifacts) as [|deck_artifact others] eqn:Hart.
  { apply Hquiet; [|discriminate]. now rewrite forallb_app, Hpolled. }
  destruct (wait_started_spec W fuel index deck since (h ++ pre)
              (reported_later W since h pre index deck Hrep))
    as (Hwait & Hret & Hraise).
  fold quiet in Hwait.
  set (waited := wait_started W fuel index deck (h ++ pre)) in *.
  assert (Hbefore : forallb quiet (pre ++ events waited) = true).
  { now rewrite forallb_app, Hpre, Hwait. }
  destruct (result waited) as [deck' | x |] eqn:Hwaited.
  - destruct (Hret deck' eq_refl) as [Hstarted Hrep'].
    destruct (Deck.supports_fw_upgrade deck') eqn:Hsupports; cbn [negb].
    2:{ apply Hquiet; [|discriminate]. now rewrite forallb_app, Hbefore. }
    destruct (Deck.is_fw_upgrade_required deck') eqn:Hrequired; cbn [negb].
    2:{ apply Hquiet; [|discriminate]. now rewrite forallb_app, Hbefore. }
    destruct (Deck.is_bootloader_active deck') eqn:Hactive; cbn [negb].
    2:{ apply Hquiet; [|discriminate]. now rewrite forallb_app, Hbefore. }
    assert (Hwrite : sound since listed (h ++ pre ++ events waited)
                       (DeckWriteSync index 0
                          (FlashArtifact.content deck_artifact))).
    { split.
      - exists deck'. split; [now rewrite app_assoc|].
        unfold deck_ready. now rewrite Hstarted, Hsupports, Hrequired, Hactive.
      - split; [reflexivity|].
        destruct (filter_head _ _ _ _ Hart)
          as (before & after & Hsplit & Hfirst & Hnone).
        exists deck, before, deck_artifact, after.
        split; [exact Hlisted|].
        split; [exact Hsplit|]. split; [now apply target_eqb_eq|].
        split.
        { intros a Ha Heq. specialize (Hnone a Ha). cbv beta in Hnone.
          rewrite Heq, target_eqb_refl in Hnone. discriminate. }
        split; [reflexivity|].
        apply andb_false_iff in Hskip as [Hall | Hsome].
        + left. apply negb_false_iff, Z.eqb_eq in Hall.
          unfold Py.len in Hall. destruct targets; [reflexivity|discriminate].
        + right. apply Z.eqb_neq in Hsome. unfold Py.len in Hsome.
          destruct (filter _ targets) as [|t ts] eqn:Hts; [now destruct Hsome|].
          destruct (filter_head _ _ _ _ Hts) as (b & a & -> & Ht & _).
          apply target_eqb_eq in Ht as ->. apply in_elt. }
    destruct (write_sync W _) eqn:Hsync.
    + split; [|discriminate]. unfold events. cbn [fst].
      apply each_event_app. split.
      * now apply each_event_quiet with (Q := quiet); [apply quiet_is_sound|].
      * cbn [each_event]. split; [exact Hwrite|].
        apply each_event_quiet with (Q := quiet); [apply quiet_is_sound|].
        now destruct (progress_cb self).
    + split.
      * unfold events. cbn [fst]. apply each_event_app. split.
        -- now apply each_event_quiet with (Q := quiet); [apply quiet_is_sound|].
        -- cbn [each_event]. split; [exact Hwrite|].
           apply each_event_quiet with (Q := quiet); [apply quiet_is_sound|].
           unfold deck_failure_report. now destruct (progress_cb self).
      * intros x [= <-]. right. left.
        exists (pre ++ events waited), index,
          (FlashArtifact.content deck_artifact), (Deck.name deck').
        split; [reflexivity|]. split; [exact Hsync|reflexivity].
  - split.
    + now apply each_event_quiet with (Q := quiet); [apply quiet_is_sound|].
    + intros x' [= <-]. destruct (Hraise x eq_refl) as [-> [asked Hasked]].
      right. right. exists (pre ++ asked), index.
      unfold events at 1. cbn [fst]. split; [|reflexivity].
      now rewrite Hasked, app_assoc.
  - now apply Hquiet; [|discriminate].
Qed.

Lemma deck_update_failed_later (h pre evs : list event) (x : exn) :
  deck_update_failed W self (h ++ pre) evs x ->
  deck_update_failed W self h (pre ++ evs) x.
Proof.
  intros [[-> (cb & Hcb & Hend)]
         | [(p & index & data & name & -> & Hsync & ->)
           | (p & index & -> & ->)]].
  - left. split; [reflexivity|]. exists cb. split; [exact Hcb|].
    now apply ends_cancelled_app.
  - right. left. exists (pre ++ p), index, data, name.
    rewrite <- !app_assoc in *. now repeat split.
  - right. right. exists (pre ++ p), index. now rewrite <- app_assoc.
Qed.

Lemma flash_decks_spec (fuel : nat) (decks : list (Z * Deck.t))
    (since : list event) (listed : list (Z * Deck.t)) (h : list event) :
  (forall index deck, In (index, deck) decks ->
                      reported W since h index deck /\ In (index, deck) listed) ->
  let r := flash_decks W fuel self artifacts targets decks h in
  each_event (sound since listed) h (events r)
  /\ (forall x, result r = Raise x -> deck_update_failed W self h (events r) x).
Proof.
  revert h. induction decks as [|[index deck] rest IH]; intros h Hrep; cbv zeta.
  - split; [exact I | discriminate].
  - cbn [flash_decks].
    destruct (Hrep _ _ (or_introl eq_refl)) as [Hfirst Hlisted].
    destruct (flash_one_deck_spec fuel index deck since listed h Hfirst Hlisted)
      as [Hsound Hfail].
    set (turn := flash_one_deck W fuel self artifacts targets index deck h) in *.
    destruct (IH (h ++ events turn)) as [Hsound' Hfail'].
    { intros i d Hin. destruct (Hrep i d (or_intror Hin)) as [Hr Hl].
      split; [now apply reported_later | exact Hl]. }
    split.
    + apply each_event_bind; [exact Hsound|]. intros _ _. exact Hsound'.
    + intros x. rewrite result_bind, events_bind. fold turn.
      destruct (result turn) eqn:Hturn.
      * intros Hx. apply deck_update_failed_later. now apply Hfail'.
      * intros [= <-]. rewrite app_nil_r. now apply Hfail.
      * discriminate.
Qed.

(** [_flash_deck], case by case. *)
Lemma flash_deck_run (fuel : nat) (h : list event) :
  let opened := detecting self ++ [ScfOpen (clink self); GetMems] in
  let asked := opened ++ [QueryDecks] in
  let body :=
    if (get_mems W (h ++ opened) =? 0)%nat then ([], Return tt)
    else
      let r := flash_decks W fuel self artifacts targets
                 (query_decks W (h ++ asked)) (h ++ asked) in
      (QueryDecks :: events r, result r) in
  _flash_deck W fuel self artifacts targets h
  = (opened ++ events body
     ++ match result body with OutOfFuel => [] | _ => [ScfClose] end,
     result body).
Proof.
  cbv zeta. unfold _flash_deck, detecting, when, finally, bind, emit, ask, ret.
  destruct (progress_cb self); cbn [app]; rewrite <- ?app_assoc; cbn [app];
    rewrite ?app_nil_r.
  all: destruct (get_mems W _ =? 0)%nat; cbn [app events result fst snd];
    [reflexivity|].
  all: rewrite <- ?app_assoc; cbn [app].
  all: match goal with
       | |- context [flash_decks ?W ?f ?s ?a ?t ?d ?hh] =>
           destruct (flash_decks W f s a t d hh) as [evs [[] | x |]]
       end; cbn [app fst snd]; rewrite ?app_nil_r; reflexivity.
Qed.

Let turn_event (e : event) : bool :=
  negb (is_flash_command e) && negb (is_session e).

Lemma wait_started_events (fuel : nat) (index : Z) (deck : Deck.t) :
  emits_only turn_event (wait_started W fuel index deck).
Proof.
  revert deck. induction fuel as [|fuel IH]; intros deck; cbn [wait_started].
  - destruct (Deck.is_started deck); [apply emits_only_ret|].
    intros h. reflexivity.
  - trace_only.
Qed.

Lemma flash_one_deck_events (fuel : nat) (index : Z) (deck : Deck.t) :
  emits_only turn_event (flash_one_deck W fuel self artifacts targets index deck).
Proof.
  unfold flash_one_deck, terminate_requested. trace_only.
  apply wait_started_events.
Qed.

Lemma flash_decks_events (fuel : nat) (decks : list (Z * Deck.t)) :
  emits_only (fun e => negb (is_flash_command e) && negb (is_session e))
    (flash_decks W fuel self artifacts targets decks).
Proof.
  induction decks as [|[index deck] rest IH]; cbn [flash_decks].
  - apply emits_only_ret.
  - apply emits_only_bind; [apply flash_one_deck_events | intros _; exact IH].
Qed.

Lemma flash_deck_events (fuel : nat) :
  emits_only (fun e => negb (is_flash_command e))
    (_flash_deck W fuel self artifacts targets).
Proof.
  unfold _flash_deck. trace_only.
  apply emits_only_impl with (2 := flash_decks_events fuel _).
  now intros e [He _]%andb_true_iff.
Qed.

Lemma flash_one_deck_fuel (fuel : nat) (index : Z) (deck : Deck.t)
    (h : list event) :
  let r := flash_one_deck W fuel self artifacts targets index deck h in
  (result r = OutOfFuel -> exists pre, events r = pre ++ waits fuel)
  /\ (Deck.is_started deck = true -> result r <> OutOfFuel).
Proof.
  cbv zeta. rewrite flash_one_deck_run. cbv zeta.
  set (pre := _ ++ _ ++ [Print (cat ["Handling "; Deck.name deck])]).
  destruct (wait_started_fuel W fuel index deck (h ++ pre)) as [Hout Hnow].
  cbv zeta in Hout, Hnow.
  match goal with
  | |- context [if ?stop then (_, Raise terminated) else _] =>
      destruct stop; [split; discriminate|]
  end.
  destruct (negb (Py.len targets =? 0) && _); [split; discriminate|].
  destruct (filter _ artifacts) as [|deck_artifact others];
    [split; discriminate|].
  split.
  - destruct (result (wait_started W fuel index deck (h ++ pre))) eqn:Hres.
    + repeat match goal with
             | |- context [if ?b then _ else _] => destruct b
             end; discriminate.
    + discriminate.
    + intros _. exists pre. unfold events at 1. cbn [fst].
      now rewrite (Hout eq_refl).
  - intros Hstarted. rewrite (Hnow Hstarted).
    unfold result at 2. cbn [snd].
    repeat match goal with
           | |- context [if ?b then _ else _] => destruct b
           end; discriminate.
Qed.

Lemma flash_decks_fuel (fuel : nat) (decks : list (Z * Deck.t))
    (h : list event) :
  let r := flash_decks W fuel self artifacts targets decks h in
  (result r = OutOfFuel -> exists pre, events r = pre ++ waits fuel)
  /\ ((forall index deck, In (index, deck) decks -> Deck.is_started deck = true) ->
      result r <> OutOfFuel).
Proof.
  revert h. induction decks as [|[index deck] rest IH]; intros h; cbv zeta.
  - split; discriminate.
  - cbn [flash_decks]. rewrite result_bind, events_bind.
    destruct (flash_one_deck_fuel fuel index deck h) as [Hout Hnow].
    cbv zeta in Hout, Hnow.
    set (turn := flash_one_deck W fuel self artifacts targets index deck h) in *.
    destruct (IH (h ++ events turn)) as [Hout' Hnow']. cbv zeta in Hout', Hnow'.
    destruct (result turn) eqn:Hturn.
    + split.
      * intros Hr. destruct (Hout' Hr) as [pre Hpre].
        exists (events turn ++ pre). now rewrite Hpre, app_assoc.
      * intros Hall. apply Hnow'. intros i d Hin. apply (Hall i d). now right.
    + split; discriminate.
    + split.
      * intros _. rewrite app_nil_r. now apply Hout.
      * intros Hall _. apply Hnow; [|reflexivity].
        apply (Hall index deck). now left.
Qed.

Lemma flash_deck_sound (fuel : nat) (h : list event) :
  let listed := query_decks W (h ++ detecting self
                                 ++ [ScfOpen (clink self); GetMems; QueryDecks]) in
  each_event (sound h listed) h
    (events (_flash_deck W fuel self artifacts targets h)).
Proof.
  cbv zeta. rewrite flash_deck_run. cbv zeta. unfold events at 1. cbn [fst].
  set (opened := detecting self ++ [ScfOpen (clink self); GetMems]).
  replace (detecting self ++ [ScfOpen (clink self); GetMems; QueryDecks])
    with (opened ++ [QueryDecks])
    by (subst opened; now rewrite <- app_assoc).
  set (listed := query_decks W (h ++ opened ++ [QueryDecks])).
  assert (Hplain : forall h' evs,
             forallb (fun e => negb (is_deck_write e)) evs = true ->
             each_event (sound h listed) h' evs).
  { intros h' evs. apply each_event_quiet.
    intros ? e He. destruct e; try discriminate He; split; exact I. }
  apply each_event_app. split.
  { apply Hplain. subst opened. unfold detecting.
    now destruct (progress_cb self). }
  apply each_event_app. split.
  2:{ apply Hplain. now destruct (result _). }
  destruct (get_mems W (h ++ opened) =? 0)%nat; [exact I|].
  unfold events at 1. cbn [fst each_event]. split; [split; exact I|].
  rewrite <- !app_assoc.
  apply flash_decks_spec. intros index deck Hin. split; [|exact Hin].
  exists opened, []. split; [reflexivity | exact Hin].
Qed.

(** X12. [_flash_deck] writes to a deck only after a [query_decks] of the
    same call has reported the deck at that index as started, supporting a
    firmware upgrade, requiring one, and with its bootloader active. *)
Theorem deck_writes_are_checked (fuel : nat) (h : list event) :
  each_event (checked_deck_write W h) h
    (events (_flash_deck W fuel self artifacts targets h)).
Proof.
  eapply each_event_impl; [|apply flash_deck_sound].
  now intros ? ? [Hchecked _].
Qed.

(** X13. Every [write_sync] of [_flash_deck] goes to a deck that the
    [query_decks] of the call lists at the index written, and writes at
    offset 0 the whole content of one of the artifacts given: the first one
    whose target is [Target('deck', name, 'fw')] for the name of that very
    deck, a target that is among the requested targets unless none was
    requested. *)
Theorem deck_writes_come_from_the_artifacts (fuel : nat) (h : list event) :
  let listed := query_decks W (h ++ detecting self
                                 ++ [ScfOpen (clink self); GetMems; QueryDecks]) in
  Forall (deck_write_from listed artifacts targets)
    (events (_flash_deck W fuel self artifacts targets h)).
Proof.
  cbv zeta. apply each_event_Forall with (h := h).
  eapply each_event_impl; [|apply flash_deck_sound].
  now intros ? ? [_ Hfrom].
Qed.

(** X14. [_flash_deck] opens one session with the Crazyflie and, when it
    returns or raises, it has left it: its trace is the optional report,
    the opening, the request for the deck memories, a body that neither
    opens nor leaves a session, and the leaving.  The model stops for lack
    of fuel only inside the wait for a deck to start (lines 419-422), after
    [fuel] turns of that loop, the session still open; it never does when
    every deck listed is started.  With no deck memory the body is empty
    and the call returns. *)
Theorem deck_session_is_released (fuel : nat) (h : list event) :
  let r := _flash_deck W fuel self artifacts targets h in
  let opened := detecting self ++ [ScfOpen (clink self); GetMems] in
  exists body,
    forallb (fun e => negb (is_session e)) body = true
    /\ match result r with
       | OutOfFuel =>
           events r = opened ++ body /\ exists pre, body = pre ++ waits fuel
       | _ => events r = opened ++ body ++ [ScfClose]
       end
    /\ (get_mems W (h ++ opened) = 0%nat -> body = [] /\ result r = Return tt)
    /\ ((forall index deck,
           In (index, deck) (query_decks W (h ++ opened ++ [QueryDecks])) ->
           Deck.is_started deck = true) ->
        result r <> OutOfFuel).
Proof.
  cbv zeta. rewrite flash_deck_run. cbv zeta.
  set (opened := detecting self ++ [ScfOpen (clink self); GetMems]).
  set (body := if (get_mems W (h ++ opened) =? 0)%nat then _ else _).
  change (result (_, result body)) with (result body).
  change (events (?evs, result body)) with evs.
  exists (events body). split; [|split; [|split]].
  - subst body. destruct (_ =? _)%nat; [reflexivity|].
    unfold events at 1. cbn [fst forallb negb is_session andb].
    apply emits_only_impl with (2 := flash_decks_events fuel _).
    now intros e [_ He]%andb_true_iff.
  - destruct (result body) eqn:Hres; try reflexivity.
    split; [now rewrite app_nil_r|].
    subst body. destruct (_ =? _)%nat; [discriminate Hres|].
    unfold result at 1 in Hres. cbn [snd] in Hres.
    destruct (proj1 (flash_decks_fuel fuel _ _) Hres) as [pre Hpre].
    exists (QueryDecks :: pre). unfold events at 1. cbn [fst].
    now rewrite Hpre.
  - intros Hnone. subst body. now rewrite Hnone.
  - intros Hall. subst body. destruct (_ =? _)%nat; [discriminate|].
    unfold result at 1. cbn [snd].
    now apply (proj2 (flash_decks_fuel fuel _ _)).
Qed.


End DeckUpdate.

Lemma deck_session_is_released_witness :
  exists body,
    forallb (fun e => negb (is_session e)) body = true
    /\ events (_flash_deck (deck_device no_files true) 0 (session true true 0x10)
                 [deck_artifact] [] [])
       = [Progress "Detecting deck to be updated" 25;
          ScfOpen (Some "radio://0/0/2M"); GetMems] ++ body ++ [ScfClose].
Proof.
  destruct (deck_session_is_released (deck_device no_files true)
              (session true true 0x10) [deck_artifact] [] 0%nat [])
    as (body & Hbody & Hevents & _).
  exists body. split; [exact Hbody | exact Hevents].
Defined.


(** ** The order of a flash *)

Section FlashOrder.

Variable A : Arith.
Variable BT : BootTypes.
Variable W : World.

Lemma start_bootloader_events self warm cf :
  emits_only (fun e => negb (is_flash_command e))
    (start_bootloader BT W self warm cf).
Proof.
  unfold start_bootloader. cbv zeta. trace_only.
Qed.

Lemma reset_to_firmware_events :
  emits_only (fun e => negb (is_flash_command e)) (reset_to_firmware BT W).
Proof.
  unfold reset_to_firmware. trace_only.
Qed.

(** X16. The trace of [flash] splits in two parts: the first holds no step
    of the deck update (no reset to the firmware, no closing of the link, no
    sleep, no deck session and no deck write), the second no
    [upload_buffer] and no [write_flash].  So every command to the flash
    memories is sent before the device leaves the bootloader. *)
Theorem flash_commands_come_first fuel self filename targets cf h :
  exists flashing rest,
    events (flash A BT W fuel self filename targets cf h) = flashing ++ rest
    /\ forallb outside_deck_pipeline flashing = true
    /\ forallb (fun e => negb (is_flash_command e)) rest = true.
Proof.
  rewrite flash_unfold.
  destruct (result (load_artifacts W filename targets h)) as [artifacts | x |].
  2,3: now exists [], [].
  unfold flash_loaded. cbv zeta. rewrite events_bind.
  do 2 eexists. split; [reflexivity|]. split.
  - revert h.
    match goal with
    | |- forall h, forallb ?P (events (?m h)) = true =>
        change (emits_only P m)
    end.
    pose proof (flash_flash_outside_deck_pipeline A BT W).
    trace_only.
  - destruct (result _) as [[] | x |]; [|reflexivity..].
    match goal with
    | |- forallb ?P (events (?m ?hh)) = true =>
        generalize hh; change (emits_only P m)
    end.
    pose proof start_bootloader_events.
    pose proof reset_to_firmware_events.
    pose proof (flash_deck_events W).
    unfold close.
    trace_only.
Qed.

End FlashOrder.

(** ** The moving average *)

Lemma total_app (a b : list Z) : total (a ++ b) = total a + total b.
Proof.
  unfold total. induction a as [|x a IH]; cbn; [reflexivity|].
  rewrite IH. lia.
Qed.

(** On a window of ints that is not empty, an int sample never fails. *)
Lemma update_int (first : Z) (rest : list Z) (sum : Z)
    (average : MovingAverage.number) (value : Z) :
  MovingAverage.update
    {| MovingAverage._elements := map MovingAverage.Int (first :: rest);
       MovingAverage._sum := MovingAverage.Int sum;
       MovingAverage.average := average |}
    (MovingAverage.Int value)
  = ({| MovingAverage._elements := map MovingAverage.Int (rest ++ [value]);
        MovingAverage._sum := MovingAverage.Int (sum - first + value);
        MovingAverage.average := average |}, None).
Proof.
  unfold MovingAverage.update. cbn. now rewrite map_app.
Qed.

Lemma updates_window (elements : list Z) (average : MovingAverage.number)
    (values : list Z) :
  elements <> [] ->
  updates {| MovingAverage._elements := map MovingAverage.Int elements;
             MovingAverage._sum := MovingAverage.Int (total elements);
             MovingAverage.average := average |}
          (map MovingAverage.Int values)
  = ({| MovingAverage._elements :=
          map MovingAverage.Int (skipn (List.length values) (elements ++ values));
        MovingAverage._sum :=
          MovingAverage.Int
            (total (skipn (List.length values) (elements ++ values)));
        MovingAverage.average := average |}, None).
Proof.
  revert elements. induction values as [|v values IH]; intros elements Hne.
  - cbn. now rewrite app_nil_r.
  - destruct elements as [|first rest]; [now destruct Hne|].
    cbn [map updates]. change (MovingAverage.Int first :: map MovingAverage.Int rest)
      with (map MovingAverage.Int (first :: rest)).
    rewrite update_int.
    replace (total (first :: rest) - first + v) with (total (rest ++ [v]))
      by (rewrite total_app; unfold total; cbn [fold_right]; lia).
    rewrite IH by (now destruct rest).
    cbn [List.length skipn app]. now rewrite <- app_assoc.
Qed.

Lemma total_repeat (fill : Z) (n : nat) :
  total (repeat fill n) = fill * Z.of_nat n.
Proof.
  induction n as [|n IH]; cbn [repeat total fold_right]; [lia|].
  fold (total (repeat fill n)). lia.
Qed.

Lemma window_length (size fill : Z) (values : list Z) :
  List.length (window size fill values) = Z.to_nat size.
Proof.
  unfold window. rewrite length_skipn, length_app, repeat_length. lia.
Qed.

Lemma map_repeat {T U} (f : T -> U) (x : T) (n : nat) :
  map f (repeat x n) = repeat (f x) n.
Proof. induction n as [|n IH]; cbn; [reflexivity | now rewrite IH]. Qed.

(** The window of ints after the constructor and any int samples. *)
Lemma init_window (size fill : Z) (values : list Z) :
  0 < size ->
  exists created,
    MovingAverage.__init__ size (MovingAverage.Int fill) = inl created
    /\ updates created (map MovingAverage.Int values)
       = ({| MovingAverage._elements :=
               map MovingAverage.Int (window size fill values);
             MovingAverage._sum :=
               MovingAverage.Int (total (window size fill values));
             MovingAverage.average := MovingAverage.Int fill |}, None).
Proof.
  intros Hsize. eexists. split; [reflexivity|].
  cbn [MovingAverage.mul MovingAverage.arith].
  rewrite <- map_repeat.
  replace (fill * size) with (total (repeat fill (Z.to_nat size)))
    by (rewrite total_repeat; lia).
  rewrite updates_window; [reflexivity|].
  destruct (Z.to_nat size) eqn:Hn; [lia | discriminate].
Qed.

Lemma last_cons {T} (x d : T) (l : list T) : last (x :: l) d = last l x.
Proof.
  revert x d. induction l as [|y l IH]; intros x d; [reflexivity|].
  change (last (x :: y :: l) d) with (last (y :: l) d).
  now rewrite !IH.
Qed.

Lemma deliver_updates (self : RFIDLogger.t)
    (packets : list (list (string * Z))) (updated : MovingAverage.t) :
  updates (RFIDLogger._moving_average self)
    (map MovingAverage.Int (rfid_values packets)) = (updated, None) ->
  deliver self packets
  = ({| RFIDLogger._moving_average := updated;
        RFIDLogger.recent_value :=
          last (map Some (rfid_values packets)) (RFIDLogger.recent_value self) |},
     None).
Proof.
  revert self. induction packets as [|data rest IH]; intros self.
  - cbn. intros [= <-]. now destruct self.
  - cbn [deliver rfid_values flat_map]. fold (rfid_values rest).
    unfold RFIDLogger._rfid_log_data.
    destruct (lookup "rfid.value" data) as [value|].
    + cbn [app map updates RFIDLogger._moving_average RFIDLogger.recent_value].
      destruct (MovingAverage.update _ (MovingAverage.Int value))
        as [self1 [e|]]; [discriminate|].
      intros Hrun.
      rewrite (IH {| RFIDLogger._moving_average := self1;
                     RFIDLogger.recent_value := Some value |} Hrun).
      cbn [RFIDLogger.recent_value map]. now rewrite last_cons.
    + cbn [app]. intros Hrun. now rewrite (IH _ Hrun).
Qed.

(** X17. For an integer fill value, integer samples and a positive size:
    the constructor and every [update] succeed, and after any samples
    [_elements] holds the last [size] of them, preceded by the fill value
    while fewer than [size] have come, and [_sum] is exactly their sum.
    The attribute [average] still holds the fill value. *)
Theorem moving_average_window (size fill : Z) (values : list Z) :
  0 < size ->
  exists created,
    MovingAverage.__init__ size (MovingAverage.Int fill) = inl created
    /\ updates created (map MovingAverage.Int values)
       = ({| MovingAverage._elements :=
               map MovingAverage.Int (window size fill values);
             MovingAverage._sum :=
               MovingAverage.Int (total (window size fill values));
             MovingAverage.average := MovingAverage.Int fill |}, None).
Proof.
  exact (init_window size fill values).
Qed.

(** X18. With a size of zero or less and an integer fill value the window
    is empty: every [update] raises [IndexError] and changes nothing, and
    [getAverage] never returns a number; for the size zero it raises
    [ZeroDivisionError]. *)
Theorem moving_average_empty_window (size fill : Z) :
  size <= 0 ->
  exists self,
    MovingAverage.__init__ size (MovingAverage.Int fill) = inl self
    /\ (forall value,
          MovingAverage.update self value = (self, Some MovingAverage.IndexError))
    /\ (MovingAverage.getAverage self = inr MovingAverage.ZeroDivisionError
        \/ MovingAverage.getAverage self = inr MovingAverage.OverflowError)
    /\ (size = 0 ->
        MovingAverage.getAverage self = inr MovingAverage.ZeroDivisionError).
Proof.
  intros Hsize.
  assert (Hempty : Z.to_nat size = 0%nat) by lia.
  eexists. split; [reflexivity|].
  unfold MovingAverage.update, MovingAverage.getAverage, MovingAverage.to_float,
    MovingAverage.float_of_int.
  cbn [MovingAverage._elements MovingAverage._sum MovingAverage.mul
       MovingAverage.arith].
  rewrite Hempty.
  cbn [repeat Py.len List.length Z.of_nat Z.eqb].
  split; [reflexivity|]. split.
  - destruct (PrimFloat.is_infinity _); [now right | now left].
  - intros ->. rewrite Z.mul_0_r. reflexivity.
Qed.

(** X19. The reading of an [RFIDLogger] with a window of positive length:
    no packet makes it raise, packets without [rfid.value] change nothing,
    and [get_reading] is the sum of the last [moving_average_length] values
    of [rfid.value], preceded by 200 while fewer have come, converted to a
    float and divided by the length. *)
Theorem rfid_reading (moving_average_length : Z)
    (packets : list (list (string * Z))) :
  0 < moving_average_length ->
  let values := window moving_average_length 200 (rfid_values packets) in
  exists created self,
    RFIDLogger.__init__ moving_average_length = inl created
    /\ deliver created packets = (self, None)
    /\ MovingAverage._elements (RFIDLogger._moving_average self)
       = map MovingAverage.Int values
    /\ RFIDLogger.recent_value self = last (map Some (rfid_values packets)) None
    /\ RFIDLogger.get_reading self = mean (total values) moving_average_length.
Proof.
  intros Hlen. cbv zeta.
  destruct (init_window moving_average_length 200 (rfid_values packets) Hlen)
    as (average & Hcreated & Hrun).
  unfold RFIDLogger.__init__. rewrite Hcreated.
  do 2 eexists. split; [reflexivity|].
  split; [apply deliver_updates; exact Hrun|].
  cbn [RFIDLogger._moving_average RFIDLogger.recent_value
       MovingAverage._elements].
  split; [reflexivity|]. split; [reflexivity|].
  unfold RFIDLogger.get_reading, MovingAverage.getAverage, mean.
  cbn [RFIDLogger._moving_average MovingAverage._sum MovingAverage._elements
       MovingAverage.to_float].
  destruct (MovingAverage.float_of_int _); [|reflexivity].
  unfold Py.len. rewrite length_map, window_length, Z2Nat.id by lia.
  destruct (moving_average_length =? 0) eqn:Hzero; [|reflexivity].
  apply Z.eqb_eq in Hzero. lia.
Qed.

Lemma moving_average_window_witness :
  exists created,
    MovingAverage.__init__ 3 (MovingAverage.Int 0) = inl created
    /\ updates created (map MovingAverage.Int [1; 2; 3; 4])
       = ({| MovingAverage._elements := map MovingAverage.Int [2; 3; 4];
             MovingAverage._sum := MovingAverage.Int 9;
             MovingAverage.average := MovingAverage.Int 0 |}, None).
Proof.
  apply (moving_average_window 3 0 [1; 2; 3; 4]). lia.
Defined.

Lemma moving_average_empty_window_witness :
  exists self,
    MovingAverage.__init__ 0 (MovingAverage.Int 200) = inl self
    /\ (forall value,
          MovingAverage.update self value = (self, Some MovingAverage.IndexError))
    /\ MovingAverage.getAverage self = inr MovingAverage.ZeroDivisionError.
Proof.
  destruct (moving_average_empty_window 0 200) as (self & Hinit & Hupdate & _ & Hzero);
    [lia|].
  exists self. split; [exact Hinit|].
  split; [exact Hupdate | now apply Hzero].
Defined.

Lemma rfid_reading_witness :
  exists created self,
    RFIDLogger.__init__ 5 = inl created
    /\ deliver created
         [[("rfid.value", 1000)]; [("battery", 3)]; [("rfid.value", 400)]]
       = (self, None)
    /\ MovingAverage._elements (RFIDLogger._moving_average self)
       = map MovingAverage.Int [200; 200; 200; 1000; 400]
    /\ RFIDLogger.recent_value self = Some 400
    /\ RFIDLogger.get_reading self = inl 400%float.
Proof.
  apply (rfid_reading 5
           [[("rfid.value", 1000)]; [("battery", 3)]; [("rfid.value", 400)]]).
  lia.
Defined.
